(** * woody: the PINE transport and codec core

    A shallow embedding of [pine.go] (codec, transport resolution,
    connection), of the probe loop of [main] and of the request
    handler of [api.go], together with the properties the
    specification states about them and further properties of the
    code.

    Layout of the development:
    - [GoRt]: the fragment of the Go runtime and standard library the
      program relies on (slices over a byte heap, panics,
      [encoding/binary], [strings], [fmt]), written as a state monad.
    - one module per request and answer struct of [pine.go], each with
      its [toBytes] or [fromBytes] method;
    - the transport resolver and the connection;
    - the probe loop of [main];
    - [StrConv], [parseInt] and [handlePineRequest] of [api.go];
    - the theorems. *)

From Stdlib Require Import ZArith NArith List String Ascii Bool Lia.
From Stdlib Require Import Permutation DecimalString HexadecimalString.
From coqutil Require Import Byte.
Import ListNotations.

Local Open Scope string_scope.
Local Open Scope list_scope.

(* ===================================================================== *)
(** * The Go runtime fragment *)
(* ===================================================================== *)

Module GoRt.

(** A Go call either returns or panics. *)
Inductive outcome (A : Type) : Type :=
| Done (a : A)
| Panic (reason : string).
Arguments Done {A} a.
Arguments Panic {A} reason.

(** The [error] interface value: [None] is [nil], [Some msg] is an
    error whose [Error()] text is [msg]. *)
Definition error : Type := option string.
Definition nil_error : error := None.
Definition errors_New (msg : string) : error := Some msg.

(** A connection handle as returned by [net.Dial]. *)
Record Conn : Type := { remote_network : string; remote_address : string }.

(** Values handed to the structured logger. [HexDump bs] stands for
    the text [hex.Dump] renders for the bytes [bs]. *)
Inductive LogValue : Type :=
| LUint (v : Z)
| HexDump (bs : list byte).

Inductive Level : Type := LevelDebug | LevelInfo | LevelError.

(** What the program does to the outside, in order. *)
Inductive event : Type :=
| EvLog (lvl : Level) (msg : string) (attrs : list (string * LogValue))
| EvDial (network address : string)
| EvClose (c : Conn)
| EvSleep (seconds : Z).

(** The mutable world: one heap of bytes that every slice points
    into, and the journal of events. *)
Record world : Type := { heap : list byte; journal : list event }.

Definition M (A : Type) : Type := world -> outcome (A * world).

Definition ret {A} (a : A) : M A := fun w => Done (a, w).

Definition bind {A B} (m : M A) (k : A -> M B) : M B :=
  fun w => match m w with
           | Done (a, w') => k a w'
           | Panic r => Panic r
           end.

Definition panic {A} (reason : string) : M A := fun _ => Panic reason.

Definition emit (e : event) : M unit :=
  fun w => Done (tt, {| heap := heap w; journal := journal w ++ [e] |}).

Declare Scope go_scope.
Delimit Scope go_scope with go.
Notation "x <- m ;; k" := (bind m (fun x => k))
  (at level 61, m at next level, right associativity) : go_scope.
Notation "m ;; k" := (bind m (fun _ => k))
  (at level 61, right associativity) : go_scope.
Local Open Scope go_scope.

(** ** Slices

    A slice is a window on the heap: where it starts, how many bytes
    are visible ([len]) and how many may be resliced ([cap]). Two
    slices made from one another share their bytes. *)
Record slice : Type := { ptr : nat; len : nat; cap : nat }.

Fixpoint list_set (l : list byte) (i : nat) (b : byte) : list byte :=
  match l, i with
  | [], _ => []
  | _ :: t, O => b :: t
  | h :: t, S j => h :: list_set t j b
  end.

(** [make([]byte, n)] *)
Definition make (n : nat) : M slice :=
  fun w => Done ({| ptr := List.length (heap w); len := n; cap := n |},
                 {| heap := heap w ++ repeat Byte.x00 n; journal := journal w |}).

(** [s[i]] as an expression: the index is checked against [len]. *)
Definition index (s : slice) (i : nat) : M byte :=
  fun w => if (i <? len s)%nat
           then Done (nth (ptr s + i) (heap w) Byte.x00, w)
           else Panic "index out of range".

(** [s[i] = b] *)
Definition set_index (s : slice) (i : nat) (b : byte) : M unit :=
  fun w => if (i <? len s)%nat
           then Done (tt, {| heap := list_set (heap w) (ptr s + i) b;
                             journal := journal w |})
           else Panic "index out of range".

(** [s[lo:]]: the low bound is checked against [len]. *)
Definition slice_from (s : slice) (lo : nat) : M slice :=
  if (lo <=? len s)%nat
  then ret {| ptr := ptr s + lo; len := len s - lo; cap := cap s - lo |}
  else panic "slice bounds out of range".

(** [s[lo:hi]]: the high bound is checked against [cap], not [len]. *)
Definition slice_range (s : slice) (lo hi : nat) : M slice :=
  if ((hi <=? cap s) && (lo <=? hi))%nat
  then ret {| ptr := ptr s + lo; len := hi - lo; cap := cap s - lo |}
  else panic "slice bounds out of range".

(** The bytes a slice shows. *)
Definition contents (s : slice) (w : world) : list byte :=
  firstn (len s) (skipn (ptr s) (heap w)).

Definition read_all (s : slice) : M (list byte) :=
  fun w => Done (contents s w, w).

(** [string(s)] *)
Definition string_of_slice (s : slice) : M string :=
  bs <- read_all s ;; ret (string_of_list_byte bs).

(** ** Conversion to [uint32]: the value wraps at 32 bits *)
Definition uint32 (z : Z) : Z := (z mod 2 ^ 32)%Z.

(** ** [encoding/binary], [LittleEndian] *)
Module LittleEndian.

Definition u (b : byte) : Z := byte.unsigned b.

Definition Uint16 (b : slice) : M Z :=
  index b 1 ;;
  b0 <- index b 0 ;; b1 <- index b 1 ;;
  ret (Z.lor (u b0) (Z.shiftl (u b1) 8)).

Definition Uint32 (b : slice) : M Z :=
  index b 3 ;;
  b0 <- index b 0 ;; b1 <- index b 1 ;;
  b2 <- index b 2 ;; b3 <- index b 3 ;;
  ret (Z.lor (Z.lor (Z.lor (u b0) (Z.shiftl (u b1) 8))
                    (Z.shiftl (u b2) 16))
             (Z.shiftl (u b3) 24)).

Definition Uint64 (b : slice) : M Z :=
  index b 7 ;;
  b0 <- index b 0 ;; b1 <- index b 1 ;;
  b2 <- index b 2 ;; b3 <- index b 3 ;;
  b4 <- index b 4 ;; b5 <- index b 5 ;;
  b6 <- index b 6 ;; b7 <- index b 7 ;;
  ret (Z.lor (Z.lor (Z.lor (Z.lor (Z.lor (Z.lor (Z.lor
         (u b0) (Z.shiftl (u b1) 8)) (Z.shiftl (u b2) 16))
         (Z.shiftl (u b3) 24)) (Z.shiftl (u b4) 32))
         (Z.shiftl (u b5) 40)) (Z.shiftl (u b6) 48))
         (Z.shiftl (u b7) 56)).

Definition PutUint16 (b : slice) (v : Z) : M unit :=
  index b 1 ;;
  set_index b 0 (byte.of_Z v) ;;
  set_index b 1 (byte.of_Z (Z.shiftr v 8)).

Definition PutUint32 (b : slice) (v : Z) : M unit :=
  index b 3 ;;
  set_index b 0 (byte.of_Z v) ;;
  set_index b 1 (byte.of_Z (Z.shiftr v 8)) ;;
  set_index b 2 (byte.of_Z (Z.shiftr v 16)) ;;
  set_index b 3 (byte.of_Z (Z.shiftr v 24)).

Definition PutUint64 (b : slice) (v : Z) : M unit :=
  index b 7 ;;
  set_index b 0 (byte.of_Z v) ;;
  set_index b 1 (byte.of_Z (Z.shiftr v 8)) ;;
  set_index b 2 (byte.of_Z (Z.shiftr v 16)) ;;
  set_index b 3 (byte.of_Z (Z.shiftr v 24)) ;;
  set_index b 4 (byte.of_Z (Z.shiftr v 32)) ;;
  set_index b 5 (byte.of_Z (Z.shiftr v 40)) ;;
  set_index b 6 (byte.of_Z (Z.shiftr v 48)) ;;
  set_index b 7 (byte.of_Z (Z.shiftr v 56)).

End LittleEndian.

(** ** [strings] *)

(** [strings.HasSuffix] and [strings.CutSuffix] *)
Definition HasSuffix (s suffix : string) : bool :=
  (String.length suffix <=? String.length s)%nat &&
  String.eqb (substring (String.length s - String.length suffix)
                        (String.length suffix) s) suffix.

Definition CutSuffix (s suffix : string) : string * bool :=
  if HasSuffix s suffix
  then (substring 0 (String.length s - String.length suffix) s, true)
  else (s, false).

(** [strings.LastIndex]: the byte offset of the last place where
    [sep] starts in [s], or [-1]. *)
Fixpoint LastIndex_from (s sep : string) (i best : Z) : Z :=
  let best' := if prefix sep s then i else best in
  match s with
  | EmptyString => best'
  | String _ rest => LastIndex_from rest sep (i + 1) best'
  end.

Definition LastIndex (s sep : string) : Z := LastIndex_from s sep 0 (-1).

(** [s[:hi]] on a string, with an [int] bound. *)
Definition string_upto (s : string) (hi : Z) : M string :=
  if ((0 <=? hi) && (hi <=? Z.of_nat (String.length s)))%Z
  then ret (substring 0 (Z.to_nat hi) s)
  else panic "slice bounds out of range".

(** ** [fmt] *)

(** [%v] of an unsigned integer: its decimal digits. *)
Definition fmt_uint (n : N) : string :=
  DecimalString.NilEmpty.string_of_uint (N.to_uint n).

(** [%v] of a function value: [fmt] prints the address of its code,
    ["0x"] and lower-case hexadecimal digits, or ["<nil>"]. *)
Definition fmt_func (entry : N) : string :=
  if (entry =? 0)%N then "<nil>"
  else ("0x" ++ HexadecimalString.NilEmpty.string_of_uint (N.to_hex_uint entry))%string.

(** The double quote, as the byte it is. *)
Definition dquote : string := String (ascii_of_nat 34) EmptyString.

End GoRt.

Import GoRt.
Local Open Scope go_scope.

(* ===================================================================== *)
(** * The codec of [pine.go] *)
(* ===================================================================== *)

(** [hex.Dump(bytes)] as a log attribute, and the two logger calls the
    codec makes. *)
Definition hex_Dump (bytes : slice) : M LogValue :=
  bs <- read_all bytes ;; ret (HexDump bs).

Definition logger_Error (msg : string) (attrs : list (string * LogValue)) : M unit :=
  emit (EvLog LevelError msg attrs).

Definition logger_Debug (msg : string) (attrs : list (string * LogValue)) : M unit :=
  emit (EvLog LevelDebug msg attrs).

(** The two interfaces of [pine.go]. A method with a pointer receiver
    takes the struct and gives the updated struct back. *)
Class PineRequest (R : Type) : Type := toBytes : R -> M (slice * error).
Class PineAnswer (A : Type) : Type := fromBytes : A -> slice -> M (A * error).

(** The string ["\u0000"]. *)
Definition NUL : string := String Ascii.zero EmptyString.

Module PineRead8Request.
Record t : Type := { address : Z }.

Definition toBytes (request : t) : M (slice * error) :=
  bytes <- make 9 ;;
  b0 <- slice_from bytes 0 ;;
  LittleEndian.PutUint32 b0 (uint32 (Z.of_nat (len bytes))) ;;
  set_index bytes 4 (byte.of_Z 0) ;;
  b5 <- slice_from bytes 5 ;;
  LittleEndian.PutUint32 b5 (address request) ;;
  ret (bytes, nil_error).
End PineRead8Request.
#[export] Instance PineRead8Request_PineRequest :
  PineRequest PineRead8Request.t :=
  PineRead8Request.toBytes.

Module PineRead8Answer.
Record t : Type := { resultCode : byte; memoryValue : byte }.
Definition zero : t := {| resultCode := Byte.x00; memoryValue := Byte.x00 |}.

Definition fromBytes (answer : t) (bytes : slice) : M (t * error) :=
  b0 <- slice_from bytes 0 ;;
  length <- LittleEndian.Uint32 b0 ;;
  if (negb (length =? 5) && negb (length =? 6))%Z then
    dump <- hex_Dump bytes ;;
    logger_Error "unexpected length (length != 5 && length != 6)"
                 [("length", LUint length); ("bytes", dump)] ;;
    ret (answer, errors_New "length of bytes for PineStatusAnswer != 5 or 6")
  else
    dump <- hex_Dump bytes ;;
    logger_Debug "answer bytes" [("bytes", dump)] ;;
    rc <- index bytes 4 ;;
    let answer := {| resultCode := rc; memoryValue := memoryValue answer |} in
    mv <- index bytes 5 ;;
    let answer := {| resultCode := resultCode answer; memoryValue := mv |} in
    ret (answer, nil_error).
End PineRead8Answer.
#[export] Instance PineRead8Answer_PineAnswer :
  PineAnswer PineRead8Answer.t :=
  PineRead8Answer.fromBytes.

Module PineRead16Request.
Record t : Type := { address : Z }.

Definition toBytes (request : t) : M (slice * error) :=
  bytes <- make 9 ;;
  b0 <- slice_from bytes 0 ;;
  LittleEndian.PutUint32 b0 (uint32 (Z.of_nat (len bytes))) ;;
  set_index bytes 4 (byte.of_Z 1) ;;
  b5 <- slice_from bytes 5 ;;
  LittleEndian.PutUint32 b5 (address request) ;;
  ret (bytes, nil_error).
End PineRead16Request.
#[export] Instance PineRead16Request_PineRequest :
  PineRequest PineRead16Request.t :=
  PineRead16Request.toBytes.

Module PineRead16Answer.
Record t : Type := { resultCode : byte; memoryValue : Z }.
Definition zero : t := {| resultCode := Byte.x00; memoryValue := 0%Z |}.

Definition fromBytes (answer : t) (bytes : slice) : M (t * error) :=
  b0 <- slice_from bytes 0 ;;
  length <- LittleEndian.Uint32 b0 ;;
  if (negb (length =? 5) && negb (length =? 7))%Z then
    dump <- hex_Dump bytes ;;
    logger_Error "unexpected length (length != 5 && length != 7)"
                 [("length", LUint length); ("bytes", dump)] ;;
    ret (answer, errors_New "length of bytes for PineStatusAnswer != 5 or 7")
  else
    dump <- hex_Dump bytes ;;
    logger_Debug "answer bytes" [("bytes", dump)] ;;
    rc <- index bytes 4 ;;
    let answer := {| resultCode := rc; memoryValue := memoryValue answer |} in
    b5 <- slice_from bytes 5 ;;
    mv <- LittleEndian.Uint16 b5 ;;
    let answer := {| resultCode := resultCode answer; memoryValue := mv |} in
    ret (answer, nil_error).
End PineRead16Answer.
#[export] Instance PineRead16Answer_PineAnswer :
  PineAnswer PineRead16Answer.t :=
  PineRead16Answer.fromBytes.

Module PineRead32Request.
Record t : Type := { address : Z }.

Definition toBytes (request : t) : M (slice * error) :=
  bytes <- make 9 ;;
  b0 <- slice_from bytes 0 ;;
  LittleEndian.PutUint32 b0 (uint32 (Z.of_nat (len bytes))) ;;
  set_index bytes 4 (byte.of_Z 2) ;;
  b5 <- slice_from bytes 5 ;;
  LittleEndian.PutUint32 b5 (address request) ;;
  ret (bytes, nil_error).
End PineRead32Request.
#[export] Instance PineRead32Request_PineRequest :
  PineRequest PineRead32Request.t :=
  PineRead32Request.toBytes.

Module PineRead32Answer.
Record t : Type := { resultCode : byte; memoryValue : Z }.
Definition zero : t := {| resultCode := Byte.x00; memoryValue := 0%Z |}.

Definition fromBytes (answer : t) (bytes : slice) : M (t * error) :=
  b0 <- slice_from bytes 0 ;;
  length <- LittleEndian.Uint32 b0 ;;
  if (negb (length =? 5) && negb (length =? 9))%Z then
    dump <- hex_Dump bytes ;;
    logger_Error "unexpected length (length != 5 && length != 9)"
                 [("length", LUint length); ("bytes", dump)] ;;
    ret (answer, errors_New "length of bytes for PineStatusAnswer != 5 or 9")
  else
    dump <- hex_Dump bytes ;;
    logger_Debug "answer bytes" [("bytes", dump)] ;;
    rc <- index bytes 4 ;;
    let answer := {| resultCode := rc; memoryValue := memoryValue answer |} in
    b5 <- slice_from bytes 5 ;;
    mv <- LittleEndian.Uint32 b5 ;;
    let answer := {| resultCode := resultCode answer; memoryValue := mv |} in
    ret (answer, nil_error).
End PineRead32Answer.
#[export] Instance PineRead32Answer_PineAnswer :
  PineAnswer PineRead32Answer.t :=
  PineRead32Answer.fromBytes.

Module PineRead64Request.
Record t : Type := { address : Z }.

Definition toBytes (request : t) : M (slice * error) :=
  bytes <- make 9 ;;
  b0 <- slice_from bytes 0 ;;
  LittleEndian.PutUint32 b0 (uint32 (Z.of_nat (len bytes))) ;;
  set_index bytes 4 (byte.of_Z 3) ;;
  b5 <- slice_from bytes 5 ;;
  LittleEndian.PutUint32 b5 (address request) ;;
  ret (bytes, nil_error).
End PineRead64Request.
#[export] Instance PineRead64Request_PineRequest :
  PineRequest PineRead64Request.t :=
  PineRead64Request.toBytes.

Module PineRead64Answer.
Record t : Type := { resultCode : byte; memoryValue : Z }.
Definition zero : t := {| resultCode := Byte.x00; memoryValue := 0%Z |}.

Definition fromBytes (answer : t) (bytes : slice) : M (t * error) :=
  b0 <- slice_from bytes 0 ;;
  length <- LittleEndian.Uint32 b0 ;;
  if (negb (length =? 5) && negb (length =? 13))%Z then
    dump <- hex_Dump bytes ;;
    logger_Error "unexpected length (length != 5 && length != 13)"
                 [("length", LUint length); ("bytes", dump)] ;;
    ret (answer, errors_New "length of bytes for PineStatusAnswer != 5 or 13")
  else
    dump <- hex_Dump bytes ;;
    logger_Debug "answer bytes" [("bytes", dump)] ;;
    rc <- index bytes 4 ;;
    let answer := {| resultCode := rc; memoryValue := memoryValue answer |} in
    b5 <- slice_from bytes 5 ;;
    mv <- LittleEndian.Uint64 b5 ;;
    let answer := {| resultCode := resultCode answer; memoryValue := mv |} in
    ret (answer, nil_error).
End PineRead64Answer.
#[export] Instance PineRead64Answer_PineAnswer :
  PineAnswer PineRead64Answer.t :=
  PineRead64Answer.fromBytes.

Module PineWrite8Request.
Record t : Type := { address : Z; data : byte }.

Definition toBytes (request : t) : M (slice * error) :=
  bytes <- make 10 ;;
  b0 <- slice_from bytes 0 ;;
  LittleEndian.PutUint32 b0 (uint32 (Z.of_nat (len bytes))) ;;
  set_index bytes 4 (byte.of_Z 4) ;;
  b5 <- slice_from bytes 5 ;;
  LittleEndian.PutUint32 b5 (address request) ;;
  set_index bytes 9 (data request) ;;
  ret (bytes, nil_error).
End PineWrite8Request.
#[export] Instance PineWrite8Request_PineRequest :
  PineRequest PineWrite8Request.t :=
  PineWrite8Request.toBytes.

Module PineWrite8Answer.
Record t : Type := { resultCode : byte }.
Definition zero : t := {| resultCode := Byte.x00 |}.

Definition fromBytes (answer : t) (bytes : slice) : M (t * error) :=
  b0 <- slice_from bytes 0 ;;
  length <- LittleEndian.Uint32 b0 ;;
  if negb (length =? 5)%Z then
    dump <- hex_Dump bytes ;;
    logger_Error "unexpected length (length != 5)"
                 [("length", LUint length); ("bytes", dump)] ;;
    ret (answer, errors_New "length of bytes for PineStatusAnswer != 5")
  else
    dump <- hex_Dump bytes ;;
    logger_Debug "answer bytes" [("bytes", dump)] ;;
    rc <- index bytes 4 ;;
    let answer := {| resultCode := rc |} in
    ret (answer, nil_error).
End PineWrite8Answer.
#[export] Instance PineWrite8Answer_PineAnswer :
  PineAnswer PineWrite8Answer.t :=
  PineWrite8Answer.fromBytes.

Module PineWrite16Request.
Record t : Type := { address : Z; data : Z }.

Definition toBytes (request : t) : M (slice * error) :=
  bytes <- make 11 ;;
  b0 <- slice_from bytes 0 ;;
  LittleEndian.PutUint32 b0 (uint32 (Z.of_nat (len bytes))) ;;
  set_index bytes 4 (byte.of_Z 5) ;;
  b5 <- slice_from bytes 5 ;;
  LittleEndian.PutUint32 b5 (address request) ;;
  b9 <- slice_from bytes 9 ;;
  LittleEndian.PutUint16 b9 (data request) ;;
  ret (bytes, nil_error).
End PineWrite16Request.
#[export] Instance PineWrite16Request_PineRequest :
  PineRequest PineWrite16Request.t :=
  PineWrite16Request.toBytes.

Module PineWrite16Answer.
Record t : Type := { resultCode : byte }.
Definition zero : t := {| resultCode := Byte.x00 |}.

Definition fromBytes (answer : t) (bytes : slice) : M (t * error) :=
  b0 <- slice_from bytes 0 ;;
  length <- LittleEndian.Uint32 b0 ;;
  if negb (length =? 5)%Z then
    dump <- hex_Dump bytes ;;
    logger_Error "unexpected length (length != 5)"
                 [("length", LUint length); ("bytes", dump)] ;;
    ret (answer, errors_New "length of bytes for PineStatusAnswer != 5")
  else
    dump <- hex_Dump bytes ;;
    logger_Debug "answer bytes" [("bytes", dump)] ;;
    rc <- index bytes 4 ;;
    let answer := {| resultCode := rc |} in
    ret (answer, nil_error).
End PineWrite16Answer.
#[export] Instance PineWrite16Answer_PineAnswer :
  PineAnswer PineWrite16Answer.t :=
  PineWrite16Answer.fromBytes.

Module PineWrite32Request.
Record t : Type := { address : Z; data : Z }.

Definition toBytes (request : t) : M (slice * error) :=
  bytes <- make 13 ;;
  b0 <- slice_from bytes 0 ;;
  LittleEndian.PutUint32 b0 (uint32 (Z.of_nat (len bytes))) ;;
  set_index bytes 4 (byte.of_Z 6) ;;
  b5 <- slice_from bytes 5 ;;
  LittleEndian.PutUint32 b5 (address request) ;;
  b9 <- slice_from bytes 9 ;;
  LittleEndian.PutUint32 b9 (data request) ;;
  ret (bytes, nil_error).
End PineWrite32Request.
#[export] Instance PineWrite32Request_PineRequest :
  PineRequest PineWrite32Request.t :=
  PineWrite32Request.toBytes.

Module PineWrite32Answer.
Record t : Type := { resultCode : byte }.
Definition zero : t := {| resultCode := Byte.x00 |}.

Definition fromBytes (answer : t) (bytes : slice) : M (t * error) :=
  b0 <- slice_from bytes 0 ;;
  length <- LittleEndian.Uint32 b0 ;;
  if negb (length =? 5)%Z then
    dump <- hex_Dump bytes ;;
    logger_Error "unexpected length (length != 5)"
                 [("length", LUint length); ("bytes", dump)] ;;
    ret (answer, errors_New "length of bytes for PineStatusAnswer != 5")
  else
    dump <- hex_Dump bytes ;;
    logger_Debug "answer bytes" [("bytes", dump)] ;;
    rc <- index bytes 4 ;;
    let answer := {| resultCode := rc |} in
    ret (answer, nil_error).
End PineWrite32Answer.
#[export] Instance PineWrite32Answer_PineAnswer :
  PineAnswer PineWrite32Answer.t :=
  PineWrite32Answer.fromBytes.

Module PineWrite64Request.
Record t : Type := { address : Z; data : Z }.

Definition toBytes (request : t) : M (slice * error) :=
  bytes <- make 17 ;;
  b0 <- slice_from bytes 0 ;;
  LittleEndian.PutUint32 b0 (uint32 (Z.of_nat (len bytes))) ;;
  set_index bytes 4 (byte.of_Z 7) ;;
  b5 <- slice_from bytes 5 ;;
  LittleEndian.PutUint32 b5 (address request) ;;
  b9 <- slice_from bytes 9 ;;
  LittleEndian.PutUint64 b9 (data request) ;;
  ret (bytes, nil_error).
End PineWrite64Request.
#[export] Instance PineWrite64Request_PineRequest :
  PineRequest PineWrite64Request.t :=
  PineWrite64Request.toBytes.

Module PineWrite64Answer.
Record t : Type := { resultCode : byte }.
Definition zero : t := {| resultCode := Byte.x00 |}.

Definition fromBytes (answer : t) (bytes : slice) : M (t * error) :=
  b0 <- slice_from bytes 0 ;;
  length <- LittleEndian.Uint32 b0 ;;
  if negb (length =? 5)%Z then
    dump <- hex_Dump bytes ;;
    logger_Error "unexpected length (length != 5)"
                 [("length", LUint length); ("bytes", dump)] ;;
    ret (answer, errors_New "length of bytes for PineStatusAnswer != 5")
  else
    dump <- hex_Dump bytes ;;
    logger_Debug "answer bytes" [("bytes", dump)] ;;
    rc <- index bytes 4 ;;
    let answer := {| resultCode := rc |} in
    ret (answer, nil_error).
End PineWrite64Answer.
#[export] Instance PineWrite64Answer_PineAnswer :
  PineAnswer PineWrite64Answer.t :=
  PineWrite64Answer.fromBytes.

Module PineVersionRequest.
Record t : Type := mk { }.

Definition toBytes (request : t) : M (slice * error) :=
  bytes <- make 5 ;;
  b0 <- slice_from bytes 0 ;;
  LittleEndian.PutUint32 b0 (uint32 (Z.of_nat (len bytes))) ;;
  set_index bytes 4 (byte.of_Z 8) ;;
  ret (bytes, nil_error).
End PineVersionRequest.
#[export] Instance PineVersionRequest_PineRequest :
  PineRequest PineVersionRequest.t :=
  PineVersionRequest.toBytes.

Module PineVersionAnswer.
Record t : Type := { resultCode : byte; version : string }.
Definition zero : t := {| resultCode := Byte.x00; version := EmptyString |}.

Definition fromBytes (answer : t) (bytes : slice) : M (t * error) :=
  b0 <- slice_from bytes 0 ;;
  length <- LittleEndian.Uint32 b0 ;;
  if (length <? 10)%Z then
    ret (answer, errors_New "bytes for PineVersionAnswer < 10")
  else
    dump <- hex_Dump bytes ;;
    logger_Debug "version string" [("bytes", dump)] ;;
    rc <- index bytes 4 ;;
    let answer := {| resultCode := rc; version := version answer |} in
    b5 <- slice_from bytes 5 ;;
    versionStringLength <- LittleEndian.Uint32 b5 ;;
    let answer := {| resultCode := resultCode answer; version := EmptyString |} in
    if (0 <? versionStringLength)%Z then
      sub <- slice_range bytes 9 (Z.to_nat (uint32 (9 + versionStringLength))) ;;
      str <- string_of_slice sub ;;
      let answer := {| resultCode := resultCode answer; version := str |} in
      let answer := {| resultCode := resultCode answer;
                       version := fst (CutSuffix (version answer) NUL) |} in
      ret (answer, nil_error)
    else
      ret (answer, nil_error).
End PineVersionAnswer.
#[export] Instance PineVersionAnswer_PineAnswer :
  PineAnswer PineVersionAnswer.t :=
  PineVersionAnswer.fromBytes.

Module PineSaveStateRequest.
Record t : Type := { slot : byte }.

Definition toBytes (request : t) : M (slice * error) :=
  bytes <- make 6 ;;
  b0 <- slice_from bytes 0 ;;
  LittleEndian.PutUint32 b0 (uint32 (Z.of_nat (len bytes))) ;;
  set_index bytes 4 (byte.of_Z 9) ;;
  set_index bytes 5 (slot request) ;;
  ret (bytes, nil_error).
End PineSaveStateRequest.
#[export] Instance PineSaveStateRequest_PineRequest :
  PineRequest PineSaveStateRequest.t :=
  PineSaveStateRequest.toBytes.

Module PineSaveStateAnswer.
Record t : Type := { resultCode : byte }.
Definition zero : t := {| resultCode := Byte.x00 |}.

Definition fromBytes (answer : t) (bytes : slice) : M (t * error) :=
  b0 <- slice_from bytes 0 ;;
  length <- LittleEndian.Uint32 b0 ;;
  if negb (length =? 5)%Z then
    dump <- hex_Dump bytes ;;
    logger_Error "unexpected length (length != 5)"
                 [("length", LUint length); ("bytes", dump)] ;;
    ret (answer, errors_New "length of bytes for PineSaveStateAnswer != 5")
  else
    dump <- hex_Dump bytes ;;
    logger_Debug "answer bytes" [("bytes", dump)] ;;
    rc <- index bytes 4 ;;
    let answer := {| resultCode := rc |} in
    ret (answer, nil_error).
End PineSaveStateAnswer.
#[export] Instance PineSaveStateAnswer_PineAnswer :
  PineAnswer PineSaveStateAnswer.t :=
  PineSaveStateAnswer.fromBytes.

Module PineLoadStateRequest.
Record t : Type := { slot : byte }.

Definition toBytes (request : t) : M (slice * error) :=
  bytes <- make 6 ;;
  b0 <- slice_from bytes 0 ;;
  LittleEndian.PutUint32 b0 (uint32 (Z.of_nat (len bytes))) ;;
  set_index bytes 4 (byte.of_Z 10) ;;
  set_index bytes 5 (slot request) ;;
  ret (bytes, nil_error).
End PineLoadStateRequest.
#[export] Instance PineLoadStateRequest_PineRequest :
  PineRequest PineLoadStateRequest.t :=
  PineLoadStateRequest.toBytes.

Module PineLoadStateAnswer.
Record t : Type := { resultCode : byte }.
Definition zero : t := {| resultCode := Byte.x00 |}.

Definition fromBytes (answer : t) (bytes : slice) : M (t * error) :=
  b0 <- slice_from bytes 0 ;;
  length <- LittleEndian.Uint32 b0 ;;
  if negb (length =? 5)%Z then
    dump <- hex_Dump bytes ;;
    logger_Error "unexpected length (length != 5)"
                 [("length", LUint length); ("bytes", dump)] ;;
    ret (answer, errors_New "length of bytes for PineLoadStateAnswer != 5")
  else
    dump <- hex_Dump bytes ;;
    logger_Debug "answer bytes" [("bytes", dump)] ;;
    rc <- index bytes 4 ;;
    let answer := {| resultCode := rc |} in
    ret (answer, nil_error).
End PineLoadStateAnswer.
#[export] Instance PineLoadStateAnswer_PineAnswer :
  PineAnswer PineLoadStateAnswer.t :=
  PineLoadStateAnswer.fromBytes.

Module PineTitleRequest.
Record t : Type := mk { }.

Definition toBytes (request : t) : M (slice * error) :=
  bytes <- make 5 ;;
  b0 <- slice_from bytes 0 ;;
  LittleEndian.PutUint32 b0 (uint32 (Z.of_nat (len bytes))) ;;
  set_index bytes 4 (byte.of_Z 11) ;;
  ret (bytes, nil_error).
End PineTitleRequest.
#[export] Instance PineTitleRequest_PineRequest :
  PineRequest PineTitleRequest.t :=
  PineTitleRequest.toBytes.

Module PineTitleAnswer.
Record t : Type := { resultCode : byte; title : string }.
Definition zero : t := {| resultCode := Byte.x00; title := EmptyString |}.

Definition fromBytes (answer : t) (bytes : slice) : M (t * error) :=
  b0 <- slice_from bytes 0 ;;
  length <- LittleEndian.Uint32 b0 ;;
  if (length <? 10)%Z then
    ret (answer, errors_New "bytes for PineVersionAnswer < 10")
  else
    dump <- hex_Dump bytes ;;
    logger_Debug "version string" [("bytes", dump)] ;;
    rc <- index bytes 4 ;;
    let answer := {| resultCode := rc; title := title answer |} in
    b5 <- slice_from bytes 5 ;;
    versionStringLength <- LittleEndian.Uint32 b5 ;;
    let answer := {| resultCode := resultCode answer; title := EmptyString |} in
    if (0 <? versionStringLength)%Z then
      sub <- slice_range bytes 9 (Z.to_nat (uint32 (9 + versionStringLength))) ;;
      str <- string_of_slice sub ;;
      let answer := {| resultCode := resultCode answer; title := str |} in
      let answer := {| resultCode := resultCode answer;
                       title := fst (CutSuffix (title answer) NUL) |} in
      ret (answer, nil_error)
    else
      ret (answer, nil_error).
End PineTitleAnswer.
#[export] Instance PineTitleAnswer_PineAnswer :
  PineAnswer PineTitleAnswer.t :=
  PineTitleAnswer.fromBytes.

Module PineIDRequest.
Record t : Type := mk { }.

Definition toBytes (request : t) : M (slice * error) :=
  bytes <- make 5 ;;
  b0 <- slice_from bytes 0 ;;
  LittleEndian.PutUint32 b0 (uint32 (Z.of_nat (len bytes))) ;;
  set_index bytes 4 (byte.of_Z 12) ;;
  ret (bytes, nil_error).
End PineIDRequest.
#[export] Instance PineIDRequest_PineRequest :
  PineRequest PineIDRequest.t :=
  PineIDRequest.toBytes.

Module PineIDAnswer.
Record t : Type := { resultCode : byte; id : string }.
Definition zero : t := {| resultCode := Byte.x00; id := EmptyString |}.

Definition fromBytes (answer : t) (bytes : slice) : M (t * error) :=
  b0 <- slice_from bytes 0 ;;
  length <- LittleEndian.Uint32 b0 ;;
  if (length <? 10)%Z then
    ret (answer, errors_New "bytes for PineVersionAnswer < 10")
  else
    dump <- hex_Dump bytes ;;
    logger_Debug "version string" [("bytes", dump)] ;;
    rc <- index bytes 4 ;;
    let answer := {| resultCode := rc; id := id answer |} in
    b5 <- slice_from bytes 5 ;;
    versionStringLength <- LittleEndian.Uint32 b5 ;;
    let answer := {| resultCode := resultCode answer; id := EmptyString |} in
    if (0 <? versionStringLength)%Z then
      sub <- slice_range bytes 9 (Z.to_nat (uint32 (9 + versionStringLength))) ;;
      str <- string_of_slice sub ;;
      let answer := {| resultCode := resultCode answer; id := str |} in
      let answer := {| resultCode := resultCode answer;
                       id := fst (CutSuffix (id answer) NUL) |} in
      ret (answer, nil_error)
    else
      ret (answer, nil_error).
End PineIDAnswer.
#[export] Instance PineIDAnswer_PineAnswer :
  PineAnswer PineIDAnswer.t :=
  PineIDAnswer.fromBytes.

Module PineUUIDRequest.
Record t : Type := mk { }.

Definition toBytes (request : t) : M (slice * error) :=
  bytes <- make 5 ;;
  b0 <- slice_from bytes 0 ;;
  LittleEndian.PutUint32 b0 (uint32 (Z.of_nat (len bytes))) ;;
  set_index bytes 4 (byte.of_Z 13) ;;
  ret (bytes, nil_error).
End PineUUIDRequest.
#[export] Instance PineUUIDRequest_PineRequest :
  PineRequest PineUUIDRequest.t :=
  PineUUIDRequest.toBytes.

Module PineUUIDAnswer.
Record t : Type := { resultCode : byte; uuid : string }.
Definition zero : t := {| resultCode := Byte.x00; uuid := EmptyString |}.

Definition fromBytes (answer : t) (bytes : slice) : M (t * error) :=
  b0 <- slice_from bytes 0 ;;
  length <- LittleEndian.Uint32 b0 ;;
  if (length <? 10)%Z then
    ret (answer, errors_New "bytes for PineVersionAnswer < 10")
  else
    dump <- hex_Dump bytes ;;
    logger_Debug "version string" [("bytes", dump)] ;;
    rc <- index bytes 4 ;;
    let answer := {| resultCode := rc; uuid := uuid answer |} in
    b5 <- slice_from bytes 5 ;;
    versionStringLength <- LittleEndian.Uint32 b5 ;;
    let answer := {| resultCode := resultCode answer; uuid := EmptyString |} in
    if (0 <? versionStringLength)%Z then
      sub <- slice_range bytes 9 (Z.to_nat (uint32 (9 + versionStringLength))) ;;
      str <- string_of_slice sub ;;
      let answer := {| resultCode := resultCode answer; uuid := str |} in
      let answer := {| resultCode := resultCode answer;
                       uuid := fst (CutSuffix (uuid answer) NUL) |} in
      ret (answer, nil_error)
    else
      ret (answer, nil_error).
End PineUUIDAnswer.
#[export] Instance PineUUIDAnswer_PineAnswer :
  PineAnswer PineUUIDAnswer.t :=
  PineUUIDAnswer.fromBytes.

Module PineGameVersionRequest.
Record t : Type := mk { }.

Definition toBytes (request : t) : M (slice * error) :=
  bytes <- make 5 ;;
  b0 <- slice_from bytes 0 ;;
  LittleEndian.PutUint32 b0 (uint32 (Z.of_nat (len bytes))) ;;
  set_index bytes 4 (byte.of_Z 14) ;;
  ret (bytes, nil_error).
End PineGameVersionRequest.
#[export] Instance PineGameVersionRequest_PineRequest :
  PineRequest PineGameVersionRequest.t :=
  PineGameVersionRequest.toBytes.

Module PineGameVersionAnswer.
Record t : Type := { resultCode : byte; gameVersion : string }.
Definition zero : t := {| resultCode := Byte.x00; gameVersion := EmptyString |}.

Definition fromBytes (answer : t) (bytes : slice) : M (t * error) :=
  b0 <- slice_from bytes 0 ;;
  length <- LittleEndian.Uint32 b0 ;;
  if (length <? 10)%Z then
    ret (answer, errors_New "bytes for PineVersionAnswer < 10")
  else
    dump <- hex_Dump bytes ;;
    logger_Debug "version string" [("bytes", dump)] ;;
    rc <- index bytes 4 ;;
    let answer := {| resultCode := rc; gameVersion := gameVersion answer |} in
    b5 <- slice_from bytes 5 ;;
    versionStringLength <- LittleEndian.Uint32 b5 ;;
    let answer := {| resultCode := resultCode answer; gameVersion := EmptyString |} in
    if (0 <? versionStringLength)%Z then
      sub <- slice_range bytes 9 (Z.to_nat (uint32 (9 + versionStringLength))) ;;
      str <- string_of_slice sub ;;
      let answer := {| resultCode := resultCode answer; gameVersion := str |} in
      let answer := {| resultCode := resultCode answer;
                       gameVersion := fst (CutSuffix (gameVersion answer) NUL) |} in
      ret (answer, nil_error)
    else
      ret (answer, nil_error).
End PineGameVersionAnswer.
#[export] Instance PineGameVersionAnswer_PineAnswer :
  PineAnswer PineGameVersionAnswer.t :=
  PineGameVersionAnswer.fromBytes.

Module PineStatusRequest.
Record t : Type := mk { }.

Definition toBytes (request : t) : M (slice * error) :=
  bytes <- make 5 ;;
  b0 <- slice_from bytes 0 ;;
  LittleEndian.PutUint32 b0 (uint32 (Z.of_nat (len bytes))) ;;
  set_index bytes 4 (byte.of_Z 15) ;;
  ret (bytes, nil_error).
End PineStatusRequest.
#[export] Instance PineStatusRequest_PineRequest :
  PineRequest PineStatusRequest.t :=
  PineStatusRequest.toBytes.

Module PineStatusAnswer.
Record t : Type := { resultCode : byte; status : Z }.
Definition zero : t := {| resultCode := Byte.x00; status := 0%Z |}.

Definition fromBytes (answer : t) (bytes : slice) : M (t * error) :=
  b0 <- slice_from bytes 0 ;;
  length <- LittleEndian.Uint32 b0 ;;
  if (negb (length =? 5) && negb (length =? 9))%Z then
    dump <- hex_Dump bytes ;;
    logger_Error "unexpected length (length != 5 && length != 9)"
                 [("length", LUint length); ("bytes", dump)] ;;
    ret (answer, errors_New "length of bytes for PineStatusAnswer != 5 or 9")
  else
    dump <- hex_Dump bytes ;;
    logger_Debug "status answer bytes" [("length", LUint length); ("bytes", dump)] ;;
    rc <- index bytes 4 ;;
    let answer := {| resultCode := rc; status := status answer |} in
    answer <- (if (length =? 9)%Z then
                 b5 <- slice_from bytes 5 ;;
                 st <- LittleEndian.Uint32 b5 ;;
                 ret {| resultCode := resultCode answer; status := st |}
               else ret answer) ;;
    logger_Debug "status answer" [("answer.status", LUint (status answer))] ;;
    ret (answer, nil_error).
End PineStatusAnswer.
#[export] Instance PineStatusAnswer_PineAnswer : PineAnswer PineStatusAnswer.t :=
  PineStatusAnswer.fromBytes.

(* ===================================================================== *)
(** * The sixteen operations, as [handlePineRequest] dispatches them *)
(* ===================================================================== *)

(** The request types [handlePineRequest] switches on. *)
Inductive RequestType : Type :=
| Read8 | Read16 | Read32 | Read64
| Write8 | Write16 | Write32 | Write64
| Version | SaveState | LoadState
| Title | ID | UUID | GameVersion | Status.

(** A request of any of the sixteen struct types. *)
Inductive Request : Type :=
| ReqRead8 (r : PineRead8Request.t)
| ReqRead16 (r : PineRead16Request.t)
| ReqRead32 (r : PineRead32Request.t)
| ReqRead64 (r : PineRead64Request.t)
| ReqWrite8 (r : PineWrite8Request.t)
| ReqWrite16 (r : PineWrite16Request.t)
| ReqWrite32 (r : PineWrite32Request.t)
| ReqWrite64 (r : PineWrite64Request.t)
| ReqVersion (r : PineVersionRequest.t)
| ReqSaveState (r : PineSaveStateRequest.t)
| ReqLoadState (r : PineLoadStateRequest.t)
| ReqTitle (r : PineTitleRequest.t)
| ReqID (r : PineIDRequest.t)
| ReqUUID (r : PineUUIDRequest.t)
| ReqGameVersion (r : PineGameVersionRequest.t)
| ReqStatus (r : PineStatusRequest.t).

(** An answer of any of the sixteen struct types. *)
Inductive Answer : Type :=
| AnsRead8 (a : PineRead8Answer.t)
| AnsRead16 (a : PineRead16Answer.t)
| AnsRead32 (a : PineRead32Answer.t)
| AnsRead64 (a : PineRead64Answer.t)
| AnsWrite8 (a : PineWrite8Answer.t)
| AnsWrite16 (a : PineWrite16Answer.t)
| AnsWrite32 (a : PineWrite32Answer.t)
| AnsWrite64 (a : PineWrite64Answer.t)
| AnsVersion (a : PineVersionAnswer.t)
| AnsSaveState (a : PineSaveStateAnswer.t)
| AnsLoadState (a : PineLoadStateAnswer.t)
| AnsTitle (a : PineTitleAnswer.t)
| AnsID (a : PineIDAnswer.t)
| AnsUUID (a : PineUUIDAnswer.t)
| AnsGameVersion (a : PineGameVersionAnswer.t)
| AnsStatus (a : PineStatusAnswer.t).

(** The second switch of [handlePineRequest]: the request's own
    [toBytes]. *)
Definition requestToBytes (request : Request) : M (slice * error) :=
  match request with
  | ReqRead8 r => toBytes r
  | ReqRead16 r => toBytes r
  | ReqRead32 r => toBytes r
  | ReqRead64 r => toBytes r
  | ReqWrite8 r => toBytes r
  | ReqWrite16 r => toBytes r
  | ReqWrite32 r => toBytes r
  | ReqWrite64 r => toBytes r
  | ReqVersion r => toBytes r
  | ReqSaveState r => toBytes r
  | ReqLoadState r => toBytes r
  | ReqTitle r => toBytes r
  | ReqID r => toBytes r
  | ReqUUID r => toBytes r
  | ReqGameVersion r => toBytes r
  | ReqStatus r => toBytes r
  end.

(** [var answer = &T{}; fromBytesErr = answer.fromBytes(answerBytes)] *)
Definition intoZero {A : Type} `{PineAnswer A} (zero : A) (wrap : A -> Answer)
    (answerBytes : slice) : M (Answer * error) :=
  r <- fromBytes zero answerBytes ;;
  ret (wrap (fst r), snd r).

(** The third switch of [handlePineRequest]: a zero answer struct of
    the type that goes with the request type, filled by its
    [fromBytes]. *)
Definition answerFromBytes (pineRequestType : RequestType) (answerBytes : slice)
    : M (Answer * error) :=
  match pineRequestType with
  | Read8 => intoZero PineRead8Answer.zero AnsRead8 answerBytes
  | Read16 => intoZero PineRead16Answer.zero AnsRead16 answerBytes
  | Read32 => intoZero PineRead32Answer.zero AnsRead32 answerBytes
  | Read64 => intoZero PineRead64Answer.zero AnsRead64 answerBytes
  | Write8 => intoZero PineWrite8Answer.zero AnsWrite8 answerBytes
  | Write16 => intoZero PineWrite16Answer.zero AnsWrite16 answerBytes
  | Write32 => intoZero PineWrite32Answer.zero AnsWrite32 answerBytes
  | Write64 => intoZero PineWrite64Answer.zero AnsWrite64 answerBytes
  | Version => intoZero PineVersionAnswer.zero AnsVersion answerBytes
  | SaveState => intoZero PineSaveStateAnswer.zero AnsSaveState answerBytes
  | LoadState => intoZero PineLoadStateAnswer.zero AnsLoadState answerBytes
  | Title => intoZero PineTitleAnswer.zero AnsTitle answerBytes
  | ID => intoZero PineIDAnswer.zero AnsID answerBytes
  | UUID => intoZero PineUUIDAnswer.zero AnsUUID answerBytes
  | GameVersion => intoZero PineGameVersionAnswer.zero AnsGameVersion answerBytes
  | Status => intoZero PineStatusAnswer.zero AnsStatus answerBytes
  end.

(** ** Running the codec *)

Definition fresh : world := {| heap := []; journal := [] |}.

(** An encoder run on a fresh heap; the bytes of the slice it returns. *)
Definition encode (request : Request) : outcome (list byte * error) :=
  match requestToBytes request fresh with
  | Done (bytes, err, w) => Done (contents bytes w, err)
  | Panic r => Panic r
  end.

(** A byte slice handed to a decoder: the [shown] bytes are its [len]
    bytes, the [spare] bytes lie behind them up to its [cap] (what
    [io.ReadAll] leaves unused in its buffer). *)
Record frame : Type := { shown : list byte; spare : list byte }.

Definition frame_world (f : frame) : world :=
  {| heap := shown f ++ spare f; journal := [] |}.

Definition frame_slice (f : frame) : slice :=
  {| ptr := 0; len := List.length (shown f);
     cap := List.length (shown f ++ spare f) |}.

(** A slice with nothing behind it. *)
Definition exact (bs : list byte) : frame := {| shown := bs; spare := [] |}.

(** What a decoder run leaves: the answer, the error and the log. *)
Definition decode (pineRequestType : RequestType) (f : frame)
    : outcome (Answer * error * list event) :=
  match answerFromBytes pineRequestType (frame_slice f) (frame_world f) with
  | Done (answer, err, w) => Done (answer, err, journal w)
  | Panic r => Panic r
  end.

(** The 32-bit little-endian integer a peer reads at the head of [bs]. *)
Definition le32 (bs : list byte) : option Z :=
  match LittleEndian.Uint32 (frame_slice (exact bs)) (frame_world (exact bs)) with
  | Done (v, _) => Some v
  | Panic _ => None
  end.

(* ===================================================================== *)
(** * Transport resolution and the connection *)
(* ===================================================================== *)

(** What the program reads from the machine it runs on: the operating
    system it was built for, the environment, what answers a dial, what
    closing a connection reports, and the code address of the iterator
    function that [maps.Keys] returns. *)
Record Host : Type := {
  GOOS : string;
  Getenv : string -> string;
  Dial : string -> string -> option Conn;
  Close : Conn -> error;
  Keys_entry : N
}.

(** [map[string]uint16]: the entries of the map literal. Go leaves the
    order of a [range] over a map unspecified, so the order of this
    list means nothing; a [range] takes its order as an argument. *)
Definition defaultSlotForTargetMap : list (string * N) :=
  [("pcsx2", 28011%N); ("rpcs3", 28012%N)].

(** [v, ok := m[k]]; the zero value when the key is absent. *)
Fixpoint map_index (m : list (string * N)) (k : string) : N * bool :=
  match m with
  | [] => (0%N, false)
  | (k', v) :: rest => if String.eqb k' k then (v, true) else map_index rest k
  end.

(** The operands [fmt.Sprintf] is given in [NewPineConnection]. *)
Inductive operand : Type :=
| OString (s : string)
| OUint (n : N)
| OFunc (entry : N).

(** [maps.Keys] of the standard library returns an [iter.Seq[string]],
    which is a function value, not a slice of the keys. *)
Definition maps_Keys (h : Host) (m : list (string * N)) : operand :=
  OFunc (Keys_entry h).

(** The verb [%v]. *)
Definition fmt_v (o : operand) : string :=
  match o with
  | OString s => s
  | OUint n => fmt_uint n
  | OFunc entry => fmt_func entry
  end.

Record PineConnection : Type := { network : string; address : string }.

Definition findSocketPath (h : Host) (target : string) (slot : N) : string :=
  let dir :=
    if String.eqb (GOOS h) "linux" && negb (String.eqb (Getenv h "XDG_RUNTIME_DIR") EmptyString)
    then Getenv h "XDG_RUNTIME_DIR"
    else if String.eqb (GOOS h) "darwin" && negb (String.eqb (Getenv h "TMPDIR") EmptyString)
    then Getenv h "TMPDIR"
    else "/tmp" in
  let file := (target ++ ".sock." ++ fmt_v (OUint slot))%string in
  (dir ++ "/" ++ file)%string.

Definition NewPineConnection (h : Host) (target : string) (slot : N)
    : option PineConnection * error :=
  let switch_GOOS (slot : N) : option PineConnection * error :=
    if String.eqb (GOOS h) "windows" then
      let address := (":" ++ fmt_v (OUint slot))%string in
      (Some {| network := "tcp"; address := address |}, nil_error)
    else if String.eqb (GOOS h) "darwin" || String.eqb (GOOS h) "linux" then
      let address := findSocketPath h target slot in
      (Some {| network := "unix"; address := address |}, nil_error)
    else
      (None, errors_New "unknown operating system when creating PineConnection") in
  if String.eqb target EmptyString then
    (None, errors_New "empty string provided for target name when creating PINE connection")
  else if (slot =? 0)%N then
    let found := map_index defaultSlotForTargetMap target in
    let slot := fst found in
    let slotFound := snd found in
    if negb slotFound then
      let targetNames := maps_Keys h defaultSlotForTargetMap in
      let errorMessage :=
        ("unknown target " ++ dquote ++ fmt_v (OString target) ++ dquote
          ++ " when finding slot for target. Supported values are "
          ++ fmt_v targetNames)%string in
      (None, errors_New errorMessage)
    else switch_GOOS slot
  else switch_GOOS slot.

(** [net.Dial] and [conn.Close], each leaving its event. *)
Definition net_Dial (h : Host) (network address : string) : M (option Conn) :=
  emit (EvDial network address) ;; ret (Dial h network address).

Definition conn_Close (h : Host) (conn : Conn) : M error :=
  emit (EvClose conn) ;; ret (Close h conn).

Definition connect (h : Host) (connection : PineConnection) : M (option Conn * error) :=
  first <- net_Dial h (network connection) (address connection) ;;
  match first with
  | Some conn => ret (Some conn, nil_error)
  | None =>
    second <-
      (if String.eqb (network connection) "unix" then
         addressWithoutSlot <-
           string_upto (address connection) (LastIndex (address connection) ".") ;;
         net_Dial h (network connection) addressWithoutSlot
       else ret None) ;;
    match second with
    | Some conn => ret (Some conn, nil_error)
    | None =>
      ret (None, errors_New ("could not connect to PINE at " ++ dquote
                               ++ address connection ++ dquote)%string)
    end
  end.

Definition TestConnection (h : Host) (connection : PineConnection) : M error :=
  r <- connect h connection ;;
  match r with
  | (_, Some err) => ret (Some err)
  | (Some conn, None) => conn_Close h conn
  | (None, None) => panic "nil pointer dereference"
  end.

(* ===================================================================== *)
(** * The probe loop of [main] *)
(* ===================================================================== *)

Definition logger_Info (msg : string) : M unit := emit (EvLog LevelInfo msg []).

Definition time_Sleep (seconds : Z) : M unit := emit (EvSleep seconds).

(** [for target, defaultSlot := range defaultSlotForTargetMap], run
    over the entries in the [order] this [range] visits them; [pc] is
    the global the loop assigns. *)
Fixpoint probeTargets (h : Host) (order : list (string * N))
    (pc : option PineConnection) : M (option PineConnection) :=
  match order with
  | [] => ret pc
  | (target, defaultSlot) :: rest =>
    logger_Info ("trying connecting to " ++ target)%string ;;
    let made := NewPineConnection h target defaultSlot in
    let pc := fst made in
    match snd made with
    | Some _ =>
      logger_Info ("failed to connect to " ++ target
                     ++ ". Continuing to next emulator target.")%string ;;
      probeTargets h rest pc
    | None =>
      match pc with
      | None => panic "nil pointer dereference"
      | Some connection =>
        err <- TestConnection h connection ;;
        match err with
        | Some _ =>
          logger_Info ("test connection for target " ++ target
                         ++ " failed. Continuing to next emulator target.")%string ;;
          probeTargets h rest None
        | None =>
          logger_Info ("test connection for target " ++ target ++ " succeeded.")%string ;;
          ret pc
        end
      end
    end
  end.

(** One turn of the outer [for]: the machine as it is during that turn
    and the order its [range] takes. *)
Record Round : Type := { host : Host; order : list (string * N) }.

(** The outer [for] of [main], over the turns given, up to the call of
    [serviceAPIRequests]. The result is the global [pc] where the run
    stops: [Some] when [main] goes on to serve requests, [None] when
    the turns given are used up and the loop is still going round. *)
Fixpoint mainLoop (rounds : list Round) (pc : option PineConnection)
    : M (option PineConnection) :=
  match rounds with
  | [] => ret pc
  | r :: later =>
    logger_Info "trying to connect to known emulators on default slots/ports" ;;
    pc <- probeTargets (host r) (order r) pc ;;
    match pc with
    | None =>
      logger_Info "could not connect to any targets. Sleeping for 5 seconds before reattempting connection" ;;
      time_Sleep 5 ;;
      mainLoop later pc
    | Some _ => ret pc
    end
  end.

(** The states of the session manager, read off the global [pc]. *)
Inductive SessionState : Type :=
| Disconnected
| Connected (connection : PineConnection).

Definition session (pc : option PineConnection) : SessionState :=
  match pc with
  | None => Disconnected
  | Some connection => Connected connection
  end.

(* ===================================================================== *)
(** * Vocabulary of the statements *)
(* ===================================================================== *)

(** ** The codec *)

(** The length test each [fromBytes] makes on the declared length: the
    lengths it lets through. *)
Definition accepts (k : RequestType) (n : Z) : bool :=
  match k with
  | Read8 => (n =? 5) || (n =? 6)
  | Read16 => (n =? 5) || (n =? 7)
  | Read32 => (n =? 5) || (n =? 9)
  | Read64 => (n =? 5) || (n =? 13)
  | Write8 | Write16 | Write32 | Write64 | SaveState | LoadState => n =? 5
  | Status => (n =? 5) || (n =? 9)
  | Version | Title | ID | UUID | GameVersion => negb (n <? 10)
  end%Z.

(** The lengths the specification lists for each operation (for the
    text answers, the least one). *)
Definition expected_lengths (k : RequestType) : list N :=
  match k with
  | Read8 => [5; 6]
  | Read16 => [5; 7]
  | Read32 => [5; 9]
  | Read64 => [5; 13]
  | Write8 | Write16 | Write32 | Write64 | SaveState | LoadState => [5]
  | Status => [5; 9]
  | Version | Title | ID | UUID | GameVersion => [10]
  end%N.

(** The answer struct [handlePineRequest] starts from. *)
Definition zeroAnswer (k : RequestType) : Answer :=
  match k with
  | Read8 => AnsRead8 PineRead8Answer.zero
  | Read16 => AnsRead16 PineRead16Answer.zero
  | Read32 => AnsRead32 PineRead32Answer.zero
  | Read64 => AnsRead64 PineRead64Answer.zero
  | Write8 => AnsWrite8 PineWrite8Answer.zero
  | Write16 => AnsWrite16 PineWrite16Answer.zero
  | Write32 => AnsWrite32 PineWrite32Answer.zero
  | Write64 => AnsWrite64 PineWrite64Answer.zero
  | Version => AnsVersion PineVersionAnswer.zero
  | SaveState => AnsSaveState PineSaveStateAnswer.zero
  | LoadState => AnsLoadState PineLoadStateAnswer.zero
  | Title => AnsTitle PineTitleAnswer.zero
  | ID => AnsID PineIDAnswer.zero
  | UUID => AnsUUID PineUUIDAnswer.zero
  | GameVersion => AnsGameVersion PineGameVersionAnswer.zero
  | Status => AnsStatus PineStatusAnswer.zero
  end.

(** The text of the error each [fromBytes] returns for a length it
    does not let through. *)
Definition rejection (k : RequestType) : string :=
  match k with
  | Read8 => "length of bytes for PineStatusAnswer != 5 or 6"
  | Read16 => "length of bytes for PineStatusAnswer != 5 or 7"
  | Read32 => "length of bytes for PineStatusAnswer != 5 or 9"
  | Read64 => "length of bytes for PineStatusAnswer != 5 or 13"
  | Write8 | Write16 | Write32 | Write64 => "length of bytes for PineStatusAnswer != 5"
  | SaveState => "length of bytes for PineSaveStateAnswer != 5"
  | LoadState => "length of bytes for PineLoadStateAnswer != 5"
  | Status => "length of bytes for PineStatusAnswer != 5 or 9"
  | Version | Title | ID | UUID | GameVersion => "bytes for PineVersionAnswer < 10"
  end.

(** The message of the log record written on such a length; the text
    answers write none. *)
Definition rejection_headline (k : RequestType) : option string :=
  match k with
  | Read8 => Some "unexpected length (length != 5 && length != 6)"
  | Read16 => Some "unexpected length (length != 5 && length != 7)"
  | Read32 | Status => Some "unexpected length (length != 5 && length != 9)"
  | Read64 => Some "unexpected length (length != 5 && length != 13)"
  | Write8 | Write16 | Write32 | Write64 | SaveState | LoadState =>
    Some "unexpected length (length != 5)"
  | Version | Title | ID | UUID | GameVersion => None
  end.

Definition rejection_log (k : RequestType) (n : Z) (raw : list byte) : list event :=
  match rejection_headline k with
  | Some headline =>
    [EvLog LevelError headline [("length", LUint n); ("bytes", HexDump raw)]]
  | None => []
  end.

Definition is_text (k : RequestType) : bool :=
  match k with
  | Version | Title | ID | UUID | GameVersion => true
  | _ => false
  end.

Definition is_read (k : RequestType) : bool :=
  match k with
  | Read8 | Read16 | Read32 | Read64 => true
  | _ => false
  end.

(** The text answer of kind [k] with these two fields. *)
Definition textAnswer (k : RequestType) (rc : byte) (s : string) : Answer :=
  match k with
  | Version => AnsVersion {| PineVersionAnswer.resultCode := rc;
                             PineVersionAnswer.version := s |}
  | Title => AnsTitle {| PineTitleAnswer.resultCode := rc; PineTitleAnswer.title := s |}
  | ID => AnsID {| PineIDAnswer.resultCode := rc; PineIDAnswer.id := s |}
  | UUID => AnsUUID {| PineUUIDAnswer.resultCode := rc; PineUUIDAnswer.uuid := s |}
  | GameVersion => AnsGameVersion {| PineGameVersionAnswer.resultCode := rc;
                                     PineGameVersionAnswer.gameVersion := s |}
  | _ => zeroAnswer k
  end.

(** [answer.resultCode], whatever the struct. *)
Definition resultCodeOf (a : Answer) : byte :=
  match a with
  | AnsRead8 a => PineRead8Answer.resultCode a
  | AnsRead16 a => PineRead16Answer.resultCode a
  | AnsRead32 a => PineRead32Answer.resultCode a
  | AnsRead64 a => PineRead64Answer.resultCode a
  | AnsWrite8 a => PineWrite8Answer.resultCode a
  | AnsWrite16 a => PineWrite16Answer.resultCode a
  | AnsWrite32 a => PineWrite32Answer.resultCode a
  | AnsWrite64 a => PineWrite64Answer.resultCode a
  | AnsVersion a => PineVersionAnswer.resultCode a
  | AnsSaveState a => PineSaveStateAnswer.resultCode a
  | AnsLoadState a => PineLoadStateAnswer.resultCode a
  | AnsTitle a => PineTitleAnswer.resultCode a
  | AnsID a => PineIDAnswer.resultCode a
  | AnsUUID a => PineUUIDAnswer.resultCode a
  | AnsGameVersion a => PineGameVersionAnswer.resultCode a
  | AnsStatus a => PineStatusAnswer.resultCode a
  end.

(** The slice really holds every field the decoder of [k] reads once
    it has let the declared length [n] through: the result code and
    the widest value for the reads, the result code for the writes and
    the state operations, the status word when [n] is 9, and for the
    text answers the string length at offsets 5 to 8 and a string that
    ends within the capacity without wrapping 32 bits. *)
Definition fields_present (k : RequestType) (f : frame) (n : Z) : bool :=
  match k with
  | Read8 => (6 <=? List.length (shown f))%nat
  | Read16 => (7 <=? List.length (shown f))%nat
  | Read32 => (9 <=? List.length (shown f))%nat
  | Read64 => (13 <=? List.length (shown f))%nat
  | Write8 | Write16 | Write32 | Write64 | SaveState | LoadState =>
    (5 <=? List.length (shown f))%nat
  | Status =>
    (5 <=? List.length (shown f))%nat &&
    (negb (n =? 9)%Z || (9 <=? List.length (shown f))%nat)
  | Version | Title | ID | UUID | GameVersion =>
    match le32 (skipn 5 (shown f)) with
    | Some v => ((9 + v <? 2 ^ 32) &&
                 (9 + v <=? Z.of_nat (List.length (shown f ++ spare f))))%Z
    | None => false
    end
  end.

(** One trailing NUL, if there is one, taken off. *)
Fixpoint strip_one_nul (s : string) : string :=
  match s with
  | EmptyString => EmptyString
  | String c rest =>
    match rest with
    | EmptyString => if Ascii.eqb c Ascii.zero then EmptyString else s
    | String _ _ => String c (strip_one_nul rest)
    end
  end.

(** Bytes written as numbers. *)
Definition bytes_of (zs : list Z) : list byte := map byte.of_Z zs.

(** ** Strings *)

(** Whether the byte [c] occurs in [s]. *)
Fixpoint has_char (c : ascii) (s : string) : bool :=
  match s with
  | EmptyString => false
  | String x rest => Ascii.eqb x c || has_char c rest
  end.

(** [strings.Contains]. *)
Fixpoint Contains (s substr : string) : bool :=
  prefix substr s ||
  match s with
  | EmptyString => false
  | String _ rest => Contains rest substr
  end.

(** An error text names every length of the list. *)
Definition names_lengths (text : string) (lengths : list N) : bool :=
  forallb (fun l => Contains text (fmt_uint l)) lengths.

(** ** Transport *)

(** The directory the specification names: the runtime-directory
    variable of the platform when it is set and not empty, else
    ["/tmp"]. *)
Definition runtime_dir (h : Host) : string :=
  let variable := if String.eqb (GOOS h) "linux" then "XDG_RUNTIME_DIR" else "TMPDIR" in
  if String.eqb (Getenv h variable) EmptyString then "/tmp" else Getenv h variable.

(** The text of the two errors that carry a name. *)
Definition could_not_connect (address : string) : string :=
  ("could not connect to PINE at " ++ dquote ++ address ++ dquote)%string.

Definition unknown_target_text (target names : string) : string :=
  ("unknown target " ++ dquote ++ target ++ dquote
    ++ " when finding slot for target. Supported values are " ++ names)%string.

(** The world after more events. *)
Definition after (w : world) (es : list event) : world :=
  {| heap := heap w; journal := journal w ++ es |}.

(** The sleeps of a journal, in order. *)
Definition sleeps (j : list event) : list Z :=
  flat_map (fun e => match e with EvSleep s => [s] | _ => [] end) j.

(** ** The probe loop *)

(** The probe of one entry, on its own: the connection [main] keeps
    when [NewPineConnection] and [TestConnection] both return no
    error. *)
Definition probe (h : Host) (entry : string * N) : option PineConnection :=
  match NewPineConnection h (fst entry) (snd entry) with
  | (Some connection, None) =>
    match TestConnection h connection fresh with
    | Done (None, _) => Some connection
    | _ => None
    end
  | _ => None
  end.

(** The first entry of [order] whose probe succeeds. *)
Fixpoint first_success (h : Host) (order : list (string * N)) : option PineConnection :=
  match order with
  | [] => None
  | entry :: rest =>
    match probe h entry with
    | Some connection => Some connection
    | None => first_success h rest
    end
  end.

(** Two machines to try things on: a Linux host where no emulator
    listens, and one where every dial is answered. *)
Definition host_down : Host :=
  {| GOOS := "linux"; Getenv := fun _ => EmptyString;
     Dial := fun _ _ => None; Close := fun _ => None; Keys_entry := 4198400%N |}.

Definition host_up : Host :=
  {| GOOS := "linux"; Getenv := fun _ => EmptyString;
     Dial := fun network address =>
               Some {| remote_network := network; remote_address := address |};
     Close := fun _ => None; Keys_entry := 4198400%N |}.

(** A Linux host with a runtime directory where only the socket
    without the slot number exists. *)
Definition host_slotless : Host :=
  {| GOOS := "linux";
     Getenv := fun name => if String.eqb name "XDG_RUNTIME_DIR"
                           then "/run/user/1000" else EmptyString;
     Dial := fun network address =>
               if String.eqb address "/run/user/1000/pcsx2.sock"
               then Some {| remote_network := network; remote_address := address |}
               else None;
     Close := fun _ => None; Keys_entry := 4198400%N |}.

(** Three turns: nothing listens during the first two, taken in the
    two orders; during the third both emulators listen and the
    [range] starts with rpcs3. *)
Definition turns_down : list Round :=
  [ {| host := host_down; order := [("pcsx2", 28011%N); ("rpcs3", 28012%N)] |};
    {| host := host_down; order := [("rpcs3", 28012%N); ("pcsx2", 28011%N)] |} ].

Definition turn_up : Round :=
  {| host := host_up; order := [("rpcs3", 28012%N); ("pcsx2", 28011%N)] |}.


(* ===================================================================== *)
(** * [api.go]: the numbers of a request *)
(* ===================================================================== *)

(** The fragment of [strings] and [strconv] that [api.go] calls. *)
Module StrConv.

(** [strings.Index]: the byte offset of the first place where [substr]
    starts in [s], or [-1]. *)
Fixpoint Index (s substr : string) : Z :=
  if prefix substr s then 0%Z
  else match s with
       | EmptyString => (-1)%Z
       | String _ rest =>
         let i := Index rest substr in
         if (i <? 0)%Z then (-1)%Z else (i + 1)%Z
       end.

(** [strings.TrimPrefix] *)
Definition TrimPrefix (s prefix_ : string) : string :=
  if prefix prefix_ s
  then substring (String.length prefix_) (String.length s - String.length prefix_) s
  else s.

(** What a [*strconv.NumError] wraps. *)
Inductive ErrKind : Type := ErrSyntax | ErrRange | ErrBase | ErrBitSize.

(** [*strconv.NumError] *)
Record NumError : Type := { Func : string; Num : string; Err : ErrKind }.

(** [strconv.IntSize] on the 64-bit platforms the Taskfile builds for. *)
Definition IntSize : Z := 64.

Definition maxUint64 : Z := (2 ^ 64 - 1)%Z.

(** [lower(c)]: [c | ('x' - 'X')] *)
Definition lower (c : Z) : Z := Z.lor c 32.

(** The value of the byte [c] as a digit, if it is a digit or a
    letter. *)
Definition digit_of (c : ascii) : option Z :=
  let c := Z.of_N (N_of_ascii c) in
  if ((48 <=? c) && (c <=? 57))%Z then Some (c - 48)%Z
  else if ((97 <=? lower c) && (lower c <=? 122))%Z then Some (lower c - 97 + 10)%Z
  else None.

(** Conversion to [uint64]: the value wraps at 64 bits. *)
Definition uint64 (z : Z) : Z := (z mod 2 ^ 64)%Z.

(** The loop of [ParseUint] over the bytes of [s]; [n] is the number
    read so far, kept in 64 bits. *)
Fixpoint scan (s0 s : string) (base cutoff maxVal n : Z) : Z * option NumError :=
  match s with
  | EmptyString => (n, None)
  | String c rest =>
    match digit_of c with
    | None => (0%Z, Some {| Func := "ParseUint"; Num := s0; Err := ErrSyntax |})
    | Some d =>
      if (base <=? d)%Z then
        (0%Z, Some {| Func := "ParseUint"; Num := s0; Err := ErrSyntax |})
      else if (cutoff <=? n)%Z then
        (maxVal, Some {| Func := "ParseUint"; Num := s0; Err := ErrRange |})
      else
        let n := uint64 (n * base) in
        let n1 := uint64 (n + d) in
        if ((n1 <? n) || (maxVal <? n1))%Z then
          (maxVal, Some {| Func := "ParseUint"; Num := s0; Err := ErrRange |})
        else scan s0 rest base cutoff maxVal n1
    end
  end.

(** [strconv.ParseUint] for an explicit base. [parseInt] passes 16 and
    10. (With base 0 Go takes the base from a prefix of the text; the
    program never asks for that, and here base 0 is refused like every
    other base outside 2 to 36.) *)
Definition ParseUint (s : string) (base bitSize : Z) : Z * option NumError :=
  if String.eqb s EmptyString then
    (0%Z, Some {| Func := "ParseUint"; Num := s; Err := ErrSyntax |})
  else if negb ((2 <=? base) && (base <=? 36))%Z then
    (0%Z, Some {| Func := "ParseUint"; Num := s; Err := ErrBase |})
  else
    let bitSize := if (bitSize =? 0)%Z then IntSize else bitSize in
    if ((bitSize <? 0) || (64 <? bitSize))%Z then
      (0%Z, Some {| Func := "ParseUint"; Num := s; Err := ErrBitSize |})
    else
      let cutoff := (maxUint64 / base + 1)%Z in
      let maxVal := uint64 (uint64 (Z.shiftl 1 bitSize) - 1) in
      scan s s base cutoff maxVal 0.


(** [strings.HasPrefix] *)
Definition HasPrefix (s prefix_ : string) : bool := prefix prefix_ s.

(** [strconv.ParseInt], for an explicit base as [ParseUint] above. *)
Definition ParseInt (s : string) (base bitSize : Z) : Z * option NumError :=
  match s with
  | EmptyString =>
    (0%Z, Some {| Func := "ParseInt"; Num := s; Err := ErrSyntax |})
  | String c rest =>
    let neg := Ascii.eqb c "-" in
    let digits := if Ascii.eqb c "+" || neg then rest else s in
    let '(un, err) := ParseUint digits base bitSize in
    let other :=
      match err with
      | Some e => match Err e with ErrRange => None | kind => Some kind end
      | None => None
      end in
    match other with
    | Some kind => (0%Z, Some {| Func := "ParseInt"; Num := s; Err := kind |})
    | None =>
      let bitSize := if (bitSize =? 0)%Z then IntSize else bitSize in
      let cutoff := uint64 (Z.shiftl 1 (bitSize - 1)) in
      if negb neg && (cutoff <=? un)%Z then
        ((cutoff - 1)%Z, Some {| Func := "ParseInt"; Num := s; Err := ErrRange |})
      else if neg && (cutoff <? un)%Z then
        ((- cutoff)%Z, Some {| Func := "ParseInt"; Num := s; Err := ErrRange |})
      else ((if neg then - un else un)%Z, None)
    end
  end.

End StrConv.

Import StrConv.


(** [parseInt] of [api.go]. *)
Definition parseInt (num : string) (bitSize : Z) : Z * option StrConv.NumError :=
  if (StrConv.Index num "0x" =? 0)%Z
  then StrConv.ParseUint (StrConv.TrimPrefix num "0x") 16 bitSize
  else StrConv.ParseUint num 10 bitSize.

(** ** What a text denotes *)

(** The number the digits of [s] write in base [base] after the
    digits that gave [n], if [s] is made of digits of that base. *)
Fixpoint number_from (base : Z) (s : string) (n : Z) : option Z :=
  match s with
  | EmptyString => Some n
  | String c rest =>
    match StrConv.digit_of c with
    | Some d => if (d <? base)%Z then number_from base rest (n * base + d) else None
    | None => None
    end
  end.

Definition number (base : Z) (s : string) : option Z :=
  match s with
  | EmptyString => None
  | String _ _ => number_from base s 0
  end.

(** The base and the digits of a text as [parseInt] takes it:
    hexadecimal after a leading ["0x"], decimal otherwise. *)
Definition literal (num : string) : Z * string :=
  match num with
  | String "0" (String "x" body) => (16%Z, body)
  | _ => (10%Z, num)
  end.


(* ===================================================================== *)
(** * [api.go]: from the parameters to the request bytes *)
(* ===================================================================== *)

(** [v, found := m[k]] on a [map[string]string]. *)
Fixpoint param_index (m : list (string * string)) (k : string) : string * bool :=
  match m with
  | [] => (EmptyString, false)
  | (k', v) :: rest => if String.eqb k' k then (v, true) else param_index rest k
  end.

(** Conversions to the narrower unsigned types. *)
Definition uint8 (z : Z) : byte := byte.of_Z z.
Definition uint16 (z : Z) : Z := (z mod 2 ^ 16)%Z.

(** The variables the first switch of [handlePineRequest] fills. *)
Module Locals.
Record t : Type := { address : Z; dataUInt64 : Z; width : Z; slot : byte }.

Definition zero : t :=
  {| address := 0; dataUInt64 := 0; width := 0; slot := Byte.x00 |}.
End Locals.

(** [case a, b, ...:] of a [switch] on a string *)
Definition is_case (s : string) (cases : list string) : bool :=
  existsb (String.eqb s) cases.

(** The first switch of [handlePineRequest]: the parameters the
    request type needs, parsed; or the message of the error it sends
    before it returns. (The calls of the logger say what goes on and
    decide nothing; they are left out of this part of the model.) *)
Definition parseParameters (pineRequestType : string)
    (pineRequestParams : list (string * string)) : string + Locals.t :=
  if is_case pineRequestType
       ["read8"; "read16"; "read32"; "read64";
        "write8"; "write16"; "write32"; "write64"] then
    let '(addressString, found) := param_index pineRequestParams "woodyaddress" in
    if negb found then
      inl ("no address provided for " ++ pineRequestType ++ " PINE request")%string
    else
      let '(addressUInt64, err) := parseInt addressString 32 in
      match err with
      | Some _ =>
        inl ("unable to parse address " ++ addressString ++ " for "
               ++ pineRequestType ++ " PINE request")%string
      | None =>
        let address := uint32 addressUInt64 in
        if StrConv.HasPrefix pineRequestType "write" then
          let '(dataString, found) := param_index pineRequestParams "woodydata" in
          if negb found then
            inl ("no data provided for " ++ pineRequestType ++ " PINE request")%string
          else
            let '(widthInt64, _) :=
              StrConv.ParseInt (StrConv.TrimPrefix pineRequestType "write") 10 8 in
            let width := widthInt64 in
            let '(dataUInt64, err) := parseInt dataString width in
            match err with
            | Some _ =>
              inl ("unable to parse data " ++ dataString ++ " for "
                     ++ pineRequestType ++ " PINE request")%string
            | None =>
              inr {| Locals.address := address; Locals.dataUInt64 := dataUInt64;
                     Locals.width := width; Locals.slot := Byte.x00 |}
            end
        else
          inr {| Locals.address := address; Locals.dataUInt64 := 0;
                 Locals.width := 0; Locals.slot := Byte.x00 |}
      end
  else if is_case pineRequestType ["savestate"; "loadstate"] then
    let '(slotString, found) := param_index pineRequestParams "woodyslot" in
    if negb found then
      inl ("no slot provided for " ++ pineRequestType ++ " PINE request")%string
    else
      let '(slotUInt64, err) := parseInt slotString 8 in
      match err with
      | Some _ =>
        inl ("unable to parse slot " ++ slotString ++ " for "
               ++ pineRequestType ++ " PINE request")%string
      | None =>
        inr {| Locals.address := 0; Locals.dataUInt64 := 0;
               Locals.width := 0; Locals.slot := uint8 slotUInt64 |}
      end
  else inr Locals.zero.

(** The struct literal each case of the second switch builds; [None]
    in its [default]. *)
Definition createRequest (pineRequestType : string) (v : Locals.t) : option Request :=
  if String.eqb pineRequestType "read8" then
    Some (ReqRead8 {| PineRead8Request.address := Locals.address v |})
  else if String.eqb pineRequestType "read16" then
    Some (ReqRead16 {| PineRead16Request.address := Locals.address v |})
  else if String.eqb pineRequestType "read32" then
    Some (ReqRead32 {| PineRead32Request.address := Locals.address v |})
  else if String.eqb pineRequestType "read64" then
    Some (ReqRead64 {| PineRead64Request.address := Locals.address v |})
  else if String.eqb pineRequestType "write8" then
    Some (ReqWrite8 {| PineWrite8Request.address := Locals.address v;
                       PineWrite8Request.data := uint8 (Locals.dataUInt64 v) |})
  else if String.eqb pineRequestType "write16" then
    Some (ReqWrite16 {| PineWrite16Request.address := Locals.address v;
                        PineWrite16Request.data := uint16 (Locals.dataUInt64 v) |})
  else if String.eqb pineRequestType "write32" then
    Some (ReqWrite32 {| PineWrite32Request.address := Locals.address v;
                        PineWrite32Request.data := uint32 (Locals.dataUInt64 v) |})
  else if String.eqb pineRequestType "write64" then
    Some (ReqWrite64 {| PineWrite64Request.address := Locals.address v;
                        PineWrite64Request.data := StrConv.uint64 (Locals.dataUInt64 v) |})
  else if String.eqb pineRequestType "version" then
    Some (ReqVersion PineVersionRequest.mk)
  else if String.eqb pineRequestType "savestate" then
    Some (ReqSaveState {| PineSaveStateRequest.slot := Locals.slot v |})
  else if String.eqb pineRequestType "loadstate" then
    Some (ReqLoadState {| PineLoadStateRequest.slot := Locals.slot v |})
  else if String.eqb pineRequestType "title" then
    Some (ReqTitle PineTitleRequest.mk)
  else if String.eqb pineRequestType "id" then
    Some (ReqID PineIDRequest.mk)
  else if String.eqb pineRequestType "uuid" then
    Some (ReqUUID PineUUIDRequest.mk)
  else if String.eqb pineRequestType "gameversion" then
    Some (ReqGameVersion PineGameVersionRequest.mk)
  else if String.eqb pineRequestType "status" then
    Some (ReqStatus PineStatusRequest.mk)
  else None.

(** Where [handlePineRequest] stands when it has the request bytes:
    it has sent an error and returned, or it goes on to
    [pc.Send(requestBytes)]. *)
Inductive Prepared : Type :=
| Refused (statusCode : Z) (errMessage : string)
| Ready (requestBytes : list byte).

(** [handlePineRequest] from its first line to the call of [pc.Send]. *)
Definition requestBytesOf (pineRequestType : string)
    (pineRequestParams : list (string * string)) : outcome Prepared :=
  match parseParameters pineRequestType pineRequestParams with
  | inl errMessage => Done (Refused 400 errMessage)
  | inr v =>
    match createRequest pineRequestType v with
    | None =>
      Done (Refused 400 ("unknown request type when creating requestBytes for "
                           ++ pineRequestType ++ " PINE request")%string)
    | Some request =>
      match encode request with
      | Panic reason => Panic reason
      | Done (_, Some _) =>
        Done (Refused 400 ("error while creating requestBytes for "
                             ++ pineRequestType ++ " PINE request")%string)
      | Done (requestBytes, None) => Done (Ready requestBytes)
      end
    end
  end.

(** ** From the answer bytes to the response *)

(** The cases of the third switch: the answer struct that goes with
    the request type; [None] in its [default]. *)
Definition answerType (pineRequestType : string) : option RequestType :=
  if String.eqb pineRequestType "read8" then Some Read8
  else if String.eqb pineRequestType "read16" then Some Read16
  else if String.eqb pineRequestType "read32" then Some Read32
  else if String.eqb pineRequestType "read64" then Some Read64
  else if String.eqb pineRequestType "write8" then Some Write8
  else if String.eqb pineRequestType "write16" then Some Write16
  else if String.eqb pineRequestType "write32" then Some Write32
  else if String.eqb pineRequestType "write64" then Some Write64
  else if String.eqb pineRequestType "version" then Some Version
  else if String.eqb pineRequestType "savestate" then Some SaveState
  else if String.eqb pineRequestType "loadstate" then Some LoadState
  else if String.eqb pineRequestType "title" then Some Title
  else if String.eqb pineRequestType "id" then Some ID
  else if String.eqb pineRequestType "uuid" then Some UUID
  else if String.eqb pineRequestType "gameversion" then Some GameVersion
  else if String.eqb pineRequestType "status" then Some Status
  else None.

(** [%v] of a [uint8] and of the wider unsigned integers. *)
Definition fmt_uint8 (b : byte) : string := fmt_uint (Z.to_N (byte.unsigned b)).
Definition fmt_uintZ (z : Z) : string := fmt_uint (Z.to_N z).

(** A quoted key and its colon, and a quoted text. *)
Definition json_key (name : string) : string := (dquote ++ name ++ dquote ++ ": ")%string.
Definition json_text (s : string) : string := (dquote ++ s ++ dquote)%string.

(** The [fmt.Sprintf] of each case of the third switch. *)
Definition jsonString (answer : Answer) : string :=
  match answer with
  | AnsRead8 a =>
    "{ " ++ json_key "resultCode" ++ fmt_uint8 (PineRead8Answer.resultCode a) ++ ", "
         ++ json_key "memoryValue" ++ fmt_uint8 (PineRead8Answer.memoryValue a) ++ " }"
  | AnsRead16 a =>
    "{ " ++ json_key "resultCode" ++ fmt_uint8 (PineRead16Answer.resultCode a) ++ ", "
         ++ json_key "memoryValue" ++ fmt_uintZ (PineRead16Answer.memoryValue a) ++ " }"
  | AnsRead32 a =>
    "{ " ++ json_key "resultCode" ++ fmt_uint8 (PineRead32Answer.resultCode a) ++ ", "
         ++ json_key "memoryValue" ++ fmt_uintZ (PineRead32Answer.memoryValue a) ++ " }"
  | AnsRead64 a =>
    "{ " ++ json_key "resultCode" ++ fmt_uint8 (PineRead64Answer.resultCode a) ++ ", "
         ++ json_key "memoryValue" ++ fmt_uintZ (PineRead64Answer.memoryValue a) ++ " }"
  | AnsWrite8 a =>
    "{ " ++ json_key "resultCode" ++ fmt_uint8 (PineWrite8Answer.resultCode a) ++ " }"
  | AnsWrite16 a =>
    "{ " ++ json_key "resultCode" ++ fmt_uint8 (PineWrite16Answer.resultCode a) ++ " }"
  | AnsWrite32 a =>
    "{ " ++ json_key "resultCode" ++ fmt_uint8 (PineWrite32Answer.resultCode a) ++ " }"
  | AnsWrite64 a =>
    "{ " ++ json_key "resultCode" ++ fmt_uint8 (PineWrite64Answer.resultCode a) ++ " }"
  | AnsVersion a =>
    "{ " ++ json_key "resultCode" ++ fmt_uint8 (PineVersionAnswer.resultCode a) ++ ", "
         ++ json_key "version" ++ json_text (PineVersionAnswer.version a) ++ " }"
  | AnsSaveState a =>
    "{ " ++ json_key "resultCode" ++ fmt_uint8 (PineSaveStateAnswer.resultCode a) ++ " }"
  | AnsLoadState a =>
    "{ " ++ json_key "resultCode" ++ fmt_uint8 (PineLoadStateAnswer.resultCode a) ++ " }"
  | AnsTitle a =>
    "{ " ++ json_key "resultCode" ++ fmt_uint8 (PineTitleAnswer.resultCode a) ++ ", "
         ++ json_key "title" ++ json_text (PineTitleAnswer.title a) ++ " }"
  | AnsID a =>
    "{ " ++ json_key "resultCode" ++ fmt_uint8 (PineIDAnswer.resultCode a) ++ ", "
         ++ json_key "id" ++ json_text (PineIDAnswer.id a) ++ " }"
  | AnsUUID a =>
    "{ " ++ json_key "resultCode" ++ fmt_uint8 (PineUUIDAnswer.resultCode a) ++ ", "
         ++ json_key "uuid" ++ json_text (PineUUIDAnswer.uuid a) ++ " }"
  | AnsGameVersion a =>
    "{ " ++ json_key "resultCode" ++ fmt_uint8 (PineGameVersionAnswer.resultCode a) ++ ", "
         ++ json_key "gameVersion" ++ json_text (PineGameVersionAnswer.gameVersion a) ++ " }"
  | AnsStatus a =>
    "{ " ++ json_key "resultCode" ++ fmt_uint8 (PineStatusAnswer.resultCode a) ++ ", "
         ++ json_key "status" ++ json_text (fmt_uintZ (PineStatusAnswer.status a)) ++ " }"
  end%string.

(** The HTTP status that goes with a result code. *)
Definition statusCodeFor (resultCode : byte) : Z :=
  if (byte.unsigned resultCode =? 0)%Z then 200
  else if (byte.unsigned resultCode =? 255)%Z then 500
  else 501.

(** What [handlePineRequest] writes to the client: an error through
    [sendHTTPError], or the answer. *)
Inductive Reply : Type :=
| ReplyError (statusCode : Z) (errMessage : string)
| ReplyAnswer (statusCode : Z) (jsonString : string).

(** [handlePineRequest]. [Send] stands for [pc.Send]: the answer
    bytes (with what [io.ReadAll] leaves behind them in its buffer)
    and the error it returns for the request bytes it is given. *)
Definition handlePineRequest (Send : list byte -> frame * error)
    (pineRequestType : string) (pineRequestParams : list (string * string))
    : outcome Reply :=
  match requestBytesOf pineRequestType pineRequestParams with
  | Panic reason => Panic reason
  | Done (Refused statusCode errMessage) => Done (ReplyError statusCode errMessage)
  | Done (Ready requestBytes) =>
    let '(answerBytes, err) := Send requestBytes in
    match err with
    | Some _ =>
      Done (ReplyError 400 ("error while sending requestBytes for "
                              ++ pineRequestType ++ " PINE request")%string)
    | None =>
      match answerType pineRequestType with
      | None =>
        Done (ReplyError 400 ("unknown request type when creating Answer struct for "
                                ++ pineRequestType ++ " PINE request")%string)
      | Some k =>
        match decode k answerBytes with
        | Panic reason => Panic reason
        | Done (_, Some _, _) =>
          Done (ReplyError 400
                  ("error while converting answerBytes to Answer struct for "
                     ++ pineRequestType ++ " PINE request")%string)
        | Done (answer, None, _) =>
          Done (ReplyAnswer (statusCodeFor (resultCodeOf answer)) (jsonString answer))
        end
      end
    end
  end.

(* ===================================================================== *)
(** * Vocabulary of the further properties *)
(* ===================================================================== *)

(** ** Requests and their bytes *)

(** The 16-bit and the 64-bit little-endian integer a peer reads at
    the head of [bs]. *)
Definition le16 (bs : list byte) : option Z :=
  match LittleEndian.Uint16 (frame_slice (exact bs)) (frame_world (exact bs)) with
  | Done (v, _) => Some v
  | Panic _ => None
  end.

Definition le64 (bs : list byte) : option Z :=
  match LittleEndian.Uint64 (frame_slice (exact bs)) (frame_world (exact bs)) with
  | Done (v, _) => Some v
  | Panic _ => None
  end.

(** The opcode of the PINE protocol that goes with a request struct,
    and the fields the struct has. *)
Definition opcode_of (r : Request) : Z :=
  match r with
  | ReqRead8 _ => 0 | ReqRead16 _ => 1 | ReqRead32 _ => 2 | ReqRead64 _ => 3
  | ReqWrite8 _ => 4 | ReqWrite16 _ => 5 | ReqWrite32 _ => 6 | ReqWrite64 _ => 7
  | ReqVersion _ => 8 | ReqSaveState _ => 9 | ReqLoadState _ => 10
  | ReqTitle _ => 11 | ReqID _ => 12 | ReqUUID _ => 13
  | ReqGameVersion _ => 14 | ReqStatus _ => 15
  end%Z.

Definition address_of (r : Request) : option Z :=
  match r with
  | ReqRead8 q => Some (PineRead8Request.address q)
  | ReqRead16 q => Some (PineRead16Request.address q)
  | ReqRead32 q => Some (PineRead32Request.address q)
  | ReqRead64 q => Some (PineRead64Request.address q)
  | ReqWrite8 q => Some (PineWrite8Request.address q)
  | ReqWrite16 q => Some (PineWrite16Request.address q)
  | ReqWrite32 q => Some (PineWrite32Request.address q)
  | ReqWrite64 q => Some (PineWrite64Request.address q)
  | _ => None
  end.

(** The width in bits and the value of the data a write carries. *)
Definition data_of (r : Request) : option (Z * Z) :=
  match r with
  | ReqWrite8 q => Some (8, byte.unsigned (PineWrite8Request.data q))
  | ReqWrite16 q => Some (16, PineWrite16Request.data q)
  | ReqWrite32 q => Some (32, PineWrite32Request.data q)
  | ReqWrite64 q => Some (64, PineWrite64Request.data q)
  | _ => None
  end%Z.

Definition slot_of (r : Request) : option byte :=
  match r with
  | ReqSaveState q => Some (PineSaveStateRequest.slot q)
  | ReqLoadState q => Some (PineLoadStateRequest.slot q)
  | _ => None
  end.

(** The fields hold values of their Go types. *)
Definition well_typed (r : Request) : Prop :=
  (forall a, address_of r = Some a -> 0 <= a < 2 ^ 32)%Z /\
  (forall w d, data_of r = Some (w, d) -> 0 <= d < 2 ^ w)%Z.

(** The little-endian integer of [width] bits at the head of [bs]. *)
Definition le_read (width : Z) (bs : list byte) : option Z :=
  if (width =? 8)%Z then option_map byte.unsigned (nth_error bs 0)
  else if (width =? 16)%Z then le16 bs
  else if (width =? 32)%Z then le32 bs
  else le64 bs.

Definition frame_length (r : Request) : nat :=
  5 + (match address_of r with Some _ => 4 | None => 0 end)
    + (match data_of r with Some (w, _) => Z.to_nat (w / 8) | None => 0 end)
    + (match slot_of r with Some _ => 1 | None => 0 end).


(** ** The transport *)

Definition supported_os (h : Host) : bool :=
  String.eqb (GOOS h) "windows" || String.eqb (GOOS h) "darwin"
  || String.eqb (GOOS h) "linux".

Definition registered (target : string) : bool :=
  snd (map_index defaultSlotForTargetMap target).

(** The connections the dials of a journal opened, and the ones its
    closes closed, in order. *)
Definition opened (h : Host) (es : list event) : list Conn :=
  flat_map (fun e => match e with
                     | EvDial network address =>
                       match Dial h network address with
                       | Some conn => [conn]
                       | None => []
                       end
                     | _ => []
                     end) es.

Definition closed (es : list event) : list Conn :=
  flat_map (fun e => match e with EvClose conn => [conn] | _ => [] end) es.

Definition dials (es : list event) : list (string * string) :=
  flat_map (fun e => match e with
                     | EvDial network address => [(network, address)]
                     | _ => []
                     end) es.


(** Two more machines: a Windows host where nothing listens, and a
    host of a system the program knows no transport for. *)
Definition host_windows : Host :=
  {| GOOS := "windows"; Getenv := fun _ => EmptyString;
     Dial := fun _ _ => None; Close := fun _ => None; Keys_entry := 4198400%N |}.

Definition host_elsewhere : Host :=
  {| GOOS := "freebsd"; Getenv := fun _ => EmptyString;
     Dial := fun network address =>
               Some {| remote_network := network; remote_address := address |};
     Close := fun _ => None; Keys_entry := 4198400%N |}.

(** ** The parameters of a request *)

(** The request type [handlePineRequest] builds each struct for. *)
Definition request_name (r : Request) : string :=
  match r with
  | ReqRead8 _ => "read8" | ReqRead16 _ => "read16"
  | ReqRead32 _ => "read32" | ReqRead64 _ => "read64"
  | ReqWrite8 _ => "write8" | ReqWrite16 _ => "write16"
  | ReqWrite32 _ => "write32" | ReqWrite64 _ => "write64"
  | ReqVersion _ => "version" | ReqSaveState _ => "savestate"
  | ReqLoadState _ => "loadstate" | ReqTitle _ => "title"
  | ReqID _ => "id" | ReqUUID _ => "uuid"
  | ReqGameVersion _ => "gameversion" | ReqStatus _ => "status"
  end.

(** The text [text] writes the number [v], and [v] fits [bits] bits. *)
Definition denotes (text : string) (bits v : Z) : Prop :=
  number (fst (literal text)) (snd (literal text)) = Some v /\ (0 <= v < 2 ^ bits)%Z.

(** The request [r] is the one the parameters ask for: it has the
    type named, and each field it has is the number its parameter
    writes. *)
Definition asked (pineRequestType : string) (pineRequestParams : list (string * string))
    (r : Request) : Prop :=
  request_name r = pineRequestType /\
  (forall a, address_of r = Some a ->
             denotes (fst (param_index pineRequestParams "woodyaddress")) 32 a) /\
  (forall w d, data_of r = Some (w, d) ->
               denotes (fst (param_index pineRequestParams "woodydata")) w d) /\
  (forall s, slot_of r = Some s ->
             denotes (fst (param_index pineRequestParams "woodyslot")) 8 (byte.unsigned s)).

(** The sixteen request types. *)
Definition request_types : list string :=
  ["read8"; "read16"; "read32"; "read64"; "write8"; "write16"; "write32"; "write64";
   "version"; "savestate"; "loadstate"; "title"; "id"; "uuid"; "gameversion"; "status"].

(* ===================================================================== *)
(** * Facts about the codec *)
(* ===================================================================== *)

Lemma Some_eq {A : Type} (a b : A) : Some a = Some b -> a = b.
Proof. congruence. Qed.

(** Symbolic runs: everything is computed except the arithmetic on the
    bytes read, which stays as the decoder wrote it. *)
Ltac run :=
  cbv -[Z.lor Z.shiftl byte.unsigned Z.eqb Z.ltb Z.leb Z.to_nat Z.of_nat Z.add
        Z.modulo Z.pow uint32 string_of_list_byte CutSuffix firstn skipn NUL].

Tactic Notation "run" "in" hyp(H) :=
  cbv -[Z.lor Z.shiftl byte.unsigned Z.eqb Z.ltb Z.leb Z.to_nat Z.of_nat Z.add
        Z.modulo Z.pow uint32 string_of_list_byte CutSuffix firstn skipn NUL] in H.

(** One more byte of [bs], when [H] cannot hold of the empty list. *)
Ltac peel bs H := destruct bs as [|?b bs]; [cbv in H; discriminate H|].

Ltac split_tests :=
  repeat match goal with
  | H : context [Z.eqb ?a ?b] |- _ => destruct (Z.eqb a b); try discriminate H
  | H : context [Z.ltb ?a ?b] |- _ => destruct (Z.ltb a b); try discriminate H
  end.

Ltac settle_tests :=
  repeat match goal with
  | H : Z.eqb ?a ?b = _ |- context [Z.eqb ?a ?b] => rewrite H
  | |- context [Z.eqb ?a ?b] => destruct (Z.eqb a b) eqn:?
  end.

Ltac finish_accept Hk :=
  run; settle_tests; try (cbv in Hk; discriminate Hk);
  run; eexists; eexists; split; reflexivity.

Lemma contents_frame (f : frame) :
  contents (frame_slice f) (frame_world f) = shown f.
Proof.
  unfold contents, frame_slice, frame_world. cbn [ptr len heap skipn].
  rewrite firstn_app, Nat.sub_diag, firstn_all. cbn. apply app_nil_r.
Qed.

Lemma le32_nonneg (bs : list byte) (v : Z) : le32 bs = Some v -> (0 <= v)%Z.
Proof.
  intros H. do 4 peel bs H. run in H. apply Some_eq in H. subst v.
  repeat (apply Z.lor_nonneg; split); try apply Z.shiftl_nonneg;
    apply byte.unsigned_range.
Qed.

Lemma le32_length (bs : list byte) (v : Z) :
  le32 bs = Some v -> 4 <= List.length bs.
Proof. intros H. do 4 peel bs H. cbn. lia. Qed.

(** Fewer than four bytes: the read of the length prefix panics. *)
Lemma decode_short (k : RequestType) (f : frame) :
  List.length (shown f) < 4 -> decode k f = Panic "index out of range".
Proof.
  destruct f as [bs sp]. cbn [shown]. intros H.
  destruct bs as [|b0 [|b1 [|b2 [|b3 rest]]]]; try (cbn in H; lia);
    destruct k; reflexivity.
Qed.

(** A declared length the decoder does not let through. *)
Lemma decode_rejects (k : RequestType) (f : frame) (n : Z) :
  le32 (shown f) = Some n -> accepts k n = false ->
  decode k f = Done (zeroAnswer k, Some (rejection k), rejection_log k n (shown f)).
Proof.
  intros Hn Hk. rewrite <- (contents_frame f).
  destruct f as [bs sp]. cbn [shown] in Hn.
  do 4 peel bs Hn. run in Hn. apply Some_eq in Hn. subst n.
  destruct k; run in Hk; run; split_tests; reflexivity.
Qed.

(** A declared length let through, for the answers that carry numbers. *)
Lemma decode_accepts_binary (k : RequestType) (f : frame) (n : Z) :
  is_text k = false ->
  le32 (shown f) = Some n -> accepts k n = true -> fields_present k f n = true ->
  exists answer log, decode k f = Done (answer, nil_error, log) /\
                     resultCodeOf answer = nth 4 (shown f) Byte.x00.
Proof.
  destruct f as [bs sp]. intros Ht Hn Hk Hp.
  unfold fields_present in Hp. cbn [shown spare] in *.
  destruct k; try discriminate Ht; run in Hk.
  - do 6 peel bs Hp. run in Hn. apply Some_eq in Hn. run. rewrite Hn. finish_accept Hk.
  - do 7 peel bs Hp. run in Hn. apply Some_eq in Hn. run. rewrite Hn. finish_accept Hk.
  - do 9 peel bs Hp. run in Hn. apply Some_eq in Hn. run. rewrite Hn. finish_accept Hk.
  - do 13 peel bs Hp. run in Hn. apply Some_eq in Hn. run. rewrite Hn. finish_accept Hk.
  - do 5 peel bs Hp. run in Hn. apply Some_eq in Hn. run. rewrite Hn. finish_accept Hk.
  - do 5 peel bs Hp. run in Hn. apply Some_eq in Hn. run. rewrite Hn. finish_accept Hk.
  - do 5 peel bs Hp. run in Hn. apply Some_eq in Hn. run. rewrite Hn. finish_accept Hk.
  - do 5 peel bs Hp. run in Hn. apply Some_eq in Hn. run. rewrite Hn. finish_accept Hk.
  - do 5 peel bs Hp. run in Hn. apply Some_eq in Hn. run. rewrite Hn. finish_accept Hk.
  - do 5 peel bs Hp. run in Hn. apply Some_eq in Hn. run. rewrite Hn. finish_accept Hk.
  - do 5 peel bs Hp. run in Hn. apply Some_eq in Hn.
    destruct (n =? 9)%Z eqn:E9.
    + do 4 peel bs Hp. run. rewrite Hn. finish_accept Hk.
    + run. rewrite Hn. finish_accept Hk.
Qed.

(** A declared length let through, for the answers that carry text. *)
Lemma text_decode (k : RequestType) (f : frame) (n v : Z) :
  is_text k = true ->
  le32 (shown f) = Some n -> (10 <= n)%Z ->
  le32 (skipn 5 (shown f)) = Some v ->
  (9 + v < 2 ^ 32)%Z -> (9 + v <= Z.of_nat (List.length (shown f ++ spare f)))%Z ->
  decode k f =
  Done (textAnswer k (nth 4 (shown f) Byte.x00)
          (if (0 <? v)%Z
           then fst (CutSuffix (string_of_list_byte
                       (firstn (Z.to_nat v) (skipn 9 (shown f ++ spare f)))) NUL)
           else EmptyString),
        nil_error,
        [EvLog LevelDebug "version string" [("bytes", HexDump (shown f))]]).
Proof.
  intros Hk Hn Hten Hv Hwrap Hcap. rewrite <- (contents_frame f) at 3.
  destruct f as [bs sp]. cbn [shown spare] in *.
  pose proof (le32_nonneg _ _ Hv) as Hpos.
  do 9 peel bs Hv. cbn [skipn] in Hv.
  run in Hn. apply Some_eq in Hn. run in Hv. apply Some_eq in Hv.
  assert (Hlo : (n <? 10)%Z = false) by (apply Z.ltb_ge; lia).
  assert (Hhi : Z.to_nat (uint32 (9 + v)) = (9 + Z.to_nat v)%nat).
  { unfold uint32. rewrite Z.mod_small by lia. lia. }
  assert (Hfit : (Z.to_nat v <=? List.length (bs ++ sp))%nat = true).
  { apply Nat.leb_le. cbn [List.length app] in Hcap. lia. }
  remember (Z.to_nat v) as m eqn:Hm. clear Hm Hcap.
  run in Hfit.
  destruct k; try discriminate Hk; run; rewrite Hn, Hlo, Hv;
    destruct (0 <? v)%Z; try reflexivity;
    rewrite Hhi; run; rewrite Hfit; destruct m; reflexivity.
Qed.

(** [strings.CutSuffix] with the NUL string takes one trailing NUL off. *)
Lemma CutSuffix_NUL (s : string) : fst (CutSuffix s NUL) = strip_one_nul s.
Proof.
  induction s as [|c rest IH]; [reflexivity|].
  destruct rest as [|d r].
  - unfold CutSuffix, HasSuffix, NUL. cbn [String.length Nat.leb Nat.sub substring andb].
    cbn [String.eqb strip_one_nul].
    destruct (Ascii.eqb c Ascii.zero); reflexivity.
  - revert IH. unfold CutSuffix, HasSuffix, NUL.
    cbn [String.length Nat.leb Nat.sub andb strip_one_nul].
    rewrite !Nat.sub_0_r.
    change (substring (S (String.length r)) 1 (String c (String d r)))
      with (substring (String.length r) 1 (String d r)).
    destruct (String.eqb (substring (String.length r) 1 (String d r))
                         (String Ascii.zero EmptyString)).
    + cbn [fst]. intros IH.
      change (substring 0 (S (String.length r)) (String c (String d r)))
        with (String c (substring 0 (String.length r) (String d r))).
      now rewrite IH.
    + cbn [fst]. intros IH. now rewrite <- IH.
Qed.

(** The text a text answer carries. *)
Lemma text_decode_stripped (k : RequestType) (f : frame) (n v : Z) :
  is_text k = true ->
  le32 (shown f) = Some n -> (10 <= n)%Z ->
  le32 (skipn 5 (shown f)) = Some v ->
  (9 + v < 2 ^ 32)%Z -> (9 + v <= Z.of_nat (List.length (shown f ++ spare f)))%Z ->
  decode k f =
  Done (textAnswer k (nth 4 (shown f) Byte.x00)
          (strip_one_nul (string_of_list_byte
             (firstn (Z.to_nat v) (skipn 9 (shown f ++ spare f))))),
        nil_error,
        [EvLog LevelDebug "version string" [("bytes", HexDump (shown f))]]).
Proof.
  intros Hk Hn Hten Hv Hwrap Hcap.
  rewrite (text_decode k f n v) by assumption.
  pose proof (le32_nonneg _ _ Hv) as Hpos.
  destruct (0 <? v)%Z eqn:E.
  - now rewrite CutSuffix_NUL.
  - apply Z.ltb_ge in E. replace v with 0%Z by lia. reflexivity.
Qed.

(* ===================================================================== *)
(** * Encoding: what the specification says *)
(* ===================================================================== *)

(** C9. Encoding a read-32 request at address 0x35459C gives exactly
    the nine bytes 09 00 00 00 02 9C 45 35 00: the length 9 in little
    endian, the opcode 2, the address in little endian. *)
Theorem read32_request_bytes :
  encode (ReqRead32 {| PineRead32Request.address := 0x35459C |})
  = Done (bytes_of [0x09; 0x00; 0x00; 0x00; 0x02; 0x9C; 0x45; 0x35; 0x00]%Z, nil_error).
Proof. vm_compute. reflexivity. Qed.

(** C3. For each of the sixteen request structs and every value of its
    fields, [toBytes] returns a nil error, and the first four bytes it
    wrote, read as a little-endian 32-bit integer, are the number of
    bytes it wrote. *)
Theorem encode_length_prefix (request : Request) :
  exists bytes, encode request = Done (bytes, nil_error) /\
                le32 (firstn 4 bytes) = Some (Z.of_nat (List.length bytes)).
Proof.
  destruct request as [[a]|[a]|[a]|[a]|[a d]|[a d]|[a d]|[a d]|[]|[s]|[s]|[]|[]|[]|[]|[]];
    (eexists; split;
     [ cbv -[byte.of_Z Z.shiftr byte.unsigned]; reflexivity
     | vm_compute; reflexivity ]).
Qed.

(** The opcodes are 0 to 15, in the order of the request types. *)
Example opcodes :
  map (fun request => match encode request with
                      | Done (bytes, _) => nth 4 bytes Byte.xff
                      | Panic _ => Byte.xff
                      end)
      [ReqRead8 {| PineRead8Request.address := 0 |};
       ReqRead16 {| PineRead16Request.address := 0 |};
       ReqRead32 {| PineRead32Request.address := 0 |};
       ReqRead64 {| PineRead64Request.address := 0 |};
       ReqWrite8 {| PineWrite8Request.address := 0; PineWrite8Request.data := Byte.x00 |};
       ReqWrite16 {| PineWrite16Request.address := 0; PineWrite16Request.data := 0 |};
       ReqWrite32 {| PineWrite32Request.address := 0; PineWrite32Request.data := 0 |};
       ReqWrite64 {| PineWrite64Request.address := 0; PineWrite64Request.data := 0 |};
       ReqVersion PineVersionRequest.mk;
       ReqSaveState {| PineSaveStateRequest.slot := Byte.x01 |};
       ReqLoadState {| PineLoadStateRequest.slot := Byte.x01 |};
       ReqTitle PineTitleRequest.mk; ReqID PineIDRequest.mk;
       ReqUUID PineUUIDRequest.mk; ReqGameVersion PineGameVersionRequest.mk;
       ReqStatus PineStatusRequest.mk]
  = bytes_of [0; 1; 2; 3; 4; 5; 6; 7; 8; 9; 10; 11; 12; 13; 14; 15]%Z.
Proof. vm_compute. reflexivity. Qed.

(* ===================================================================== *)
(** * Decoding: what the specification says *)
(* ===================================================================== *)

(** Scenario 2 of the specification: the six bytes 06 00 00 00 00 45
    decode, as a read-8 answer, to result code 0 and value 0x45. *)
Example read8_answer_scenario :
  decode Read8 (exact (bytes_of [6; 0; 0; 0; 0; 0x45]%Z))
  = Done (AnsRead8 {| PineRead8Answer.resultCode := Byte.x00;
                      PineRead8Answer.memoryValue := Byte.x45 |},
          nil_error,
          [EvLog LevelDebug "answer bytes"
             [("bytes", HexDump (bytes_of [6; 0; 0; 0; 0; 0x45]%Z))]]).
Proof. vm_compute. reflexivity. Qed.

(** C2, where the code departs from it. The five bytes 05 00 00 00 FF
    are the failure answer of a read: the declared length 5 is in the
    accepted set of every read, and each read decoder lets it through,
    then reads the value at offset 5 all the same and panics, whatever
    capacity lies behind the five bytes. The status decoder, which
    reads its value only when the length is 9, decodes the same bytes
    to result code 255. *)
Theorem read_failure_frame_panics (behind : list byte) :
  let failure := {| shown := bytes_of [5; 0; 0; 0; 255]%Z; spare := behind |} in
  le32 (shown failure) = Some 5%Z /\
  accepts Read8 5 = true /\ decode Read8 failure = Panic "index out of range" /\
  accepts Read16 5 = true /\ decode Read16 failure = Panic "index out of range" /\
  accepts Read32 5 = true /\ decode Read32 failure = Panic "index out of range" /\
  accepts Read64 5 = true /\ decode Read64 failure = Panic "index out of range" /\
  decode Status failure
  = Done (AnsStatus {| PineStatusAnswer.resultCode := Byte.xff;
                       PineStatusAnswer.status := 0 |},
          nil_error,
          [EvLog LevelDebug "status answer bytes"
             [("length", LUint 5); ("bytes", HexDump (bytes_of [5; 0; 0; 0; 255]%Z))];
           EvLog LevelDebug "status answer" [("answer.status", LUint 0)]]).
Proof. cbv zeta. repeat split. Qed.

(** The writes and the state operations do what C2 says on frames that
    hold their five bytes: decoding returns a nil error exactly when
    the declared length is 5. *)
Lemma fixed_answer_iff (k : RequestType) (f : frame) (n : Z) :
  is_read k = false -> is_text k = false -> k <> Status ->
  le32 (shown f) = Some n -> 5 <= List.length (shown f) ->
  (exists answer log, decode k f = Done (answer, nil_error, log)) <-> n = 5%Z.
Proof.
  intros Hr Ht Hs Hn Hlen. split.
  - intros (a & log & H). destruct (accepts k n) eqn:Hk.
    + destruct k; try discriminate Hr; try discriminate Ht; try congruence;
        cbn [accepts] in Hk; now apply Z.eqb_eq.
    + rewrite (decode_rejects k f n Hn Hk) in H. discriminate H.
  - intros ->. 
    assert (Hk : accepts k 5 = true)
      by (destruct k; try discriminate Hr; try discriminate Ht; try congruence; reflexivity).
    assert (Hp : fields_present k f 5 = true).
    { apply Nat.leb_le in Hlen.
      destruct k; try discriminate Hr; try discriminate Ht; try congruence; exact Hlen. }
    destruct (decode_accepts_binary k f 5 Ht Hn Hk Hp) as (a & log & H & _).
    now exists a, log.
Qed.

(** C4. For each of the five text answers: a declared length under 10
    is refused with an error; with a declared length of 10 or more the
    text is the bytes from offset 9 up to 9 plus the little-endian
    32-bit string length found at offset 5, with one trailing NUL, if
    there is one, taken off; a string length of zero gives the empty
    text; and the thirteen-byte version answer with string length 4
    and string bytes "1.2" NUL decodes to version "1.2". *)
Theorem text_answer_decoding (k : RequestType) (f : frame) (n : Z) :
  is_text k = true -> le32 (shown f) = Some n ->
  ((n < 10)%Z -> decode k f = Done (zeroAnswer k, Some (rejection k), [])) /\
  (forall v, (10 <= n)%Z -> le32 (skipn 5 (shown f)) = Some v ->
     (9 + v < 2 ^ 32)%Z -> (9 + v <= Z.of_nat (List.length (shown f ++ spare f)))%Z ->
     let text := strip_one_nul (string_of_list_byte
                   (firstn (Z.to_nat v) (skipn 9 (shown f ++ spare f)))) in
     decode k f
     = Done (textAnswer k (nth 4 (shown f) Byte.x00) text, nil_error,
             [EvLog LevelDebug "version string" [("bytes", HexDump (shown f))]]) /\
     (v = 0%Z -> text = EmptyString)) /\
  decode Version (exact (bytes_of [13; 0; 0; 0; 0; 4; 0; 0; 0; 49; 46; 50; 0]%Z))
  = Done (AnsVersion {| PineVersionAnswer.resultCode := Byte.x00;
                        PineVersionAnswer.version := "1.2" |},
          nil_error,
          [EvLog LevelDebug "version string"
             [("bytes", HexDump (bytes_of [13; 0; 0; 0; 0; 4; 0; 0; 0; 49; 46; 50; 0]%Z))]]).
Proof.
  intros Hk Hn. split; [|split].
  - intros Hlt.
    assert (Ha : accepts k n = false).
    { destruct k; try discriminate Hk; cbn [accepts];
        apply negb_false_iff, Z.ltb_lt; exact Hlt. }
    rewrite (decode_rejects k f n Hn Ha).
    destruct k; try discriminate Hk; reflexivity.
  - intros v Hten Hv Hwrap Hcap text. split.
    + now apply (text_decode_stripped k f n v).
    + intros ->. reflexivity.
  - vm_compute. reflexivity.
Qed.

(** Scenario 3 of the specification, through the theorem. *)
Lemma text_answer_decoding_witness :
  let f := exact (bytes_of [13; 0; 0; 0; 0; 4; 0; 0; 0; 49; 46; 50; 0]%Z) in
  is_text Version = true /\ le32 (shown f) = Some 13%Z /\
  (10 <= 13)%Z /\ le32 (skipn 5 (shown f)) = Some 4%Z /\
  (9 + 4 < 2 ^ 32)%Z /\ (9 + 4 <= Z.of_nat (List.length (shown f ++ spare f)))%Z /\
  decode Version f
  = Done (textAnswer Version Byte.x00 "1.2", nil_error,
          [EvLog LevelDebug "version string" [("bytes", HexDump (shown f))]]).
Proof.
  cbv zeta. split; [reflexivity|]. split; [reflexivity|]. split; [lia|].
  split; [reflexivity|]. split; [lia|]. split; [cbn; lia|].
  apply (proj1 (proj1 (proj2 (text_answer_decoding Version
           (exact (bytes_of [13; 0; 0; 0; 0; 4; 0; 0; 0; 49; 46; 50; 0]%Z)) 13%Z
           eq_refl eq_refl)) 4%Z ltac:(lia) eq_refl ltac:(lia) ltac:(cbn; lia))).
Defined.

(** C7, as the specification states it, fails: were the offending
    bytes part of the error value, they could be read back from it;
    but a read-8 answer declaring length 7 is refused with the same
    error value whatever bytes it is made of. *)
Lemma rejection_error_hides_raw_bytes :
  ~ exists raw_of : string -> list byte,
      forall k f answer msg log,
        decode k f = Done (answer, Some msg, log) -> raw_of msg = shown f.
Proof.
  intros [raw_of H].
  pose proof (H Read8 (exact (bytes_of [7; 0; 0; 0]%Z)) _ _ _
                (decode_rejects Read8 (exact (bytes_of [7; 0; 0; 0]%Z)) 7%Z
                   eq_refl eq_refl)) as Ha.
  pose proof (H Read8 (exact (bytes_of [7; 0; 0; 0; 1]%Z)) _ _ _
                (decode_rejects Read8 (exact (bytes_of [7; 0; 0; 0; 1]%Z)) 7%Z
                   eq_refl eq_refl)) as Hb.
  rewrite Ha in Hb. discriminate Hb.
Qed.

(** C7, amended. For every answer frame of four bytes or more whose
    declared length is outside the accepted set of the operation, the
    error value returned is a fixed text for the operation, which
    names the expected lengths and holds nothing of the frame. The
    offending bytes go to the log, not into the error: the reads, the
    writes, the state operations and status write one error record
    with the declared length and the dump of the bytes; the five text
    decoders write nothing. *)
Theorem rejection_error_and_log (k : RequestType) (f : frame) (n : Z) :
  le32 (shown f) = Some n -> accepts k n = false ->
  decode k f = Done (zeroAnswer k, Some (rejection k), rejection_log k n (shown f)) /\
  names_lengths (rejection k) (expected_lengths k) = true /\
  (forall l, In l (expected_lengths k) -> accepts k (Z.of_N l) = true) /\
  (is_text k = false ->
   exists headline,
     rejection_log k n (shown f)
     = [EvLog LevelError headline [("length", LUint n); ("bytes", HexDump (shown f))]]) /\
  (is_text k = true -> rejection_log k n (shown f) = []).
Proof.
  intros Hn Hk. split; [exact (decode_rejects k f n Hn Hk)|].
  split; [destruct k; reflexivity|]. split; [|split].
  - intros l Hl. destruct k; cbn [expected_lengths In] in Hl;
      repeat (destruct Hl as [<-|Hl]; [reflexivity|]); contradiction.
  - intros Ht. destruct k; try discriminate Ht; eexists; reflexivity.
  - intros Ht. destruct k; try discriminate Ht; reflexivity.
Qed.

(** A read-8 answer that declares length 7. *)
Lemma rejection_error_and_log_witness :
  let f := exact (bytes_of [7; 0; 0; 0; 0; 0; 0]%Z) in
  le32 (shown f) = Some 7%Z /\ accepts Read8 7 = false /\
  decode Read8 f
  = Done (zeroAnswer Read8, Some "length of bytes for PineStatusAnswer != 5 or 6",
          [EvLog LevelError "unexpected length (length != 5 && length != 6)"
             [("length", LUint 7); ("bytes", HexDump (shown f))]]).
Proof.
  cbv zeta. split; [reflexivity|]. split; [reflexivity|].
  apply (proj1 (rejection_error_and_log Read8
           (exact (bytes_of [7; 0; 0; 0; 0; 0; 0]%Z)) 7%Z eq_refl eq_refl)).
Defined.

(* ===================================================================== *)
(** * Facts about strings *)
(* ===================================================================== *)

Lemma append_assoc (a b c : string) : ((a ++ b) ++ c = a ++ (b ++ c))%string.
Proof. induction a as [|x a IH]; cbn; [reflexivity | now rewrite IH]. Qed.

Lemma length_append (a b : string) :
  String.length (a ++ b) = String.length a + String.length b.
Proof. induction a as [|x a IH]; cbn; [reflexivity | now rewrite IH]. Qed.

Lemma substring_head (a b : string) :
  substring 0 (String.length a) (a ++ b) = a.
Proof.
  induction a as [|x a IH]; cbn.
  - destruct b; reflexivity.
  - now rewrite IH.
Qed.

Lemma prefix_single (c : ascii) (s : string) :
  prefix (String c EmptyString) s =
  match s with
  | EmptyString => false
  | String x _ => Ascii.eqb x c
  end.
Proof.
  destruct s as [|x s]; cbn; [reflexivity|].
  destruct (ascii_dec c x) as [->|Hne].
  - rewrite Ascii.eqb_refl. destruct s; reflexivity.
  - symmetry. apply Ascii.eqb_neq. congruence.
Qed.

Lemma LastIndex_from_absent (c : ascii) (s : string) (i best : Z) :
  has_char c s = false ->
  LastIndex_from s (String c EmptyString) i best = best.
Proof.
  revert i best. induction s as [|x s IH]; intros i best H.
  - reflexivity.
  - cbn [has_char] in H. apply orb_false_iff in H as [Hx Hs].
    cbn [LastIndex_from]. rewrite prefix_single, Hx. now apply IH.
Qed.

Lemma LastIndex_from_last (c : ascii) (a d : string) (i best : Z) :
  has_char c d = false ->
  LastIndex_from (a ++ String c d) (String c EmptyString) i best
  = (i + Z.of_nat (String.length a))%Z.
Proof.
  intros Hd. revert i best. induction a as [|x a IH]; intros i best.
  - cbn [append LastIndex_from String.length]. rewrite prefix_single, Ascii.eqb_refl.
    rewrite LastIndex_from_absent by assumption. lia.
  - cbn [append LastIndex_from String.length]. rewrite IH. lia.
Qed.

(** The last dot of a string that ends in a dot and dot-free text is
    that dot. *)
Lemma LastIndex_last (c : ascii) (a d : string) :
  has_char c d = false ->
  LastIndex (a ++ String c d) (String c EmptyString) = Z.of_nat (String.length a).
Proof. intros H. unfold LastIndex. now rewrite LastIndex_from_last. Qed.

Lemma decimal_digits_no_dot (d : Decimal.uint) :
  has_char "." (DecimalString.NilEmpty.string_of_uint d) = false.
Proof. induction d; cbn; auto. Qed.

Lemma fmt_uint_no_dot (n : N) : has_char "." (fmt_uint n) = false.
Proof. apply decimal_digits_no_dot. Qed.

Lemma prefix_needs_head (c : ascii) (needle s : string) :
  has_char c s = false -> prefix (String c needle) s = false.
Proof.
  destruct s as [|x s]; [reflexivity|]. cbn [has_char prefix]. intros H.
  apply orb_false_iff in H as [Hx _].
  destruct (ascii_dec c x) as [->|]; [|reflexivity].
  now rewrite Ascii.eqb_refl in Hx.
Qed.

Lemma Contains_needs_head (c : ascii) (needle s : string) :
  has_char c s = false -> Contains s (String c needle) = false.
Proof.
  induction s as [|x s IH]; intros H.
  - reflexivity.
  - cbn [Contains]. rewrite prefix_needs_head by assumption.
    cbn [has_char] in H. apply orb_false_iff in H as [_ Hs]. now apply IH.
Qed.

Lemma hex_digits_only (c : ascii) (d : Hexadecimal.uint) :
  has_char c "0123456789abcdef" = false ->
  has_char c (HexadecimalString.NilEmpty.string_of_uint d) = false.
Proof.
  cbn [has_char]. intros H. repeat (apply orb_false_iff in H as [? H]).
  induction d; cbn [HexadecimalString.NilEmpty.string_of_uint has_char];
    rewrite ?IHd; auto using orb_false_iff.
  all: try (rewrite orb_false_r; assumption).
Qed.

(** What [%v] prints for a function value holds no byte outside
    ["<nil>"], ["0x"] and the hexadecimal digits. *)
Lemma fmt_func_names_nothing (entry : N) (c : ascii) (rest : string) :
  has_char c "<nil>0123456789abcdefx" = false ->
  Contains (fmt_func entry) (String c rest) = false.
Proof.
  intros H. apply Contains_needs_head. unfold fmt_func.
  cbn [has_char] in H. repeat (apply orb_false_iff in H as [? H]).
  destruct (entry =? 0)%N.
  - cbn [has_char]. repeat (apply orb_false_iff; split); auto.
  - cbn [append has_char]. repeat (apply orb_false_iff; split); auto.
    apply hex_digits_only. cbn [has_char].
    repeat (apply orb_false_iff; split); auto.
Qed.

(* ===================================================================== *)
(** * Facts about the transport *)
(* ===================================================================== *)

Lemma after_after (w : world) (a b : list event) :
  after (after w a) b = after w (a ++ b).
Proof. unfold after. cbn [heap journal]. now rewrite app_assoc. Qed.

Lemma after_nil (w : world) : after w [] = w.
Proof. destruct w. unfold after. cbn. now rewrite app_nil_r. Qed.

Lemma bind_Done {A B : Type} (m : M A) (k : A -> M B) (w w' : world) (a : A) :
  m w = Done (a, w') -> bind m k w = k a w'.
Proof. intros H. unfold bind. now rewrite H. Qed.

Lemma logger_Info_run (msg : string) (w : world) :
  logger_Info msg w = Done (tt, after w [EvLog LevelInfo msg []]).
Proof. reflexivity. Qed.

Lemma time_Sleep_run (seconds : Z) (w : world) :
  time_Sleep seconds w = Done (tt, after w [EvSleep seconds]).
Proof. reflexivity. Qed.

(** One statement of a run whose effect is known. *)
Ltac step_by lem := erewrite bind_Done by (apply lem).

Lemma sleeps_app (a b : list event) : sleeps (a ++ b) = sleeps a ++ sleeps b.
Proof. apply flat_map_app. Qed.

Lemma string_upto_head (a b : string) (w : world) :
  string_upto (a ++ b) (Z.of_nat (String.length a)) w = Done (a, w).
Proof.
  unfold string_upto.
  replace ((0 <=? Z.of_nat (String.length a))%Z) with true
    by (symmetry; apply Z.leb_le; lia).
  replace ((Z.of_nat (String.length a) <=? Z.of_nat (String.length (a ++ b)))%Z)
    with true by (symmetry; apply Z.leb_le; rewrite length_append; lia).
  cbn [andb]. unfold ret. now rewrite Nat2Z.id, substring_head.
Qed.

Lemma findSocketPath_shape (h : Host) (target : string) (slot : N) :
  GOOS h = "linux" \/ GOOS h = "darwin" ->
  findSocketPath h target slot
  = ((runtime_dir h ++ "/" ++ target ++ ".sock") ++ "." ++ fmt_uint slot)%string.
Proof.
  intros Hos. unfold findSocketPath, runtime_dir. cbn [fmt_v].
  replace (target ++ ".sock." ++ fmt_uint slot)%string
    with ((target ++ ".sock") ++ "." ++ fmt_uint slot)%string
    by (rewrite append_assoc; reflexivity).
  rewrite <- !append_assoc.
  destruct Hos as [-> | ->]; cbn [String.eqb Ascii.eqb Bool.eqb andb];
    match goal with |- context [String.eqb ?a EmptyString] =>
      destruct (String.eqb a EmptyString) end; reflexivity.
Qed.

Lemma findSocketPath_dotted (h : Host) (target : string) (slot : N) :
  exists stem, findSocketPath h target slot = (stem ++ "." ++ fmt_uint slot)%string.
Proof.
  unfold findSocketPath. cbn [fmt_v].
  match goal with |- context [((if ?c then ?a else ?b) ++ _)%string] =>
    generalize (if c then a else b) end.
  intros dir. exists (dir ++ "/" ++ target ++ ".sock")%string.
  rewrite !append_assoc. reflexivity.
Qed.

(** [connect] on a socket path that ends in a dot and a slot number:
    one dial of the path, and when that fails one dial of the path
    cut at the dot. *)
Lemma connect_unix (h : Host) (stem : string) (slot : N) (w : world) :
  let primary := (stem ++ "." ++ fmt_uint slot)%string in
  connect h {| network := "unix"; address := primary |} w =
  match Dial h "unix" primary with
  | Some conn => Done ((Some conn, nil_error), after w [EvDial "unix" primary])
  | None =>
    Done (match Dial h "unix" stem with
          | Some conn => (Some conn, nil_error)
          | None => (None, errors_New (could_not_connect primary))
          end,
          after w [EvDial "unix" primary; EvDial "unix" stem])
  end.
Proof.
  intros primary. unfold connect, net_Dial, bind, emit, ret. cbn [network address].
  destruct (Dial h "unix" primary) as [conn|]; [reflexivity|].
  cbn [String.eqb Ascii.eqb Bool.eqb].
  unfold primary at 1 2. cbn [append].
  rewrite LastIndex_last by apply fmt_uint_no_dot.
  rewrite string_upto_head. cbn [heap journal].
  unfold after. rewrite <- app_assoc. cbn [app].
  destruct (Dial h "unix" stem); reflexivity.
Qed.

Lemma connect_tcp (h : Host) (connection : PineConnection) (w : world) :
  network connection = "tcp" ->
  connect h connection w
  = Done (match Dial h "tcp" (address connection) with
          | Some conn => (Some conn, nil_error)
          | None => (None, errors_New (could_not_connect (address connection)))
          end, after w [EvDial "tcp" (address connection)]).
Proof.
  intros E. unfold connect, net_Dial, bind, emit, ret. rewrite E.
  destruct (Dial h "tcp" (address connection)); reflexivity.
Qed.

(** What [NewPineConnection] returns: a connection and no error, or an
    error and no connection; the connection is a TCP one or a socket
    path that ends in a dot and the slot number. *)
Lemma NewPineConnection_made (h : Host) (target : string) (slot : N) :
  match NewPineConnection h target slot with
  | (Some connection, None) =>
    (network connection = "tcp") \/
    (exists stem, connection = {| network := "unix";
                                  address := (stem ++ "." ++ fmt_uint
                                    (if (slot =? 0)%N
                                     then fst (map_index defaultSlotForTargetMap target)
                                     else slot))%string |})
  | (None, Some _) => True
  | _ => False
  end.
Proof.
  unfold NewPineConnection.
  destruct (String.eqb target EmptyString); [exact I|].
  destruct (slot =? 0)%N.
  - destruct (negb (snd (map_index defaultSlotForTargetMap target))); [exact I|].
    destruct (String.eqb (GOOS h) "windows"); [left; reflexivity|].
    destruct (String.eqb (GOOS h) "darwin" || String.eqb (GOOS h) "linux"); [|exact I].
    right. destruct (findSocketPath_dotted h target
                       (fst (map_index defaultSlotForTargetMap target))) as [stem E].
    exists stem. now rewrite E.
  - destruct (String.eqb (GOOS h) "windows"); [left; reflexivity|].
    destruct (String.eqb (GOOS h) "darwin" || String.eqb (GOOS h) "linux"); [|exact I].
    right. destruct (findSocketPath_dotted h target slot) as [stem E].
    exists stem. now rewrite E.
Qed.

(** A connection made by [NewPineConnection] can be tested from any
    world: the test returns, and what it returns and what it does do
    not depend on the world it starts in. *)
Lemma TestConnection_made (h : Host) (target : string) (slot : N)
    (connection : PineConnection) :
  NewPineConnection h target slot = (Some connection, None) ->
  exists (err : error) (es : list event),
    sleeps es = [] /\
    forall w, TestConnection h connection w = Done (err, after w es).
Proof.
  intros Hmade. pose proof (NewPineConnection_made h target slot) as Hshape.
  rewrite Hmade in Hshape.
  assert (Hstep : forall (r : option Conn * error) (es : list event),
            sleeps es = [] ->
            (forall w, connect h connection w = Done (r, after w es)) ->
            exists (err : error) (es' : list event),
              sleeps es' = [] /\
              forall w, TestConnection h connection w = Done (err, after w es')).
  { intros [[conn|] [e|]] es Hes Hrun.
    - exists (Some e), es. split; [assumption|]. intros w.
      unfold TestConnection, bind. now rewrite Hrun.
    - exists (Close h conn), (es ++ [EvClose conn]). split.
      + rewrite sleeps_app, Hes. reflexivity.
      + intros w. unfold TestConnection, bind. rewrite Hrun.
        unfold conn_Close, bind, emit, ret. now rewrite <- after_after.
    - exists (Some e), es. split; [assumption|]. intros w.
      unfold TestConnection, bind. now rewrite Hrun.
    - exfalso. specialize (Hrun fresh). revert Hrun.
      destruct Hshape as [Htcp | [stem ->]].
      + rewrite connect_tcp by assumption.
        destruct (Dial h "tcp" (address connection)); discriminate.
      + rewrite connect_unix. cbv zeta.
        repeat match goal with |- context [match Dial ?a ?b ?c with _ => _ end] =>
          destruct (Dial a b c) end; discriminate. }
  destruct Hshape as [Htcp | [stem ->]].
  - eapply Hstep; [|intros w; apply connect_tcp; assumption]. reflexivity.
  - set (slot' := if (slot =? 0)%N then _ else _) in *.
    destruct (Dial h "unix" (stem ++ "." ++ fmt_uint slot')) as [conn|] eqn:Hd.
    + eapply Hstep; [|intros w; rewrite connect_unix; cbv zeta; rewrite Hd; reflexivity].
      reflexivity.
    + eapply Hstep; [|intros w; rewrite connect_unix; cbv zeta; rewrite Hd; reflexivity].
      reflexivity.
Qed.

(* ===================================================================== *)
(** * Transport resolution: what the specification says *)
(* ===================================================================== *)

(** The rules of resolution that hold as the specification states
    them: an empty target name is an error; a zero slot stands for the
    slot registered for the target, 28011 for pcsx2 and 28012 for
    rpcs3; a zero slot with a name that is not registered is the
    "unknown target" error. *)
Lemma resolution_rules (h : Host) :
  (forall slot, NewPineConnection h EmptyString slot
     = (None, Some "empty string provided for target name when creating PINE connection")) /\
  map_index defaultSlotForTargetMap "pcsx2" = (28011%N, true) /\
  map_index defaultSlotForTargetMap "rpcs3" = (28012%N, true) /\
  (forall target slot,
     target <> EmptyString -> slot <> 0%N ->
     map_index defaultSlotForTargetMap target = (slot, true) ->
     NewPineConnection h target 0 = NewPineConnection h target slot) /\
  (forall target,
     target <> EmptyString ->
     snd (map_index defaultSlotForTargetMap target) = false ->
     NewPineConnection h target 0
     = (None, Some (unknown_target_text target (fmt_func (Keys_entry h))))).
Proof.
  split; [reflexivity|]. split; [reflexivity|]. split; [reflexivity|]. split.
  - intros target slot Ht Hs E. unfold NewPineConnection.
    apply String.eqb_neq in Ht. apply N.eqb_neq in Hs.
    rewrite Ht, Hs, E. reflexivity.
  - intros target Ht E. unfold NewPineConnection.
    apply String.eqb_neq in Ht. rewrite Ht, E. reflexivity.
Qed.

(** Scenario 4 of the specification: pcsx2 with slot override 0 is
    resolved with the default slot 28011. *)
Example pcsx2_default_slot :
  NewPineConnection host_down "pcsx2" 0
  = (Some {| network := "unix"; address := "/tmp/pcsx2.sock.28011" |}, nil_error).
Proof. reflexivity. Qed.

(** C5, where the code departs from it. The target "foo" with slot
    override 0 is refused with the "unknown target" error, but the
    text of the error does not list the known targets: [maps.Keys]
    gives an iterator, a function value, and [%v] prints a function
    value as the address of its code, so the text ends in ["0x"] and
    hexadecimal digits, and neither "pcsx2" nor "rpcs3" occurs in
    it. *)
Theorem unknown_target_message_names_no_target (h : Host) :
  let msg := unknown_target_text "foo" (fmt_func (Keys_entry h)) in
  NewPineConnection h "foo" 0 = (None, Some msg) /\
  Contains msg "pcsx2" = false /\ Contains msg "rpcs3" = false.
Proof.
  cbv zeta. split; [reflexivity|].
  pose proof (fmt_func_names_nothing (Keys_entry h) "p" "csx2" eq_refl) as Hp.
  pose proof (fmt_func_names_nothing (Keys_entry h) "r" "pcs3" eq_refl) as Hr.
  revert Hp Hr. generalize (fmt_func (Keys_entry h)) as names. intros names Hp Hr.
  split; cbv -[Contains] in *; cbn; assumption.
Qed.

(** The same error on a machine where the iterator lies at 0x401000. *)
Example unknown_target_text_on_host :
  NewPineConnection host_down "foo" 0
  = (None, Some (unknown_target_text "foo" "0x401000")).
Proof. reflexivity. Qed.

(** C6. On linux and darwin the socket path is the runtime directory
    of the platform (XDG_RUNTIME_DIR on linux, TMPDIR on darwin, when
    set and not empty, else /tmp), a slash, the target, ".sock." and
    the slot; [NewPineConnection] makes a unix connection to it; and
    [connect] dials it once and, only when that dial fails, dials
    exactly once more, the path cut at its last dot, which is the name
    without the slot. *)
Theorem socket_path_and_retry (h : Host) (target : string) (slot : N) (w : world) :
  GOOS h = "linux" \/ GOOS h = "darwin" ->
  let primary := (runtime_dir h ++ "/" ++ target ++ ".sock." ++ fmt_uint slot)%string in
  let secondary := (runtime_dir h ++ "/" ++ target ++ ".sock")%string in
  let connection := {| network := "unix"; address := findSocketPath h target slot |} in
  findSocketPath h target slot = primary /\
  (target <> EmptyString -> slot <> 0%N ->
   NewPineConnection h target slot = (Some connection, nil_error)) /\
  (forall conn, Dial h "unix" primary = Some conn ->
     connect h connection w
     = Done ((Some conn, nil_error), after w [EvDial "unix" primary])) /\
  (Dial h "unix" primary = None ->
     connect h connection w
     = Done (match Dial h "unix" secondary with
             | Some conn => (Some conn, nil_error)
             | None => (None, errors_New (could_not_connect primary))
             end,
             after w [EvDial "unix" primary; EvDial "unix" secondary])).
Proof.
  intros Hos primary secondary connection.
  assert (Hshape : findSocketPath h target slot = (secondary ++ "." ++ fmt_uint slot)%string)
    by (apply findSocketPath_shape; assumption).
  assert (Hprimary : (secondary ++ "." ++ fmt_uint slot)%string = primary).
  { unfold primary, secondary. rewrite !append_assoc. reflexivity. }
  split; [congruence|]. split; [|split].
  - intros Ht Hs. unfold NewPineConnection.
    apply String.eqb_neq in Ht. rewrite Ht.
    apply N.eqb_neq in Hs. rewrite Hs.
    destruct Hos as [E | E]; rewrite E; reflexivity.
  - intros conn Hd. unfold connection. rewrite Hshape.
    rewrite connect_unix. cbv zeta. rewrite Hprimary, Hd. reflexivity.
  - intros Hd. unfold connection. rewrite Hshape.
    rewrite connect_unix. cbv zeta. rewrite Hprimary, Hd. reflexivity.
Qed.

(** The fallback of the specification: only the socket without the
    slot number exists, and the second dial reaches it. *)
Lemma socket_path_and_retry_witness :
  (GOOS host_slotless = "linux" \/ GOOS host_slotless = "darwin") /\
  findSocketPath host_slotless "pcsx2" 28011 = "/run/user/1000/pcsx2.sock.28011" /\
  Dial host_slotless "unix" "/run/user/1000/pcsx2.sock.28011" = None /\
  connect host_slotless
    {| network := "unix"; address := "/run/user/1000/pcsx2.sock.28011" |} fresh
  = Done ((Some {| remote_network := "unix";
                   remote_address := "/run/user/1000/pcsx2.sock" |}, nil_error),
          after fresh [EvDial "unix" "/run/user/1000/pcsx2.sock.28011";
                       EvDial "unix" "/run/user/1000/pcsx2.sock"]).
Proof.
  split; [left; reflexivity|].
  split; [exact (proj1 (socket_path_and_retry host_slotless "pcsx2" 28011 fresh
                          (or_introl eq_refl)))|].
  split; [reflexivity|].
  exact (proj2 (proj2 (proj2 (socket_path_and_retry host_slotless "pcsx2" 28011 fresh
                                (or_introl eq_refl)))) eq_refl).
Defined.

(** C10. With a slot override that is not zero [NewPineConnection]
    does not look the target up: for every target name that is not
    empty, registered or not, and every such slot, it returns a
    connection on linux, darwin and windows, and whatever error it
    returns on another platform is not the "unknown target" error,
    which therefore needs a zero slot. *)
Theorem nonzero_slot_skips_target_validation (h : Host) (target : string) (slot : N) :
  target <> EmptyString -> slot <> 0%N ->
  (GOOS h = "linux" \/ GOOS h = "darwin" \/ GOOS h = "windows" ->
   exists connection, NewPineConnection h target slot = (Some connection, nil_error)) /\
  (forall msg, snd (NewPineConnection h target slot) = Some msg ->
               prefix "unknown target" msg = false).
Proof.
  intros Ht Hs. apply String.eqb_neq in Ht. apply N.eqb_neq in Hs.
  unfold NewPineConnection. rewrite Ht, Hs. split.
  - intros [E | [E | E]]; rewrite E; eexists; reflexivity.
  - intros msg.
    destruct (String.eqb (GOOS h) "windows"); [discriminate|].
    destruct (String.eqb (GOOS h) "darwin" || String.eqb (GOOS h) "linux");
      [discriminate|].
    cbn [snd errors_New]. intros H. apply Some_eq in H. subst msg. reflexivity.
Qed.

(** A target that is not registered, with slot 4242. *)
Lemma nonzero_slot_skips_target_validation_witness :
  "dolphin" <> EmptyString /\ 4242%N <> 0%N /\
  map_index defaultSlotForTargetMap "dolphin" = (0%N, false) /\
  exists connection,
    NewPineConnection host_down "dolphin" 4242 = (Some connection, nil_error).
Proof.
  split; [discriminate|]. split; [discriminate|]. split; [reflexivity|].
  apply (proj1 (nonzero_slot_skips_target_validation host_down "dolphin" 4242
                  ltac:(discriminate) ltac:(discriminate))).
  left. reflexivity.
Defined.

(* ===================================================================== *)
(** * The probe loop: what the specification says *)
(* ===================================================================== *)

Section ProbeLoop.

Variable h : Host.

(** One [range] over the entries in some order: it returns, it does
    not sleep, and it leaves in [pc] the first connection of the order
    whose probe succeeds, or nil. *)
Lemma probeTargets_run (order : list (string * N)) :
  forall (pc : option PineConnection) (w : world),
  exists es : list event,
    sleeps es = [] /\
    probeTargets h order pc w
    = Done (match order with [] => pc | _ :: _ => first_success h order end,
            after w es).
Proof.
  induction order as [|[target defaultSlot] rest IH]; intros pc w.
  - exists []. split; [reflexivity|]. cbn. unfold ret. now rewrite after_nil.
  - cbn [probeTargets first_success]. unfold probe. cbn [fst snd].
    pose proof (NewPineConnection_made h target defaultSlot) as Hshape.
    pose proof (TestConnection_made h target defaultSlot) as Htest.
    step_by logger_Info_run.
    destruct (NewPineConnection h target defaultSlot) as [[connection|] [e|]];
      try contradiction; cbn [fst snd].
    + destruct (Htest connection eq_refl) as (err & es & Hes & Hrun).
      rewrite (Hrun fresh). step_by Hrun. rewrite after_after.
      destruct err as [e|].
      * step_by logger_Info_run. rewrite after_after.
        match goal with |- context [probeTargets h rest None (after w ?done)] =>
          destruct (IH None (after w done)) as (es' & Hes' & Hrest) end.
        rewrite Hrest, after_after. eexists. split; cycle 1.
        { destruct rest; reflexivity. }
        rewrite !sleeps_app, Hes, Hes'. reflexivity.
      * step_by logger_Info_run. rewrite after_after. unfold ret.
        eexists. split; [|reflexivity].
        rewrite !sleeps_app, Hes. reflexivity.
    + step_by logger_Info_run. rewrite after_after.
      match goal with |- context [probeTargets h rest None (after w ?done)] =>
        destruct (IH None (after w done)) as (es' & Hes' & Hrest) end.
      rewrite Hrest, after_after. eexists. split; cycle 1.
      { destruct rest; reflexivity. }
      rewrite !sleeps_app, Hes'. reflexivity.
Qed.

Lemma first_success_none (order : list (string * N)) :
  (forall e, In e order -> probe h e = None) -> first_success h order = None.
Proof.
  induction order as [|e rest IH]; intros H; [reflexivity|].
  cbn [first_success]. rewrite (H e) by now left.
  apply IH. intros e' He'. apply H. now right.
Qed.

Lemma first_success_first (before rest : list (string * N))
    (e : string * N) (connection : PineConnection) :
  (forall b, In b before -> probe h b = None) -> probe h e = Some connection ->
  first_success h (before ++ e :: rest) = Some connection.
Proof.
  induction before as [|b before IH]; intros H He; cbn [app first_success].
  - now rewrite He.
  - rewrite (H b) by now left. apply IH; [|assumption].
    intros b' Hb'. apply H. now right.
Qed.

End ProbeLoop.

(** One turn of the outer loop in which no probe succeeds: the turn
    ends in a sleep of five seconds with [pc] nil. *)
Lemma mainLoop_turn_fails (r : Round) (later : list Round) (w : world) :
  first_success (host r) (order r) = None ->
  exists es : list event,
    sleeps es = [5%Z] /\
    mainLoop (r :: later) None w = mainLoop later None (after w es).
Proof.
  intros Hnone. cbn [mainLoop]. step_by logger_Info_run.
  match goal with |- context [bind (probeTargets _ _ None) _ ?w1] =>
    destruct (probeTargets_run (host r) (order r) None w1) as (es & Hes & Hrun) end.
  step_by Hrun. rewrite after_after.
  assert (E : match order r with
              | [] => None
              | _ :: _ => first_success (host r) (order r)
              end = None) by (destruct (order r); [reflexivity | assumption]).
  rewrite E. step_by logger_Info_run. step_by time_Sleep_run.
  rewrite !after_after. eexists. split; [|reflexivity].
  rewrite !sleeps_app, Hes. reflexivity.
Qed.

Lemma mainLoop_turn_commits (r : Round) (later : list Round) (w : world)
    (connection : PineConnection) :
  first_success (host r) (order r) = Some connection ->
  exists es : list event,
    sleeps es = [] /\
    mainLoop (r :: later) None w = Done (Some connection, after w es).
Proof.
  intros Hsome. cbn [mainLoop]. step_by logger_Info_run.
  match goal with |- context [bind (probeTargets _ _ None) _ ?w1] =>
    destruct (probeTargets_run (host r) (order r) None w1) as (es & Hes & Hrun) end.
  step_by Hrun. rewrite after_after.
  assert (E : match order r with
              | [] => None
              | _ :: _ => first_success (host r) (order r)
              end = Some connection)
    by (destruct (order r); [discriminate Hsome | assumption]).
  rewrite E. unfold ret. eexists. split; [|reflexivity].
  rewrite sleeps_app, Hes. reflexivity.
Qed.

Lemma mainLoop_failing (failing : list Round) :
  (forall x, In x failing -> first_success (host x) (order x) = None) ->
  forall w, exists es : list event,
    sleeps es = repeat 5%Z (List.length failing) /\
    mainLoop failing None w = Done (None, after w es).
Proof.
  induction failing as [|r failing IH]; intros Hfail w.
  - exists []. split; [reflexivity|]. cbn. unfold ret. now rewrite after_nil.
  - destruct (mainLoop_turn_fails r failing w (Hfail r (or_introl eq_refl)))
      as (es & Hes & Hturn).
    destruct (IH (fun x Hx => Hfail x (or_intror Hx)) (after w es))
      as (es' & Hes' & Hrest).
    exists (es ++ es'). split.
    + rewrite sleeps_app, Hes, Hes'. reflexivity.
    + now rewrite Hturn, Hrest, after_after.
Qed.

Lemma mainLoop_commits (failing : list Round) (r : Round) (later : list Round)
    (connection : PineConnection) :
  (forall x, In x failing -> first_success (host x) (order x) = None) ->
  first_success (host r) (order r) = Some connection ->
  forall w, exists es : list event,
    sleeps es = repeat 5%Z (List.length failing) /\
    mainLoop (failing ++ r :: later) None w = Done (Some connection, after w es).
Proof.
  induction failing as [|x failing IH]; intros Hfail Hok w.
  - destruct (mainLoop_turn_commits r later w connection Hok) as (es & Hes & Hrun).
    exists es. split; assumption.
  - cbn [app].
    destruct (mainLoop_turn_fails x (failing ++ r :: later) w
                (Hfail x (or_introl eq_refl))) as (es & Hes & Hturn).
    destruct (IH (fun y Hy => Hfail y (or_intror Hy)) Hok (after w es))
      as (es' & Hes' & Hrest).
    exists (es ++ es'). split.
    + rewrite sleeps_app, Hes, Hes'. reflexivity.
    + now rewrite Hturn, Hrest, after_after.
Qed.

(** C8, as the specification states it, fails: the loop ranges over a
    Go map, whose order of iteration is not fixed. Were the targets
    tried in one fixed order, the connection kept would be the first
    of that order whose probe succeeds, whatever order the [range]
    takes; but with both emulators listening the loop keeps pcsx2
    when the [range] starts with pcsx2 and rpcs3 when it starts with
    rpcs3. *)
Lemma probe_order_not_fixed :
  ~ exists fixed : list (string * N),
      forall (h : Host) (order : list (string * N)),
        Permutation order defaultSlotForTargetMap ->
        exists w', probeTargets h order None fresh = Done (first_success h fixed, w').
Proof.
  intros [fixed H].
  destruct (H host_up [("pcsx2", 28011%N); ("rpcs3", 28012%N)] (Permutation_refl _))
    as [w1 H1].
  destruct (H host_up [("rpcs3", 28012%N); ("pcsx2", 28011%N)] (perm_swap _ _ _))
    as [w2 H2].
  vm_compute in H1. vm_compute in H2.
  destruct (first_success host_up fixed); congruence.
Qed.

(** C8, amended. Starting from Disconnected, each turn of the loop
    ranges over all known targets in the order the map iteration
    happens to take on that turn, which is not fixed and may differ
    from turn to turn, probing each with an open-and-close round trip.
    As long as no target's probe succeeds the process stays
    Disconnected and sleeps 5 seconds after each turn, for as many
    turns as that lasts; on the first turn where a probe succeeds, the
    first target of that turn's order whose probe succeeds becomes the
    active connection. *)
Theorem probe_loop (failing : list Round) (r : Round) (later : list Round) :
  (forall x, In x failing ->
     Permutation (order x) defaultSlotForTargetMap /\
     forall e, In e defaultSlotForTargetMap -> probe (host x) e = None) ->
  (exists w', mainLoop failing None fresh = Done (None, w') /\
              session None = Disconnected /\
              sleeps (journal w') = repeat 5%Z (List.length failing)) /\
  (forall before e rest connection,
     order r = before ++ e :: rest ->
     (forall b, In b before -> probe (host r) b = None) ->
     probe (host r) e = Some connection ->
     exists w', mainLoop (failing ++ r :: later) None fresh = Done (Some connection, w') /\
                session (Some connection) = Connected connection /\
                sleeps (journal w') = repeat 5%Z (List.length failing)).
Proof.
  intros Hfail.
  assert (Hnone : forall x, In x failing -> first_success (host x) (order x) = None).
  { intros x Hx. destruct (Hfail x Hx) as [Hperm Hdown].
    apply first_success_none. intros e He. apply Hdown.
    eapply Permutation_in; eassumption. }
  split.
  - destruct (mainLoop_failing failing Hnone fresh) as (es & Hes & Hrun).
    eexists. split; [exact Hrun|]. split; [reflexivity|]. exact Hes.
  - intros before e rest connection Hord Hbefore He.
    assert (Hok : first_success (host r) (order r) = Some connection)
      by (rewrite Hord; now apply first_success_first).
    destruct (mainLoop_commits failing r later connection Hnone Hok fresh)
      as (es & Hes & Hrun).
    eexists. split; [exact Hrun|]. split; [reflexivity|]. exact Hes.
Qed.

(** Scenario 5 of the specification for two turns, then a turn on
    which both emulators listen. *)
Lemma probe_loop_witness :
  (forall x, In x turns_down ->
     Permutation (order x) defaultSlotForTargetMap /\
     forall e, In e defaultSlotForTargetMap -> probe (host x) e = None) /\
  (exists w', mainLoop turns_down None fresh = Done (None, w') /\
              session None = Disconnected /\
              sleeps (journal w') = [5; 5]%Z) /\
  (exists w', mainLoop (turns_down ++ [turn_up]) None fresh
              = Done (Some {| network := "unix"; address := "/tmp/rpcs3.sock.28012" |}, w') /\
              session (Some {| network := "unix"; address := "/tmp/rpcs3.sock.28012" |})
              = Connected {| network := "unix"; address := "/tmp/rpcs3.sock.28012" |} /\
              sleeps (journal w') = [5; 5]%Z).
Proof.
  assert (Hdown : forall x, In x turns_down ->
     Permutation (order x) defaultSlotForTargetMap /\
     forall e, In e defaultSlotForTargetMap -> probe (host x) e = None).
  { intros x [<-|[<-|[]]]; (split; [first [apply Permutation_refl | apply perm_swap]|]);
      intros e [<-|[<-|[]]]; reflexivity. }
  split; [exact Hdown|]. split.
  - exact (proj1 (probe_loop turns_down turn_up [] Hdown)).
  - apply (proj2 (probe_loop turns_down turn_up [] Hdown)
             [] ("rpcs3", 28012%N) [("pcsx2", 28011%N)]).
    + reflexivity.
    + intros b [].
    + reflexivity.
Defined.

(* ===================================================================== *)
(** * Further facts about the encoders *)
(* ===================================================================== *)

Lemma byte_piece_bit (v k n : Z) :
  (0 <= k)%Z -> (0 <= n)%Z ->
  Z.testbit (Z.shiftl (byte.unsigned (byte.of_Z (Z.shiftr v k))) k) n
  = ((k <=? n)%Z && (n <? k + 8)%Z && Z.testbit v n).
Proof.
  intros Hk Hn. rewrite byte.unsigned_of_Z. unfold byte.wrap.
  destruct (Z.leb_spec k n) as [Hle|Hlt]; cbn [andb].
  - rewrite Z.shiftl_spec by lia.
    destruct (Z.ltb_spec n (k + 8)) as [Hin|Hout]; cbn [andb].
    + rewrite Z.mod_pow2_bits_low by lia. rewrite Z.shiftr_spec by lia.
      f_equal. lia.
    + rewrite Z.mod_pow2_bits_high by lia. reflexivity.
  - rewrite Z.shiftl_spec by lia. rewrite Z.testbit_neg_r by lia. reflexivity.
Qed.

Lemma glue_piece (v k k' : Z) :
  (0 <= k)%Z -> (k' = k + 8)%Z ->
  Z.lor (v mod 2 ^ k) (Z.shiftl (byte.unsigned (byte.of_Z (Z.shiftr v k))) k)
  = (v mod 2 ^ k')%Z.
Proof.
  intros Hk ->. apply Z.bits_inj'. intros n Hn.
  rewrite Z.lor_spec, byte_piece_bit by lia.
  destruct (Z.ltb_spec n k) as [Hlow|Hhigh].
  - rewrite !Z.mod_pow2_bits_low by lia.
    replace (k <=? n)%Z with false by (symmetry; apply Z.leb_gt; lia).
    cbn [andb]. apply orb_false_r.
  - rewrite (Z.mod_pow2_bits_high v k n) by lia.
    replace (k <=? n)%Z with true by (symmetry; apply Z.leb_le; lia).
    cbn [andb orb].
    destruct (Z.ltb_spec n (k + 8)) as [Hin|Hout]; cbn [andb].
    + now rewrite Z.mod_pow2_bits_low by lia.
    + now rewrite Z.mod_pow2_bits_high by lia.
Qed.

Lemma byte_low (v : Z) : byte.unsigned (byte.of_Z v) = (v mod 2 ^ 8)%Z.
Proof. apply byte.unsigned_of_Z. Qed.

Lemma le_pieces_16 (v : Z) :
  Z.lor (byte.unsigned (byte.of_Z v))
        (Z.shiftl (byte.unsigned (byte.of_Z (Z.shiftr v 8))) 8)
  = (v mod 2 ^ 16)%Z.
Proof. rewrite byte_low. now rewrite (glue_piece v 8 16). Qed.

Lemma le_pieces_32 (v : Z) :
  Z.lor (Z.lor (Z.lor (byte.unsigned (byte.of_Z v))
                      (Z.shiftl (byte.unsigned (byte.of_Z (Z.shiftr v 8))) 8))
               (Z.shiftl (byte.unsigned (byte.of_Z (Z.shiftr v 16))) 16))
        (Z.shiftl (byte.unsigned (byte.of_Z (Z.shiftr v 24))) 24)
  = (v mod 2 ^ 32)%Z.
Proof.
  rewrite byte_low, (glue_piece v 8 16), (glue_piece v 16 24), (glue_piece v 24 32) by lia.
  reflexivity.
Qed.

Lemma le_pieces_64 (v : Z) :
  Z.lor (Z.lor (Z.lor (Z.lor (Z.lor (Z.lor (Z.lor
    (byte.unsigned (byte.of_Z v))
    (Z.shiftl (byte.unsigned (byte.of_Z (Z.shiftr v 8))) 8))
    (Z.shiftl (byte.unsigned (byte.of_Z (Z.shiftr v 16))) 16))
    (Z.shiftl (byte.unsigned (byte.of_Z (Z.shiftr v 24))) 24))
    (Z.shiftl (byte.unsigned (byte.of_Z (Z.shiftr v 32))) 32))
    (Z.shiftl (byte.unsigned (byte.of_Z (Z.shiftr v 40))) 40))
    (Z.shiftl (byte.unsigned (byte.of_Z (Z.shiftr v 48))) 48))
    (Z.shiftl (byte.unsigned (byte.of_Z (Z.shiftr v 56))) 56)
  = (v mod 2 ^ 64)%Z.
Proof.
  rewrite byte_low, (glue_piece v 8 16), (glue_piece v 16 24), (glue_piece v 24 32),
    (glue_piece v 32 40), (glue_piece v 40 48), (glue_piece v 48 56), (glue_piece v 56 64) by lia.
  reflexivity.
Qed.

Ltac run_encode :=
  cbv -[byte.of_Z Z.shiftr byte.unsigned Z.lor Z.shiftl Z.modulo Z.pow].

(** Every encoder returns its bytes without an error, and the bytes
    carry the frame length, the opcode and the fields. *)
Lemma encode_fields (r : Request) :
  exists bs,
    encode r = Done (bs, nil_error) /\
    List.length bs = frame_length r /\
    le32 bs = Some (Z.of_nat (frame_length r)) /\
    nth 4 bs Byte.xff = byte.of_Z (opcode_of r) /\
    (forall a, address_of r = Some a -> le32 (skipn 5 bs) = Some (a mod 2 ^ 32)%Z) /\
    (forall w d, data_of r = Some (w, d) -> le_read w (skipn 9 bs) = Some (d mod 2 ^ w)%Z) /\
    (forall s, slot_of r = Some s -> nth 5 bs Byte.xff = s).
Proof.
  destruct r as [[a]|[a]|[a]|[a]|[a d]|[a d]|[a d]|[a d]|[]|[s]|[s]|[]|[]|[]|[]|[]];
    (eexists; split; [run_encode; reflexivity|]);
    (split; [reflexivity|]); (split; [vm_compute; reflexivity|]);
    (split; [reflexivity|]);
    (split; [cbn [address_of]; intros ? E; try discriminate E; apply Some_eq in E; subst;
             run_encode; f_equal; apply le_pieces_32|]);
    (split; [cbn [data_of]; intros ? ? E; try discriminate E; apply Some_eq in E;
             injection E as <- <-; run_encode; f_equal|
             cbn [slot_of]; intros ? E; try discriminate E; apply Some_eq in E; subst;
             reflexivity]).
  - symmetry. apply Z.mod_small. apply byte.unsigned_range.
  - apply le_pieces_16.
  - apply le_pieces_32.
  - apply le_pieces_64.
Qed.

(** X1. The wire layout of all sixteen requests. Every [toBytes]
    returns a nil error and a slice of 5 bytes plus 4 for an address,
    1, 2, 4 or 8 for the data of a write and 1 for a slot; byte 4 is
    the opcode of the request type; the address is read back from
    bytes 5 to 8 and the data from byte 9 on as little-endian
    integers cut to their width; the slot is byte 5. *)
Theorem request_wire_layout (r : Request) :
  exists bs,
    encode r = Done (bs, nil_error) /\
    List.length bs = frame_length r /\
    nth 4 bs Byte.xff = byte.of_Z (opcode_of r) /\
    (forall a, address_of r = Some a -> le32 (skipn 5 bs) = Some (a mod 2 ^ 32)%Z) /\
    (forall w d, data_of r = Some (w, d) -> le_read w (skipn 9 bs) = Some (d mod 2 ^ w)%Z) /\
    (forall s, slot_of r = Some s -> nth 5 bs Byte.xff = s).
Proof.
  destruct (encode_fields r) as (bs & E & Hlen & _ & Hop & Had & Hda & Hsl).
  exists bs. repeat split; assumption.
Qed.

Lemma encode_injective (r1 r2 : Request) :
  well_typed r1 -> well_typed r2 -> encode r1 = encode r2 -> r1 = r2.
Proof.
  intros [Ha1 Hd1] [Ha2 Hd2] Heq.
  destruct (encode_fields r1) as (bs1 & E1 & _ & _ & Hop1 & Had1 & Hda1 & Hsl1).
  destruct (encode_fields r2) as (bs2 & E2 & _ & _ & Hop2 & Had2 & Hda2 & Hsl2).
  rewrite E1, E2 in Heq. injection Heq as ->.
  rewrite Hop1 in Hop2.
  destruct r1 as [[a]|[a]|[a]|[a]|[a d]|[a d]|[a d]|[a d]|[]|[s]|[s]|[]|[]|[]|[]|[]];
  destruct r2 as [[a']|[a']|[a']|[a']|[a' d']|[a' d']|[a' d']|[a' d']|[]|[s']|[s']|[]|[]|[]|[]|[]];
    try (exfalso; vm_compute in Hop2; discriminate Hop2); try reflexivity.
  all: try (specialize (Ha1 _ eq_refl); specialize (Ha2 _ eq_refl);
            specialize (Had1 _ eq_refl); specialize (Had2 _ eq_refl);
            rewrite Had1 in Had2; apply Some_eq in Had2;
            rewrite !Z.mod_small in Had2 by assumption; cbn in Had2; subst a').
  all: try (specialize (Hd1 _ _ eq_refl); specialize (Hd2 _ _ eq_refl);
            specialize (Hda1 _ _ eq_refl); specialize (Hda2 _ _ eq_refl);
            rewrite Hda1 in Hda2; apply Some_eq in Hda2;
            rewrite !Z.mod_small in Hda2 by assumption; cbn in Hda2).
  all: try (specialize (Hsl1 _ eq_refl); specialize (Hsl2 _ eq_refl);
            rewrite Hsl1 in Hsl2; cbn in Hsl2; subst s').
  all: try reflexivity.
  all: try (subst d'; reflexivity).
  (* write8: bytes *)
  f_equal. f_equal.
  apply (f_equal byte.of_Z) in Hda2. now rewrite !byte.of_Z_unsigned in Hda2.
Qed.

(** X2. The encoding loses nothing: two requests whose fields hold
    values of their Go types (addresses below 2^32, data below 2^16,
    2^32, 2^64) and that differ in type or in a field are encoded to
    different bytes. *)
Theorem distinct_requests_distinct_bytes (r1 r2 : Request) :
  well_typed r1 -> well_typed r2 -> r1 <> r2 -> encode r1 <> encode r2.
Proof.
  intros H1 H2 Hne Heq. apply Hne. now apply encode_injective.
Qed.

Lemma distinct_requests_distinct_bytes_witness :
  let r1 := ReqRead8 {| PineRead8Request.address := 3491228 |} in
  let r2 := ReqRead16 {| PineRead16Request.address := 3491228 |} in
  well_typed r1 /\ well_typed r2 /\ r1 <> r2 /\ encode r1 <> encode r2.
Proof.
  intros r1 r2.
  assert (W1 : well_typed r1).
  { split; [intros a E; apply Some_eq in E; subst a; cbn; lia | intros w d E; discriminate E]. }
  assert (W2 : well_typed r2).
  { split; [intros a E; apply Some_eq in E; subst a; cbn; lia | intros w d E; discriminate E]. }
  assert (N : r1 <> r2) by discriminate.
  split; [exact W1 | split; [exact W2 | split; [exact N|]]].
  exact (distinct_requests_distinct_bytes r1 r2 W1 W2 N).
Defined.

(* ===================================================================== *)
(** * Further facts about the decoders *)
(* ===================================================================== *)

Lemma lor_below (a b n : Z) :
  (0 <= n)%Z -> (0 <= a < 2 ^ n)%Z -> (0 <= b < 2 ^ n)%Z ->
  (0 <= Z.lor a b < 2 ^ n)%Z.
Proof.
  intros Hn Ha Hb.
  assert (E : Z.lor a b = (Z.lor a b mod 2 ^ n)%Z).
  { apply Z.bits_inj'. intros i Hi.
    destruct (Z.ltb_spec i n).
    - now rewrite Z.mod_pow2_bits_low by lia.
    - rewrite Z.mod_pow2_bits_high by lia. rewrite Z.lor_spec.
      rewrite <- (Z.mod_small a (2 ^ n)), <- (Z.mod_small b (2 ^ n)) by assumption.
      now rewrite !Z.mod_pow2_bits_high by lia. }
  rewrite E. apply Z.mod_pos_bound. lia.
Qed.

Lemma shifted_byte_below (b : byte) (k n : Z) :
  (0 <= k)%Z -> (n = k + 8)%Z ->
  (0 <= Z.shiftl (byte.unsigned b) k < 2 ^ n)%Z.
Proof.
  intros Hk ->. pose proof (byte.unsigned_range b) as Hb.
  rewrite Z.shiftl_mul_pow2 by lia. rewrite Z.pow_add_r by lia.
  change (2 ^ 8)%Z with 256%Z in *. nia.
Qed.

Lemma le32_below (bs : list byte) (v : Z) : le32 bs = Some v -> (0 <= v < 2 ^ 32)%Z.
Proof.
  intros H. do 4 peel bs H. run in H. apply Some_eq in H. subst v.
  pose proof (byte.unsigned_range b) as Hb.
  pose proof (shifted_byte_below b0 8 16 ltac:(lia) eq_refl).
  pose proof (shifted_byte_below b1 16 24 ltac:(lia) eq_refl).
  pose proof (shifted_byte_below b2 24 32 ltac:(lia) eq_refl).
  repeat apply lor_below; try lia.
  all: change (2 ^ 8)%Z with 256%Z in *; change (2 ^ 16)%Z with 65536%Z in *;
       change (2 ^ 24)%Z with 16777216%Z in *; change (2 ^ 32)%Z with 4294967296%Z in *;
       lia.
Qed.

Ltac settle_panic Hk :=
  run; settle_tests; try (cbv in Hk; discriminate Hk);
  run; eexists; reflexivity.

(** Shorter and shorter slices, until [Hp] says the slice is long
    enough. *)
Ltac starve bs Hp Hn Hk :=
  first
    [ cbv in Hp; discriminate Hp
    | destruct bs as [|?b bs];
      [ run in Hn; apply Some_eq in Hn; run; rewrite Hn; settle_panic Hk
      | starve bs Hp Hn Hk ] ].

Lemma decode_starved_binary (k : RequestType) (f : frame) (n : Z) :
  is_text k = false ->
  le32 (shown f) = Some n -> accepts k n = true -> fields_present k f n = false ->
  exists reason, decode k f = Panic reason.
Proof.
  destruct f as [bs sp]. intros Ht Hn Hk Hp.
  unfold fields_present in Hp. cbn [shown spare] in *.
  do 4 peel bs Hn.
  destruct k; try discriminate Ht; run in Hk.
  1-10: starve bs Hp Hn Hk.
  destruct (n =? 9)%Z eqn:E9.
  - starve bs Hp Hn Hk.
  - starve bs Hp Hn Hk.
Qed.

Lemma decode_starved_text (k : RequestType) (f : frame) (n : Z) :
  is_text k = true ->
  le32 (shown f) = Some n -> accepts k n = true -> fields_present k f n = false ->
  exists reason, decode k f = Panic reason.
Proof.
  destruct f as [bs sp]. intros Ht Hn Hk Hp.
  assert (Hlo : (n <? 10)%Z = false).
  { destruct k; try discriminate Ht; cbn [accepts] in Hk;
      now apply negb_true_iff in Hk. }
  assert (Hp' : match le32 (skipn 5 bs) with
                | Some v => ((9 + v <? 2 ^ 32) &&
                             (9 + v <=? Z.of_nat (List.length (bs ++ sp))))%Z
                | None => false
                end = false)
    by (destruct k; try discriminate Ht; exact Hp).
  clear Hp Hk. cbn [shown spare] in *.
  destruct (le32 (skipn 5 bs)) as [v|] eqn:Hv.
  - pose proof (le32_below _ _ Hv) as Hrange.
    do 9 peel bs Hv. cbn [skipn] in Hv.
    run in Hn. apply Some_eq in Hn. run in Hv. apply Some_eq in Hv.
    assert (Hbad : (2 ^ 32 <= 9 + v)%Z \/
                   (Z.of_nat (9 + List.length (bs ++ sp)) < 9 + v)%Z).
    { apply andb_false_iff in Hp' as [H|H].
      - left. now apply Z.ltb_ge in H.
      - right. apply Z.leb_gt in H. cbn [List.length app] in H. lia. }
    clear Hp'.
    assert (Hpos : (0 <? v)%Z = true) by (apply Z.ltb_lt; lia).
    assert (Hcheck : (Z.to_nat (uint32 (9 + v)) < 9) \/
                     (exists m, Z.to_nat (uint32 (9 + v)) = 9 + m /\
                                (m <=? List.length (bs ++ sp))%nat = false)).
    { destruct (Z.ltb_spec (9 + v) (2 ^ 32)) as [Hin|Hout].
      - right. exists (Z.to_nat v). split.
        + unfold uint32. rewrite Z.mod_small by lia. lia.
        + apply Nat.leb_gt. lia.
      - left. unfold uint32.
        replace (9 + v)%Z with ((9 + v - 2 ^ 32) + 1 * 2 ^ 32)%Z by lia.
        rewrite Z.mod_add by lia. rewrite Z.mod_small by lia. lia. }
    clear Hbad Hrange.
    destruct Hcheck as [Hsmall | (m & Hhi & Hfit)].
    + remember (Z.to_nat (uint32 (9 + v))) as hi eqn:Ehi.
      destruct k; try discriminate Ht; run; rewrite Hn, Hlo, Hv, Hpos;
        rewrite <- Ehi;
        do 9 (destruct hi as [|hi]; [eexists; reflexivity|]); lia.
    + run in Hfit.
      destruct k; try discriminate Ht; run; rewrite Hn, Hlo, Hv, Hpos;
        rewrite Hhi; run; rewrite Hfit; eexists; reflexivity.
  - clear Hp'.
    do 4 peel bs Hn. run in Hn. apply Some_eq in Hn.
    destruct bs as [|b4 [|b5 [|b6 [|b7 [|b8 bs]]]]];
      try (cbv in Hv; discriminate Hv);
      destruct k; try discriminate Ht; run; rewrite Hn, Hlo; eexists; reflexivity.
Qed.

Lemma le32_some (bs : list byte) : 4 <= List.length bs -> exists n, le32 bs = Some n.
Proof.
  intros H. destruct bs as [|b0 [|b1 [|b2 [|b3 rest]]]]; try (cbn in H; lia).
  eexists. run. reflexivity.
Qed.

Lemma decode_accepts_any (k : RequestType) (f : frame) (n : Z) :
  le32 (shown f) = Some n -> accepts k n = true -> fields_present k f n = true ->
  exists answer log, decode k f = Done (answer, nil_error, log).
Proof.
  intros Hn Hk Hp. destruct (is_text k) eqn:Ht.
  - assert (Hten : (10 <= n)%Z).
    { destruct k; try discriminate Ht; cbn [accepts] in Hk;
        apply negb_true_iff, Z.ltb_ge in Hk; exact Hk. }
    assert (Hv : exists v, le32 (skipn 5 (shown f)) = Some v /\
                           (9 + v < 2 ^ 32)%Z /\
                           (9 + v <= Z.of_nat (List.length (shown f ++ spare f)))%Z).
    { destruct k; try discriminate Ht; cbn [fields_present] in Hp;
        (destruct (le32 (skipn 5 (shown f))) as [v|]; [|discriminate Hp]);
        apply andb_true_iff in Hp as [H1 H2];
        apply Z.ltb_lt in H1; apply Z.leb_le in H2; eauto. }
    destruct Hv as (v & Hv & Hwrap & Hcap).
    eexists _, _. now apply (text_decode_stripped k f n v).
  - destruct (decode_accepts_binary k f n Ht Hn Hk Hp) as (a & log & H & _).
    now exists a, log.
Qed.

(** C1, where the code departs from it. The decoders compare the
    length the slice declares with the lengths they accept; none of
    them looks at the length of the slice itself. A short slice
    therefore crashes where the specification asks for an error: with
    fewer than four bytes (the empty slice that [io.ReadAll] hands
    over when the peer closes without answering is one) every
    decoder panics in the read of the length prefix, which comes
    before its length check; with exactly four bytes that declare a
    length the decoder accepts, it panics in the read that follows
    the check. Only four bytes that declare a length outside the
    accepted set get the error, with the zero answer and the log
    record of a rejection. *)
Theorem short_answer_panics (k : RequestType) (f : frame) :
  (List.length (shown f) < 4 -> decode k f = Panic "index out of range") /\
  (forall n, List.length (shown f) = 4 -> le32 (shown f) = Some n ->
     if accepts k n
     then exists reason, decode k f = Panic reason
     else decode k f
          = Done (zeroAnswer k, Some (rejection k), rejection_log k n (shown f))).
Proof.
  split; [apply decode_short|].
  intros n Hlen Hn. destruct (accepts k n) eqn:Hk.
  - assert (Hp : fields_present k f n = false).
    { destruct f as [bs sp]. cbn [shown spare] in *.
      destruct bs as [|b0 [|b1 [|b2 [|b3 [|b4 rest]]]]]; try discriminate Hlen.
      destruct k; reflexivity. }
    destruct (is_text k) eqn:Ht.
    + exact (decode_starved_text k f n Ht Hn Hk Hp).
    + exact (decode_starved_binary k f n Ht Hn Hk Hp).
  - exact (decode_rejects k f n Hn Hk).
Qed.

(** The three cases: the empty slice, four bytes that declare the
    length 5 of a write answer, and four bytes that declare a length
    no read-8 answer has. *)
Lemma short_answer_panics_witness :
  (List.length (shown (exact [])) < 4 /\
   decode Read8 (exact []) = Panic "index out of range") /\
  (List.length (shown (exact (bytes_of [5; 0; 0; 0]%Z))) = 4 /\
   le32 (shown (exact (bytes_of [5; 0; 0; 0]%Z))) = Some 5%Z /\
   accepts Write8 5 = true /\
   exists reason, decode Write8 (exact (bytes_of [5; 0; 0; 0]%Z)) = Panic reason) /\
  (List.length (shown (exact (bytes_of [7; 0; 0; 0]%Z))) = 4 /\
   le32 (shown (exact (bytes_of [7; 0; 0; 0]%Z))) = Some 7%Z /\
   accepts Read8 7 = false /\
   decode Read8 (exact (bytes_of [7; 0; 0; 0]%Z))
   = Done (zeroAnswer Read8, Some (rejection Read8),
           rejection_log Read8 7 (shown (exact (bytes_of [7; 0; 0; 0]%Z))))).
Proof.
  split; [|split].
  - split; [cbn; lia|].
    apply (proj1 (short_answer_panics Read8 (exact []))). cbn. lia.
  - split; [reflexivity|]. split; [reflexivity|]. split; [reflexivity|].
    exact (proj2 (short_answer_panics Write8 (exact (bytes_of [5; 0; 0; 0]%Z)))
             5%Z eq_refl eq_refl).
  - split; [reflexivity|]. split; [reflexivity|]. split; [reflexivity|].
    exact (proj2 (short_answer_panics Read8 (exact (bytes_of [7; 0; 0; 0]%Z)))
             7%Z eq_refl eq_refl).
Defined.

(** X3. When a decoder panics, exactly. A [fromBytes] panics if and
    only if its slice has fewer than 4 bytes, or the length the slice
    declares is one the decoder accepts while the slice is too short
    for the fields the decoder then reads (for a string answer: the
    string would end behind the capacity of the slice, or 9 plus its
    length wraps 32 bits). In every other case it returns. *)
Theorem decode_panics_exactly (k : RequestType) (f : frame) :
  (exists reason, decode k f = Panic reason) <->
  (List.length (shown f) < 4 \/
   exists n, le32 (shown f) = Some n /\ accepts k n = true /\
             fields_present k f n = false).
Proof.
  split.
  - intros [reason Hpanic].
    destruct (Nat.lt_ge_cases (List.length (shown f)) 4) as [Hshort|Hlong];
      [now left|right].
    destruct (le32_some _ Hlong) as [n Hn]. exists n. split; [assumption|].
    destruct (accepts k n) eqn:Hk.
    + split; [reflexivity|]. destruct (fields_present k f n) eqn:Hp; [|reflexivity].
      destruct (decode_accepts_any k f n Hn Hk Hp) as (a & log & H).
      rewrite H in Hpanic. discriminate Hpanic.
    + rewrite (decode_rejects k f n Hn Hk) in Hpanic. discriminate Hpanic.
  - intros [Hshort | (n & Hn & Hk & Hp)].
    + eexists. now apply decode_short.
    + destruct (is_text k) eqn:Ht.
      * now apply (decode_starved_text k f n).
      * now apply (decode_starved_binary k f n).
Qed.

Lemma decode_panics_exactly_witness :
  exists reason, decode Read8 (exact []) = Panic reason.
Proof.
  apply (proj2 (decode_panics_exactly Read8 (exact []))). left. cbn. lia.
Defined.

(** X4. The decoders of the write, save-state, load-state and status
    answers never panic on a slice that holds at least as many bytes
    as it declares: they return an answer or an error. *)
Theorem consistent_frame_is_decoded (k : RequestType) (f : frame) (n : Z) :
  is_read k = false -> is_text k = false ->
  le32 (shown f) = Some n -> (n <= Z.of_nat (List.length (shown f)))%Z ->
  exists answer err log, decode k f = Done (answer, err, log).
Proof.
  intros Hr Ht Hn Hlen. destruct (accepts k n) eqn:Hk.
  - assert (Hp : fields_present k f n = true).
    { pose proof (le32_length _ _ Hn) as H4.
      destruct k; try discriminate Hr; try discriminate Ht;
        cbn [accepts] in Hk; cbn [fields_present].
      1-6: apply Z.eqb_eq in Hk; apply Nat.leb_le; lia.
      apply andb_true_iff. 
      apply orb_true_iff in Hk as [Hk|Hk]; apply Z.eqb_eq in Hk; subst n.
      - split; [apply Nat.leb_le; lia | reflexivity].
      - split; [apply Nat.leb_le; lia | apply Nat.leb_le; lia]. }
    destruct (decode_accepts_any k f n Hn Hk Hp) as (a & log & H).
    now exists a, nil_error, log.
  - eexists _, _, _. exact (decode_rejects k f n Hn Hk).
Qed.

Lemma consistent_frame_is_decoded_witness :
  exists answer err log,
    decode Write8 (exact [Byte.x05; Byte.x00; Byte.x00; Byte.x00; Byte.xff])
    = Done (answer, err, log).
Proof.
  apply (consistent_frame_is_decoded Write8 _ 5);
    [reflexivity | reflexivity | reflexivity | cbn; lia].
Defined.

(* ===================================================================== *)
(** * Further facts about the transport and the probe loop *)
(* ===================================================================== *)

(** X5. What [NewPineConnection] returns, exactly. The registered
    targets are pcsx2 and rpcs3. The function returns either a
    connection and a nil error or no connection and an error, never
    both and never neither. It returns a connection exactly when the
    target is not empty, the slot is not zero or the target is
    registered, and the system is windows, darwin or linux; the
    network is tcp on windows and unix elsewhere. *)
Theorem NewPineConnection_outcome (h : Host) (target : string) (slot : N) :
  (registered target = true <-> target = "pcsx2" \/ target = "rpcs3") /\
  match NewPineConnection h target slot with
  | (Some connection, None) =>
    target <> EmptyString /\ (slot <> 0%N \/ registered target = true) /\
    supported_os h = true /\
    (network connection = "tcp" /\ GOOS h = "windows" \/
     network connection = "unix" /\ GOOS h <> "windows")
  | (None, Some _) =>
    target = EmptyString \/ (slot = 0%N /\ registered target = false) \/
    supported_os h = false
  | _ => False
  end.
Proof.
  split.
  - unfold registered. cbn [defaultSlotForTargetMap map_index].
    destruct (String.eqb_spec "pcsx2" target) as [<-|H1]; [cbn; tauto|].
    destruct (String.eqb_spec "rpcs3" target) as [<-|H2]; [cbn; tauto|].
    cbn. split; [discriminate|]. intros [E|E]; congruence.
  - unfold NewPineConnection, supported_os, registered.
    destruct (String.eqb_spec target EmptyString) as [->|Hne]; [now left|].
    destruct (N.eqb_spec slot 0) as [->|Hs].
    + destruct (snd (map_index defaultSlotForTargetMap target)) eqn:Hreg; cbn [negb].
      * destruct (String.eqb_spec (GOOS h) "windows") as [Ew|Ew]; cbn [orb].
        { repeat split; auto. }
        destruct (String.eqb (GOOS h) "darwin" || String.eqb (GOOS h) "linux") eqn:Eo.
        { repeat split; auto. }
        right. right. reflexivity.
      * right. left. now split.
    + destruct (String.eqb_spec (GOOS h) "windows") as [Ew|Ew]; cbn [orb].
      { repeat split; auto. }
      destruct (String.eqb (GOOS h) "darwin" || String.eqb (GOOS h) "linux") eqn:Eo.
      { repeat split; auto. }
      right. right. reflexivity.
Qed.

(** X6. On Windows the slot is the TCP port: the connection's address
    is a colon and the slot in decimal, whatever the target, and
    [connect] dials it once, with no second attempt when the dial
    fails. *)
Theorem windows_single_dial (h : Host) (target : string) (slot : N) (w : world) :
  GOOS h = "windows" -> target <> EmptyString -> slot <> 0%N ->
  let connection := {| network := "tcp"; address := (":" ++ fmt_uint slot)%string |} in
  NewPineConnection h target slot = (Some connection, nil_error) /\
  connect h connection w
  = Done (match Dial h "tcp" (":" ++ fmt_uint slot) with
          | Some conn => (Some conn, nil_error)
          | None => (None, errors_New (could_not_connect (":" ++ fmt_uint slot)))
          end, after w [EvDial "tcp" (":" ++ fmt_uint slot)%string]).
Proof.
  intros Hos Ht Hs connection. split.
  - unfold NewPineConnection. apply String.eqb_neq in Ht. apply N.eqb_neq in Hs.
    rewrite Ht, Hs, Hos. reflexivity.
  - now rewrite connect_tcp.
Qed.

Lemma windows_single_dial_witness :
  GOOS host_windows = "windows" /\
  let connection := {| network := "tcp"; address := (":" ++ fmt_uint 28011)%string |} in
  NewPineConnection host_windows "pcsx2" 28011 = (Some connection, nil_error) /\
  connect host_windows connection fresh
  = Done (match Dial host_windows "tcp" (":" ++ fmt_uint 28011) with
          | Some conn => (Some conn, nil_error)
          | None => (None, errors_New (could_not_connect (":" ++ fmt_uint 28011)))
          end, after fresh [EvDial "tcp" (":" ++ fmt_uint 28011)%string]).
Proof.
  split; [reflexivity|].
  apply (windows_single_dial host_windows "pcsx2" 28011 fresh);
    [reflexivity | discriminate | discriminate].
Defined.

Lemma opened_app (h : Host) (a b : list event) :
  opened h (a ++ b) = opened h a ++ opened h b.
Proof. apply flat_map_app. Qed.

Lemma closed_app (a b : list event) : closed (a ++ b) = closed a ++ closed b.
Proof. apply flat_map_app. Qed.

Lemma dials_app (a b : list event) : dials (a ++ b) = dials a ++ dials b.
Proof. apply flat_map_app. Qed.

(** What [connect] does for a connection made by [NewPineConnection]. *)
Lemma connect_made (h : Host) (target : string) (slot : N)
    (connection : PineConnection) :
  NewPineConnection h target slot = (Some connection, None) ->
  exists (r : option Conn * error) (es : list event),
    (forall w, connect h connection w = Done (r, after w es)) /\
    closed es = [] /\ sleeps es = [] /\
    1 <= List.length (dials es) <= 2 /\
    hd_error (dials es) = Some (network connection, address connection) /\
    (forall conn, fst r = Some conn -> snd r = None /\ opened h es = [conn]) /\
    (fst r = None ->
     snd r = Some (could_not_connect (address connection)) /\ opened h es = []).
Proof.
  intros Hmade. pose proof (NewPineConnection_made h target slot) as Hshape.
  rewrite Hmade in Hshape. destruct Hshape as [Htcp | [stem ->]].
  - destruct (Dial h "tcp" (address connection)) as [conn|] eqn:Hd.
    + exists (Some conn, nil_error), [EvDial "tcp" (address connection)].
      split; [intros w; rewrite connect_tcp, Hd by assumption; reflexivity|].
      cbn [closed sleeps dials opened flat_map app List.length hd_error fst snd].
      rewrite Hd, Htcp. repeat split; intros; cbn [app List.length] in *; try lia; try discriminate; try congruence.
    + exists (None, errors_New (could_not_connect (address connection))),
             [EvDial "tcp" (address connection)].
      split; [intros w; rewrite connect_tcp, Hd by assumption; reflexivity|].
      cbn [closed sleeps dials opened flat_map app List.length hd_error fst snd].
      rewrite Hd, Htcp. repeat split; intros; cbn [app List.length] in *; try lia; try discriminate; try congruence.
  - set (slot' := if (slot =? 0)%N then _ else _) in *.
    set (primary := (stem ++ "." ++ fmt_uint slot')%string).
    cbn [network address].
    destruct (Dial h "unix" primary) as [conn|] eqn:Hd.
    + exists (Some conn, nil_error), [EvDial "unix" primary].
      split; [intros w; unfold primary; rewrite connect_unix; cbv zeta; fold primary; rewrite Hd;
              reflexivity|].
      cbn [closed sleeps dials opened flat_map app List.length hd_error fst snd].
      rewrite Hd. repeat split; intros; cbn [app List.length] in *; try lia; try discriminate; try congruence.
    + destruct (Dial h "unix" stem) as [conn|] eqn:Hd2.
      * exists (Some conn, nil_error), [EvDial "unix" primary; EvDial "unix" stem].
        split; [intros w; unfold primary; rewrite connect_unix; cbv zeta; fold primary;
                rewrite Hd, Hd2; reflexivity|].
        cbn [closed sleeps dials opened flat_map app List.length hd_error fst snd].
        rewrite Hd, Hd2. repeat split; intros; cbn [app List.length] in *; try lia; try discriminate; try congruence.
      * exists (None, errors_New (could_not_connect primary)),
               [EvDial "unix" primary; EvDial "unix" stem].
        split; [intros w; unfold primary; rewrite connect_unix; cbv zeta; fold primary;
                rewrite Hd, Hd2; reflexivity|].
        cbn [closed sleeps dials opened flat_map app List.length hd_error fst snd].
        rewrite Hd, Hd2. repeat split; intros; cbn [app List.length] in *; try lia; try discriminate; try congruence.
Qed.

(** X7. [TestConnection] leaks nothing. On a connection made by
    [NewPineConnection] it dials once or twice, opens at most one
    connection and closes exactly the one it opened; its error is
    the could-not-connect error when no dial was answered, and what
    [Close] returned otherwise. *)
Theorem TestConnection_balance (h : Host) (target : string) (slot : N)
    (connection : PineConnection) :
  NewPineConnection h target slot = (Some connection, None) ->
  exists (err : error) (es : list event),
    (forall w, TestConnection h connection w = Done (err, after w es)) /\
    closed es = opened h es /\
    List.length (opened h es) <= 1 /\
    1 <= List.length (dials es) <= 2 /\
    (opened h es = [] -> err = Some (could_not_connect (address connection))) /\
    (forall conn, opened h es = [conn] -> err = Close h conn).
Proof.
  intros Hmade.
  destruct (connect_made h target slot connection Hmade)
    as ([[conn|] e] & es & Hrun & Hclosed & _ & Hdials & _ & Hsome & Hnone).
  - destruct (Hsome conn eq_refl) as [He Hopen]. cbn [snd] in He. subst e.
    exists (Close h conn), (es ++ [EvClose conn]). split.
    { intros w. unfold TestConnection, bind. rewrite Hrun.
      unfold conn_Close, bind, emit, ret. now rewrite <- after_after. }
    rewrite closed_app, opened_app, dials_app, Hclosed, Hopen.
    cbn [closed opened dials flat_map app List.length]. rewrite app_nil_r.
    repeat split; intros; cbn [app List.length] in *; try lia; try discriminate; try congruence.
  - destruct (Hnone eq_refl) as [He Hopen]. cbn [snd] in He. subst e.
    exists (Some (could_not_connect (address connection))), es. split.
    { intros w. unfold TestConnection, bind. now rewrite Hrun. }
    rewrite Hclosed, Hopen. cbn [List.length]. repeat split; intros; try lia; try discriminate; try congruence.
Qed.

Lemma TestConnection_balance_witness :
  let connection :=
    {| network := "unix"; address := "/run/user/1000/pcsx2.sock.28011" |} in
  NewPineConnection host_slotless "pcsx2" 28011 = (Some connection, None) /\
  exists (err : error) (es : list event),
    (forall w, TestConnection host_slotless connection w = Done (err, after w es)) /\
    closed es = opened host_slotless es /\
    List.length (opened host_slotless es) <= 1 /\
    1 <= List.length (dials es) <= 2 /\
    (opened host_slotless es = [] ->
     err = Some (could_not_connect (address connection))) /\
    (forall conn, opened host_slotless es = [conn] -> err = Close host_slotless conn).
Proof.
  intros connection. split; [reflexivity|].
  apply (TestConnection_balance host_slotless "pcsx2" 28011 connection). reflexivity.
Defined.

Lemma NewPineConnection_unsupported (h : Host) (target : string) (slot : N) :
  supported_os h = false ->
  exists msg, NewPineConnection h target slot = (None, Some msg).
Proof.
  unfold supported_os, NewPineConnection. intros H.
  apply orb_false_iff in H as [H Hl]. apply orb_false_iff in H as [Hw Hd].
  rewrite Hw, Hd, Hl. cbn [orb].
  destruct (String.eqb target EmptyString); [eexists; reflexivity|].
  destruct (slot =? 0)%N; [|eexists; reflexivity].
  destruct (negb (snd (map_index defaultSlotForTargetMap target)));
    eexists; reflexivity.
Qed.

Lemma probeTargets_unsupported (h : Host) (order : list (string * N)) :
  supported_os h = false ->
  forall (pc : option PineConnection) (w : world),
  exists es : list event,
    dials es = [] /\ sleeps es = [] /\
    probeTargets h order pc w
    = Done (match order with [] => pc | _ :: _ => None end, after w es).
Proof.
  intros Hos. induction order as [|[target defaultSlot] rest IH]; intros pc w.
  - exists []. repeat split. cbn. unfold ret. now rewrite after_nil.
  - cbn [probeTargets]. step_by logger_Info_run.
    destruct (NewPineConnection_unsupported h target defaultSlot Hos) as [msg ->].
    cbn [fst snd]. step_by logger_Info_run. rewrite after_after.
    match goal with |- context [probeTargets h rest None (after w ?done)] =>
      destruct (IH None (after w done)) as (es' & Hd' & Hs' & Hrest) end.
    rewrite Hrest, after_after. eexists. split; [|split]; cycle 2.
    { destruct rest; reflexivity. }
    + rewrite !dials_app, Hd'. reflexivity.
    + rewrite !sleeps_app, Hs'. reflexivity.
Qed.

(** X8. On a system other than windows, darwin and linux the probe
    loop never dials: every turn ends in the 5 second sleep and no
    connection is ever kept. *)
Theorem unsupported_platform_never_dials (rounds : list Round) (w : world) :
  (forall r, In r rounds -> supported_os (host r) = false) ->
  exists es : list event,
    mainLoop rounds None w = Done (None, after w es) /\
    dials es = [] /\ sleeps es = repeat 5%Z (List.length rounds).
Proof.
  revert w. induction rounds as [|r later IH]; intros w Hos.
  - exists []. repeat split. cbn. unfold ret. now rewrite after_nil.
  - cbn [mainLoop]. step_by logger_Info_run.
    match goal with |- context [bind (probeTargets _ _ None) _ ?w1] =>
      destruct (probeTargets_unsupported (host r) (order r)
                  (Hos r (or_introl eq_refl)) None w1) as (es & Hd & Hs & Hrun) end.
    step_by Hrun. rewrite after_after.
    assert (E : match order r with [] => None | _ :: _ => @None PineConnection end = None)
      by (destruct (order r); reflexivity).
    rewrite E. step_by logger_Info_run. step_by time_Sleep_run. rewrite !after_after.
    match goal with |- context [mainLoop later None (after w ?done)] =>
      destruct (IH (after w done) (fun x Hx => Hos x (or_intror Hx)))
        as (es' & Hrest & Hd' & Hs') end.
    rewrite Hrest, after_after. eexists. split; [reflexivity|]. split.
    + rewrite !dials_app, Hd, Hd'. reflexivity.
    + rewrite !sleeps_app, Hs, Hs'. reflexivity.
Qed.

Lemma unsupported_platform_never_dials_witness :
  let rounds := [ {| host := host_elsewhere; order := defaultSlotForTargetMap |};
                  {| host := host_elsewhere; order := defaultSlotForTargetMap |} ] in
  (forall r, In r rounds -> supported_os (host r) = false) /\
  exists es : list event,
    mainLoop rounds None fresh = Done (None, after fresh es) /\
    dials es = [] /\ sleeps es = repeat 5%Z (List.length rounds).
Proof.
  intros rounds.
  assert (H : forall r, In r rounds -> supported_os (host r) = false).
  { intros r [<-|[<-|[]]]; reflexivity. }
  split; [exact H|].
  exact (unsupported_platform_never_dials rounds fresh H).
Defined.

Lemma first_success_in (h : Host) (order : list (string * N))
    (connection : PineConnection) :
  first_success h order = Some connection ->
  exists entry, In entry order /\ probe h entry = Some connection.
Proof.
  induction order as [|e rest IH]; [discriminate|].
  cbn [first_success]. destruct (probe h e) as [c|] eqn:Hp.
  - intros H. apply Some_eq in H. subst c. exists e. split; [now left | assumption].
  - intros H. destruct (IH H) as (entry & Hin & Hpe). exists entry.
    split; [now right | assumption].
Qed.

Lemma probe_made (h : Host) (entry : string * N) (connection : PineConnection) :
  probe h entry = Some connection ->
  NewPineConnection h (fst entry) (snd entry) = (Some connection, nil_error) /\
  exists w', TestConnection h connection fresh = Done (nil_error, w').
Proof.
  unfold probe.
  destruct (NewPineConnection h (fst entry) (snd entry)) as [[c|] [e|]];
    try discriminate.
  destruct (TestConnection h c fresh) as [[[e|] w']|] eqn:Ht; try discriminate.
  intros H. apply Some_eq in H. subst c. split; [reflexivity|].
  exists w'. exact Ht.
Qed.

(** X9. The connection the probe loop keeps has been tested: it was
    made by [NewPineConnection] for an entry the turn ranged over,
    and [TestConnection] returned nil for it on that turn's machine.
    When the turn ranges over the map of default slots, it is pcsx2
    on 28011 or rpcs3 on 28012. *)
Theorem kept_connection_was_tested (rounds : list Round) (w w' : world)
    (connection : PineConnection) :
  mainLoop rounds None w = Done (Some connection, w') ->
  exists r target slot,
    In r rounds /\ In (target, slot) (order r) /\
    NewPineConnection (host r) target slot = (Some connection, nil_error) /\
    (exists w1, TestConnection (host r) connection fresh = Done (nil_error, w1)) /\
    (Permutation (order r) defaultSlotForTargetMap ->
     (target, slot) = ("pcsx2", 28011%N) \/ (target, slot) = ("rpcs3", 28012%N)).
Proof.
  revert w. induction rounds as [|r later IH]; intros w H.
  - cbn in H. discriminate H.
  - destruct (first_success (host r) (order r)) as [c|] eqn:Hfs.
    + destruct (mainLoop_turn_commits r later w c Hfs) as (es & _ & Hrun).
      rewrite Hrun in H. injection H as <- _.
      destruct (first_success_in _ _ _ Hfs) as ([target slot] & Hin & Hp).
      destruct (probe_made _ _ _ Hp) as [Hmade Htest]. cbn [fst snd] in Hmade.
      exists r, target, slot. split; [now left|]. split; [assumption|].
      split; [assumption|]. split; [assumption|].
      intros Hperm. pose proof (Permutation_in _ Hperm Hin) as Hmap.
      destruct Hmap as [E|[E|[]]]; [left | right]; now symmetry.
    + destruct (mainLoop_turn_fails r later w Hfs) as (es & _ & Hturn).
      rewrite Hturn in H.
      destruct (IH _ H) as (r' & t & s & Hin & Hrest).
      exists r', t, s. split; [now right | assumption].
Qed.

Lemma kept_connection_was_tested_witness :
  let connection := {| network := "unix"; address := "/tmp/rpcs3.sock.28012" |} in
  exists r target slot,
    In r (turns_down ++ [turn_up]) /\ In (target, slot) (order r) /\
    NewPineConnection (host r) target slot = (Some connection, nil_error) /\
    (exists w1, TestConnection (host r) connection fresh = Done (nil_error, w1)) /\
    (Permutation (order r) defaultSlotForTargetMap ->
     (target, slot) = ("pcsx2", 28011%N) \/ (target, slot) = ("rpcs3", 28012%N)).
Proof.
  intros connection.
  eapply (kept_connection_was_tested (turns_down ++ [turn_up]) fresh).
  vm_compute. reflexivity.
Defined.

(* ===================================================================== *)
(** * The numbers of a request *)
(* ===================================================================== *)

Lemma digit_of_nonneg (c : ascii) (d : Z) : digit_of c = Some d -> (0 <= d)%Z.
Proof.
  unfold digit_of.
  destruct ((48 <=? Z.of_N (N_of_ascii c)) && (Z.of_N (N_of_ascii c) <=? 57))%Z eqn:E1.
  - intros H. apply Some_eq in H. apply andb_true_iff in E1 as [H1 _].
    apply Z.leb_le in H1. lia.
  - destruct ((97 <=? lower (Z.of_N (N_of_ascii c))) &&
              (lower (Z.of_N (N_of_ascii c)) <=? 122))%Z eqn:E2; [|discriminate].
    intros H. apply Some_eq in H. apply andb_true_iff in E2 as [H1 _].
    apply Z.leb_le in H1. lia.
Qed.

Lemma number_from_grows (base : Z) (s : string) :
  (1 <= base)%Z -> forall n v, (0 <= n)%Z -> number_from base s n = Some v -> (n <= v)%Z.
Proof.
  intros Hb. induction s as [|c rest IH]; intros n v Hn H.
  - apply Some_eq in H. lia.
  - cbn [number_from] in H. destruct (digit_of c) as [d|] eqn:Hd; [|discriminate].
    destruct (d <? base)%Z; [|discriminate].
    pose proof (digit_of_nonneg _ _ Hd). apply IH in H; nia.
Qed.

Lemma scan_exact (s0 s : string) (base maxVal n v : Z) :
  (2 <= base <= 36)%Z -> (0 <= n <= maxVal)%Z -> (maxVal <= maxUint64)%Z ->
  scan s0 s base (maxUint64 / base + 1) maxVal n = (v, None) <->
  number_from base s n = Some v /\ (v <= maxVal)%Z.
Proof.
  intros Hb Hn Hmax. revert n Hn. induction s as [|c rest IH]; intros n Hn.
  - cbn [scan number_from]. split.
    + intros H. injection H as <-. split; [reflexivity | lia].
    + intros [H _]. apply Some_eq in H. now subst.
  - cbn [scan number_from]. destruct (digit_of c) as [d|] eqn:Hd.
    2: { split; [discriminate | intros [H _]; discriminate]. }
    pose proof (digit_of_nonneg _ _ Hd) as Hd0.
    destruct (Z.leb_spec base d) as [Hbig|Hsmall].
    { replace (d <? base)%Z with false by (symmetry; apply Z.ltb_ge; lia).
      split; [discriminate | intros [H _]; discriminate]. }
    replace (d <? base)%Z with true by (symmetry; apply Z.ltb_lt; lia).
    assert (Hgrow : forall v', number_from base rest (n * base + d) = Some v' ->
                               (n * base + d <= v')%Z).
    { intros v'. apply number_from_grows; nia. }
    unfold maxUint64 in *.
    destruct (Z.leb_spec (((2 ^ 64 - 1) / base) + 1) n) as [Hcut|Hcut].
    { split; [discriminate|]. intros [H Hv]. apply Hgrow in H.
      assert ((2 ^ 64 - 1) < n * base)%Z; [|lia].
      pose proof (Z.div_mod (2 ^ 64 - 1) base ltac:(lia)) as Hdm.
      pose proof (Z.mod_pos_bound (2 ^ 64 - 1) base ltac:(lia)). nia. }
    assert (Hnb : (0 <= n * base <= 2 ^ 64 - 1)%Z).
    { split; [nia|].
      pose proof (Z.div_mod (2 ^ 64 - 1) base ltac:(lia)) as Hdm.
      pose proof (Z.mod_pos_bound (2 ^ 64 - 1) base ltac:(lia)). nia. }
    unfold uint64. rewrite (Z.mod_small (n * base)) by lia.
    destruct (Z.ltb_spec (n * base + d) (2 ^ 64)) as [Hfit|Hwrap].
    + rewrite (Z.mod_small (n * base + d)) by lia.
      replace (n * base + d <? n * base)%Z with false
        by (symmetry; apply Z.ltb_ge; lia).
      cbn [orb]. destruct (Z.ltb_spec maxVal (n * base + d)) as [Hover|Hok].
      * split; [discriminate|]. intros [H Hv]. apply Hgrow in H. lia.
      * apply IH. lia.
    + replace (n * base + d)%Z with ((n * base + d - 2 ^ 64) + 1 * 2 ^ 64)%Z by lia.
      rewrite Z.mod_add by lia. rewrite Z.mod_small by lia.
      replace (n * base + d - 2 ^ 64 <? n * base)%Z with true
        by (symmetry; apply Z.ltb_lt; lia).
      cbn [orb]. split; [discriminate|]. intros [H Hv].
      replace (n * base + d - 2 ^ 64 + 1 * 2 ^ 64)%Z with (n * base + d)%Z in H by lia.
      apply Hgrow in H. lia.
Qed.

Lemma scan_number (s0 s : string) (base maxVal n m : Z) :
  (2 <= base <= 36)%Z -> (0 <= n <= maxVal)%Z -> (maxVal <= maxUint64)%Z ->
  number_from base s n = Some m ->
  scan s0 s base (maxUint64 / base + 1) maxVal n =
  if (m <=? maxVal)%Z then (m, None)
  else (maxVal, Some {| Func := "ParseUint"; Num := s0; Err := ErrRange |}).
Proof.
  intros Hb Hn Hmax. revert n Hn. induction s as [|c rest IH]; intros n Hn H.
  - cbn [scan number_from] in *. apply Some_eq in H. subst m.
    now replace (n <=? maxVal)%Z with true by (symmetry; apply Z.leb_le; lia).
  - cbn [scan number_from] in *. destruct (digit_of c) as [d|] eqn:Hd; [|discriminate].
    pose proof (digit_of_nonneg _ _ Hd) as Hd0.
    destruct (Z.ltb_spec d base) as [Hsmall|Hbig]; [|discriminate].
    replace (base <=? d)%Z with false by (symmetry; apply Z.leb_gt; lia).
    assert (Hgrow : (n * base + d <= m)%Z).
    { apply (number_from_grows base rest); [lia | nia | exact H]. }
    unfold maxUint64 in *.
    pose proof (Z.div_mod (2 ^ 64 - 1) base ltac:(lia)) as Hdm.
    pose proof (Z.mod_pos_bound (2 ^ 64 - 1) base ltac:(lia)) as Hmb.
    destruct (Z.leb_spec (((2 ^ 64 - 1) / base) + 1) n) as [Hcut|Hcut].
    { replace (m <=? maxVal)%Z with false; [reflexivity|].
      symmetry; apply Z.leb_gt. nia. }
    assert (Hnb : (0 <= n * base <= 2 ^ 64 - 1)%Z) by nia.
    unfold uint64. rewrite (Z.mod_small (n * base)) by lia.
    destruct (Z.ltb_spec (n * base + d) (2 ^ 64)) as [Hfit|Hwrap].
    + rewrite (Z.mod_small (n * base + d)) by lia.
      replace (n * base + d <? n * base)%Z with false
        by (symmetry; apply Z.ltb_ge; lia).
      cbn [orb]. destruct (Z.ltb_spec maxVal (n * base + d)) as [Hover|Hok].
      * replace (m <=? maxVal)%Z with false; [reflexivity|].
        symmetry; apply Z.leb_gt. lia.
      * apply IH; [lia | exact H].
    + replace ((n * base + d) mod 2 ^ 64)%Z with (n * base + d - 2 ^ 64)%Z.
      2: { replace (n * base + d)%Z with ((n * base + d - 2 ^ 64) + 1 * 2 ^ 64)%Z at 2 by lia.
           rewrite Z.mod_add by lia. now rewrite Z.mod_small by lia. }
      replace (n * base + d - 2 ^ 64 <? n * base)%Z with true
        by (symmetry; apply Z.ltb_lt; lia).
      cbn [orb]. replace (m <=? maxVal)%Z with false; [reflexivity|].
      symmetry; apply Z.leb_gt. lia.
Qed.

Lemma maxVal_bits (bits : Z) :
  (1 <= bits <= 64)%Z -> uint64 (uint64 (Z.shiftl 1 bits) - 1) = (2 ^ bits - 1)%Z.
Proof.
  intros Hb. unfold uint64. rewrite Z.shiftl_1_l.
  assert (H0 : (2 <= 2 ^ bits)%Z).
  { change 2%Z with (2 ^ 1)%Z at 1. apply Z.pow_le_mono_r; lia. }
  destruct (Z.eq_dec bits 64) as [->|Hne].
  - reflexivity.
  - assert (2 ^ bits < 2 ^ 64)%Z by (apply Z.pow_lt_mono_r; lia).
    rewrite (Z.mod_small (2 ^ bits)) by lia. apply Z.mod_small. lia.
Qed.

Lemma ParseUint_run (s : string) (base bits : Z) :
  (2 <= base <= 36)%Z -> (1 <= bits <= 64)%Z -> s <> EmptyString ->
  ParseUint s base bits = scan s s base (maxUint64 / base + 1) (2 ^ bits - 1) 0.
Proof.
  intros Hb Hbits Hs. unfold ParseUint.
  destruct (String.eqb_spec s EmptyString) as [E|_]; [contradiction|].
  replace ((2 <=? base) && (base <=? 36))%Z with true.
  2: { symmetry. apply andb_true_iff. split; apply Z.leb_le; lia. }
  cbn [negb]. replace (bits =? 0)%Z with false by (symmetry; apply Z.eqb_neq; lia).
  replace ((bits <? 0) || (64 <? bits))%Z with false.
  2: { symmetry. apply orb_false_iff. split; apply Z.ltb_ge; lia. }
  cbv zeta. now rewrite maxVal_bits.
Qed.

Lemma substring_all (s : string) : substring 0 (String.length s) s = s.
Proof. induction s as [|c s IH]; [reflexivity|]. cbn. now rewrite IH. Qed.

Lemma Index_lower (s t : string) : (-1 <= Index s t)%Z.
Proof.
  induction s as [|c s IH]; cbn [Index].
  - destruct (prefix t EmptyString); lia.
  - destruct (prefix t (String c s)); [lia|]. destruct (Index s t <? 0)%Z; lia.
Qed.

Lemma Index_zero (s t : string) : (Index s t =? 0)%Z = prefix t s.
Proof.
  destruct s as [|c s]; cbn [Index].
  - now destruct (prefix t EmptyString).
  - destruct (prefix t (String c s)); [reflexivity|].
    pose proof (Index_lower s t). destruct (Z.ltb_spec (Index s t) 0); [reflexivity|].
    apply Z.eqb_neq. lia.
Qed.

Lemma literal_decimal (num : string) :
  prefix "0x" num = false -> literal num = (10%Z, num).
Proof.
  destruct num as [|a [|b body]]; [reflexivity| |].
  - intros _. unfold literal. destruct a as [[] [] [] [] [] [] [] []]; reflexivity.
  - unfold literal.
    destruct a as [[] [] [] [] [] [] [] []]; try reflexivity.
    destruct b as [[] [] [] [] [] [] [] []]; try reflexivity.
    intros H. cbn [prefix] in H.
    destruct (ascii_dec "0" "0") as [_|N]; [|now contradiction N].
    destruct (ascii_dec "x" "x") as [_|N]; [|now contradiction N].
    destruct body; discriminate.
Qed.

Lemma literal_hexadecimal (num : string) :
  prefix "0x" num = true ->
  exists body, num = String "0" (String "x" body) /\ literal num = (16%Z, body).
Proof.
  destruct num as [|a [|b body]]; [discriminate| |].
  - cbn [prefix]. destruct (ascii_dec "0" a); discriminate.
  - cbn [prefix]. destruct (ascii_dec "0" a) as [<-|]; [|discriminate].
    destruct (ascii_dec "x" b) as [<-|]; [|discriminate].
    intros _. exists body. split; reflexivity.
Qed.

Lemma parseInt_literal (num : string) (bits : Z) :
  parseInt num bits = ParseUint (snd (literal num)) (fst (literal num)) bits.
Proof.
  unfold parseInt. rewrite Index_zero.
  destruct (prefix "0x" num) eqn:E.
  - destruct (literal_hexadecimal num E) as (body & -> & ->).
    cbn [fst snd]. unfold TrimPrefix. rewrite E.
    replace (String.length (String "0" (String "x" body)) - String.length "0x")
      with (String.length body) by (cbn [String.length]; lia).
    change (substring (String.length "0x") (String.length body)
                      (String "0" (String "x" body)))
      with (substring 0 (String.length body) body).
    now rewrite substring_all.
  - now rewrite (literal_decimal num E).
Qed.

(** [parseInt] returns a number and a nil error for the texts that
    write a number of the size asked for, and for no other. *)
Lemma parseInt_denotes (text : string) (bits v : Z) :
  (1 <= bits <= 64)%Z ->
  parseInt text bits = (v, None) <-> denotes text bits v.
Proof.
  intros Hbits. unfold denotes. rename text into num. rewrite parseInt_literal.
  assert (Hbase : (2 <= fst (literal num) <= 36)%Z).
  { destruct (prefix "0x" num) eqn:E.
    - destruct (literal_hexadecimal num E) as (body & _ & ->). cbn. lia.
    - rewrite (literal_decimal num E). cbn. lia. }
  assert (Hpow : (2 <= 2 ^ bits <= 2 ^ 64)%Z).
  { split.
    - change 2%Z with (2 ^ 1)%Z at 1. apply Z.pow_le_mono_r; lia.
    - apply Z.pow_le_mono_r; lia. }
  destruct (snd (literal num)) as [|c rest] eqn:Hs.
  - cbn. split; [discriminate | intros [H _]; discriminate].
  - rewrite ParseUint_run by (lia || discriminate).
    rewrite scan_exact by (unfold maxUint64; lia).
    cbn [number]. split.
    + intros [H Hv]. split; [exact H|].
      apply number_from_grows in H; lia.
    + intros [H Hv]. split; [exact H | lia].
Qed.

(** X10. What [parseInt] accepts, exactly. With a bit size from 1 to
    64 it returns [v] and a nil error if and only if the text, taken
    as hexadecimal digits after a leading 0x and as decimal digits
    otherwise, is not empty, is made of digits of its base only (no
    sign, no underscore, no 0X) and writes the number [v], which is
    below 2 to the bit size. Letters count in either case. *)
Theorem parseInt_exact (num : string) (bits v : Z) :
  (1 <= bits <= 64)%Z ->
  parseInt num bits = (v, None) <->
  number (fst (literal num)) (snd (literal num)) = Some v /\ (0 <= v < 2 ^ bits)%Z.
Proof.
  intros Hbits. exact (parseInt_denotes num bits v Hbits).
Qed.

Lemma parseInt_exact_witness :
  (1 <= 32 <= 64)%Z /\ parseInt "0x35459C" 32 = (3491228%Z, None).
Proof.
  split; [lia|].
  apply (parseInt_exact "0x35459C" 32 3491228); [lia | split; [reflexivity | lia]].
Defined.

(** X11. A number too large for the bit size is answered with the
    largest value of that size and a range error of [ParseUint] that
    quotes the digits without the 0x in front of them. *)
Theorem parseInt_out_of_range (num : string) (bits n : Z) :
  (1 <= bits <= 64)%Z ->
  number (fst (literal num)) (snd (literal num)) = Some n -> (2 ^ bits <= n)%Z ->
  parseInt num bits =
  ((2 ^ bits - 1)%Z,
   Some {| Func := "ParseUint"; Num := snd (literal num); Err := ErrRange |}).
Proof.
  intros Hbits Hn Hbig. rewrite parseInt_literal.
  assert (Hbase : (2 <= fst (literal num) <= 36)%Z).
  { destruct (prefix "0x" num) eqn:E.
    - destruct (literal_hexadecimal num E) as (body & _ & ->). cbn. lia.
    - rewrite (literal_decimal num E). cbn. lia. }
  assert (Hpow : (2 <= 2 ^ bits <= 2 ^ 64)%Z).
  { split.
    - change 2%Z with (2 ^ 1)%Z at 1. apply Z.pow_le_mono_r; lia.
    - apply Z.pow_le_mono_r; lia. }
  destruct (snd (literal num)) as [|c rest] eqn:Hs; [discriminate|].
  rewrite ParseUint_run by (lia || discriminate).
  cbn [number] in Hn.
  rewrite (scan_number _ _ _ _ _ n) by (unfold maxUint64; lia || exact Hn).
  now replace (n <=? 2 ^ bits - 1)%Z with false by (symmetry; apply Z.leb_gt; lia).
Qed.

Lemma parseInt_out_of_range_witness :
  parseInt "256" 8
  = ((2 ^ 8 - 1)%Z,
     Some {| Func := "ParseUint"; Num := snd (literal "256"); Err := ErrRange |}).
Proof.
  apply (parseInt_out_of_range "256" 8 256); [lia | reflexivity | lia].
Defined.

(* ===================================================================== *)
(** * From the parameters to the request bytes *)
(* ===================================================================== *)

Lemma param_absent (m : list (string * string)) (k : string) :
  snd (param_index m k) = false -> fst (param_index m k) = EmptyString.
Proof.
  induction m as [|[k' v] rest IH]; [reflexivity|].
  cbn [param_index]. destruct (String.eqb k' k); [discriminate | exact IH].
Qed.

Lemma denotes_found (m : list (string * string)) (k : string) (bits v : Z) :
  denotes (fst (param_index m k)) bits v -> snd (param_index m k) = true.
Proof.
  intros [H _]. destruct (snd (param_index m k)) eqn:E; [reflexivity|].
  rewrite (param_absent m k E) in H. discriminate H.
Qed.

Lemma uint32_small (v : Z) : (0 <= v < 2 ^ 32)%Z -> uint32 v = v.
Proof. apply Z.mod_small. Qed.

Lemma uint16_small (v : Z) : (0 <= v < 2 ^ 16)%Z -> uint16 v = v.
Proof. apply Z.mod_small. Qed.

Lemma uint64_small (v : Z) : (0 <= v < 2 ^ 64)%Z -> uint64 v = v.
Proof. apply Z.mod_small. Qed.

Lemma uint8_small (v : Z) : (0 <= v < 2 ^ 8)%Z -> byte.unsigned (uint8 v) = v.
Proof. intros H. unfold uint8. rewrite byte.unsigned_of_Z. now apply Z.mod_small. Qed.

Ltac hide_calls :=
  cbn -[parseInt param_index StrConv.ParseInt StrConv.TrimPrefix uint32 uint8 uint16
        StrConv.uint64 append].

Tactic Notation "hide_calls" "in" hyp(H) :=
  cbn -[parseInt param_index StrConv.ParseInt StrConv.TrimPrefix uint32 uint8 uint16
        StrConv.uint64 append] in H.


Ltac in_range :=
  match goal with
  | H : denotes _ _ ?v |- (0 <= ?v < _)%Z => exact (proj2 H)
  end.

(** Runs the first switch in [EP] for a request type that is known:
    takes the cases of each lookup and of each call of [parseInt]. *)
Ltac run_switch EP :=
  unfold parseParameters in EP; hide_calls in EP;
  repeat first
    [ discriminate EP
    | match type of EP with
      | context [StrConv.ParseInt ?s ?b ?c] =>
        let v := eval vm_compute in (StrConv.ParseInt s b c) in
        change (StrConv.ParseInt s b c) with v in EP; hide_calls in EP
      | context [param_index ?p ?k] =>
        let f := fresh "found" in
        destruct (param_index p k) as [? f] eqn:?; destruct f; hide_calls in EP
      | context [parseInt ?s ?b] =>
        destruct (parseInt s b) as [? [?|]] eqn:?; hide_calls in EP
      end ].

Ltac parsed_denotes :=
  repeat match goal with
         | H : parseInt _ _ = (_, None) |- _ => apply parseInt_denotes in H; [|lia]
         end.

Ltac created EP EC :=
  apply Some_eq in EC; subst; run_switch EP; parsed_denotes;
  try (injection EP as <-); unfold asked;
  repeat match goal with H : param_index _ _ = _ |- _ => rewrite H; clear H end;
  cbn [fst snd request_name address_of data_of slot_of
       Locals.address Locals.dataUInt64 Locals.slot Locals.width Locals.zero
       PineRead8Request.address PineRead16Request.address
       PineRead32Request.address PineRead64Request.address
       PineWrite8Request.address PineWrite16Request.address
       PineWrite32Request.address PineWrite64Request.address
       PineWrite8Request.data PineWrite16Request.data
       PineWrite32Request.data PineWrite64Request.data
       PineSaveStateRequest.slot PineLoadStateRequest.slot];
  rewrite ?uint32_small, ?uint16_small, ?uint64_small, ?uint8_small by in_range;
  (split; [reflexivity|]); (split; [|split]); intros;
  try discriminate;
  repeat match goal with
         | H : Some _ = Some _ |- _ => apply Some_eq in H
         | H : (_, _) = (_, _) |- _ => injection H as <- <-
         end;
  subst; rewrite ?uint8_small by in_range; assumption.

Lemma created_asked (t : string) (params : list (string * string))
    (v : Locals.t) (r : Request) :
  parseParameters t params = inr v -> createRequest t v = Some r -> asked t params r.
Proof.
  intros EP EC. unfold createRequest in EC.
  destruct (String.eqb_spec t "read8") as [->|N1]; [created EP EC|].
  destruct (String.eqb_spec t "read16") as [->|N2]; [created EP EC|].
  destruct (String.eqb_spec t "read32") as [->|N3]; [created EP EC|].
  destruct (String.eqb_spec t "read64") as [->|N4]; [created EP EC|].
  destruct (String.eqb_spec t "write8") as [->|N5]; [created EP EC|].
  destruct (String.eqb_spec t "write16") as [->|N6]; [created EP EC|].
  destruct (String.eqb_spec t "write32") as [->|N7]; [created EP EC|].
  destruct (String.eqb_spec t "write64") as [->|N8]; [created EP EC|].
  destruct (String.eqb_spec t "version") as [->|N9]; [created EP EC|].
  destruct (String.eqb_spec t "savestate") as [->|N10]; [created EP EC|].
  destruct (String.eqb_spec t "loadstate") as [->|N11]; [created EP EC|].
  destruct (String.eqb_spec t "title") as [->|N12]; [created EP EC|].
  destruct (String.eqb_spec t "id") as [->|N13]; [created EP EC|].
  destruct (String.eqb_spec t "uuid") as [->|N14]; [created EP EC|].
  destruct (String.eqb_spec t "gameversion") as [->|N15]; [created EP EC|].
  destruct (String.eqb_spec t "status") as [->|N16]; [created EP EC|].
  discriminate EC.
Qed.

Ltac asking Hadr Hdat Hslot :=
  try (pose proof (Hadr _ eq_refl)); try (pose proof (Hdat _ _ eq_refl));
  try (pose proof (Hslot _ eq_refl));
  clear Hadr Hdat Hslot;
  repeat match goal with
         | H : denotes (fst (param_index ?m ?k)) ?b ?v |- _ =>
           let F := fresh "F" in
           pose proof (denotes_found m k b v H) as F;
           pose proof (proj2 H);
           apply (parseInt_denotes _ b v ltac:(lia)) in H;
           destruct (param_index m k) as [? ?] eqn:?; cbn [fst snd] in H, F; subst
         end;
  eexists; split;
  [ unfold parseParameters; hide_calls;
    repeat first
      [ match goal with
        | H : param_index ?m ?k = _ |- context [param_index ?m ?k] =>
          rewrite H; hide_calls
        | |- context [StrConv.ParseInt ?s ?b ?c] =>
          let v := eval vm_compute in (StrConv.ParseInt s b c) in
          change (StrConv.ParseInt s b c) with v; hide_calls
        | H : parseInt ?s ?b = _ |- context [parseInt ?s ?b] => rewrite H; hide_calls
        end ];
    reflexivity
  | hide_calls;
    rewrite ?uint32_small, ?uint16_small, ?uint64_small by assumption;
    unfold uint8; rewrite ?byte.of_Z_unsigned; reflexivity ].

Lemma asked_created (t : string) (params : list (string * string)) (r : Request) :
  asked t params r ->
  exists v, parseParameters t params = inr v /\ createRequest t v = Some r.
Proof.
  intros (Hname & Hadr & Hdat & Hslot).
  destruct r as [[a]|[a]|[a]|[a]|[a d]|[a d]|[a d]|[a d]|[]|[s]|[s]|[]|[]|[]|[]|[]];
    cbn [request_name] in Hname; subst t;
    cbn [address_of data_of slot_of
         PineRead8Request.address PineRead16Request.address
         PineRead32Request.address PineRead64Request.address
         PineWrite8Request.address PineWrite16Request.address
         PineWrite32Request.address PineWrite64Request.address
         PineWrite8Request.data PineWrite16Request.data
         PineWrite32Request.data PineWrite64Request.data
         PineSaveStateRequest.slot PineLoadStateRequest.slot] in *;
    asking Hadr Hdat Hslot.
Qed.

(** X12. The handler sends what was asked, and only that.
    [handlePineRequest] reaches [pc.Send] with the bytes [bs] if and
    only if [bs] is the encoding of a request of the type named whose
    address, data and slot are the numbers their parameters write,
    each within its width: 32 bits for the address, 8, 16, 32 or 64
    for the data of a write, 8 for the slot. Nothing is cut off on
    the way, and parameters the type has no use for are ignored. *)
Theorem handler_sends_what_was_asked (t : string) (params : list (string * string))
    (bs : list byte) :
  requestBytesOf t params = Done (Ready bs) <->
  exists r, asked t params r /\ encode r = Done (bs, nil_error).
Proof.
  unfold requestBytesOf. split.
  - destruct (parseParameters t params) as [msg|v] eqn:EP; [discriminate|].
    destruct (createRequest t v) as [r|] eqn:EC; [|discriminate].
    destruct (encode_fields r) as (bs' & E & _). rewrite E.
    intros H. injection H as <-. exists r. split; [|exact E].
    exact (created_asked t params v r EP EC).
  - intros (r & Hr & E).
    destruct (asked_created t params r Hr) as (v & EP & EC).
    now rewrite EP, EC, E.
Qed.

Lemma unknown_runs (t : string) (params : list (string * string)) :
  ~ In t request_types ->
  requestBytesOf t params
  = Done (Refused 400 ("unknown request type when creating requestBytes for "
                         ++ t ++ " PINE request")).
Proof.
  intros H. unfold requestBytesOf, parseParameters, createRequest, is_case.
  cbn [existsb].
  repeat match goal with
         | |- context [String.eqb t ?name] =>
           destruct (String.eqb_spec t name) as [->|?];
           [exfalso; apply H; unfold request_types; cbn [In]; tauto|]
         end.
  reflexivity.
Qed.

Lemma known_runs (t : string) (params : list (string * string)) :
  In t request_types ->
  requestBytesOf t params
  <> Done (Refused 400 ("unknown request type when creating requestBytes for "
                          ++ t ++ " PINE request")).
Proof.
  intros H. unfold requestBytesOf.
  destruct (parseParameters t params) as [msg|v] eqn:EP.
  - unfold request_types in H. cbn [In] in H.
    repeat (destruct H as [<-|H]; [run_switch EP; injection EP as <-; cbn [append]; congruence|]).
    destruct H.
  - assert (exists r, createRequest t v = Some r) as [r ->].
    { unfold request_types in H. cbn [In] in H.
      repeat (destruct H as [<-|H]; [eexists; reflexivity|]). destruct H. }
    destruct (encode_fields r) as (bs & -> & _). discriminate.
Qed.

Lemma handler_sends_what_was_asked_witness :
  requestBytesOf "write16" [("woodyaddress", "0x35459C"); ("woodydata", "65535")]
  = Done (Ready [Byte.x0b; Byte.x00; Byte.x00; Byte.x00; Byte.x05; Byte.x9c;
                 Byte.x45; Byte.x35; Byte.x00; Byte.xff; Byte.xff]).
Proof.
  apply handler_sends_what_was_asked.
  exists (ReqWrite16 {| PineWrite16Request.address := 3491228;
                        PineWrite16Request.data := 65535 |}).
  split; [|reflexivity].
  split; [reflexivity|].
  split; [|split]; intros; try discriminate.
  - match goal with H : _ = Some _ |- _ => apply Some_eq in H; subst end.
    split; [reflexivity | cbn; lia].
  - match goal with H : _ = Some _ |- _ => apply Some_eq in H; injection H as <- <- end.
    split; [reflexivity | cbn; lia].
Defined.

(** X13. The request types are the sixteen lower-case names, and
    nothing else gets as far as the parameters: the handler answers
    400 with the unknown-request-type message of the second switch
    if and only if the type is not one of them. *)
Theorem unknown_request_type (t : string) (params : list (string * string)) :
  ~ In t request_types <->
  requestBytesOf t params
  = Done (Refused 400 ("unknown request type when creating requestBytes for "
                         ++ t ++ " PINE request")).
Proof.
  split; [apply unknown_runs|].
  intros H Hin. exact (known_runs t params Hin H).
Qed.

Lemma unknown_request_type_witness :
  requestBytesOf "Version" []
  = Done (Refused 400 "unknown request type when creating requestBytes for Version PINE request").
Proof.
  apply (proj1 (unknown_request_type "Version" [])).
  unfold request_types. cbn [In]. intros H.
  repeat (destruct H as [H|H]; [discriminate H|]). exact H.
Defined.

(* ===================================================================== *)
(** * From the answer bytes to the response *)
(* ===================================================================== *)

Lemma resultCodeOf_textAnswer (k : RequestType) (rc : byte) (s : string) :
  is_text k = true -> resultCodeOf (textAnswer k rc s) = rc.
Proof. destruct k; try discriminate; reflexivity. Qed.

(** The result code of a decoded answer is byte 4 of the slice. *)
Lemma decode_result_code (k : RequestType) (f : frame) (answer : Answer)
    (log : list event) :
  decode k f = Done (answer, nil_error, log) ->
  5 <= List.length (shown f) /\ resultCodeOf answer = nth 4 (shown f) Byte.x00.
Proof.
  intros H.
  destruct (Nat.lt_ge_cases (List.length (shown f)) 4) as [Hshort|Hlong].
  { rewrite (decode_short k f Hshort) in H. discriminate H. }
  destruct (le32_some _ Hlong) as [n Hn].
  destruct (accepts k n) eqn:Hk.
  2: { rewrite (decode_rejects k f n Hn Hk) in H. discriminate H. }
  destruct (fields_present k f n) eqn:Hp.
  2: { destruct (is_text k) eqn:Ht.
       - destruct (decode_starved_text k f n Ht Hn Hk Hp) as [r E].
         rewrite E in H. discriminate H.
       - destruct (decode_starved_binary k f n Ht Hn Hk Hp) as [r E].
         rewrite E in H. discriminate H. }
  destruct (is_text k) eqn:Ht.
  - assert (Hten : (10 <= n)%Z).
    { destruct k; try discriminate Ht; cbn [accepts] in Hk;
        apply negb_true_iff, Z.ltb_ge in Hk; exact Hk. }
    assert (Hv : exists v, le32 (skipn 5 (shown f)) = Some v /\
                           (9 + v < 2 ^ 32)%Z /\
                           (9 + v <= Z.of_nat (List.length (shown f ++ spare f)))%Z).
    { destruct k; try discriminate Ht; cbn [fields_present] in Hp;
        (destruct (le32 (skipn 5 (shown f))) as [v|]; [|discriminate Hp]);
        apply andb_true_iff in Hp as [H1 H2];
        apply Z.ltb_lt in H1; apply Z.leb_le in H2; eauto. }
    destruct Hv as (v & Hv & Hwrap & Hcap).
    rewrite (text_decode_stripped k f n v Ht Hn Hten Hv Hwrap Hcap) in H.
    injection H as <- _. rewrite resultCodeOf_textAnswer by assumption.
    split; [|reflexivity].
    pose proof (le32_length _ _ Hv) as H4. rewrite length_skipn in H4. lia.
  - destruct (decode_accepts_binary k f n Ht Hn Hk Hp) as (a & log' & E & Hrc).
    rewrite E in H. injection H as <- _. split; [|exact Hrc].
    destruct k; try discriminate Ht; cbn [fields_present] in Hp;
      try (apply andb_true_iff in Hp as [Hp _]); apply Nat.leb_le in Hp; lia.
Qed.

Lemma ready_known (t : string) (params : list (string * string)) (bs : list byte) :
  requestBytesOf t params = Done (Ready bs) -> exists k, answerType t = Some k.
Proof.
  intros H. unfold requestBytesOf in H.
  destruct (parseParameters t params) as [msg|v]; [discriminate H|].
  unfold createRequest in H. unfold answerType.
  repeat match goal with
         | |- context [String.eqb t ?name] =>
           destruct (String.eqb_spec t name) as [->|?]; [eexists; reflexivity|]
         end.
  discriminate H.
Qed.

(** X14. The HTTP status of an answer is read off byte 4 of the
    answer bytes. When [handlePineRequest] answers (rather than
    sending an error), the request bytes were built, [pc.Send]
    returned at least 5 bytes and a nil error for them, and the
    status is 200 when byte 4 is 0, 500 when it is 255 and 501 for
    every other value. *)
Theorem status_follows_result_code (Send : list byte -> frame * error)
    (t : string) (params : list (string * string)) (status : Z) (body : string) :
  handlePineRequest Send t params = Done (ReplyAnswer status body) ->
  exists requestBytes answerBytes,
    requestBytesOf t params = Done (Ready requestBytes) /\
    Send requestBytes = (answerBytes, nil_error) /\
    5 <= List.length (shown answerBytes) /\
    let rc := byte.unsigned (nth 4 (shown answerBytes) Byte.x00) in
    (rc = 0 /\ status = 200 \/ rc = 255 /\ status = 500 \/
     rc <> 0 /\ rc <> 255 /\ status = 501)%Z.
Proof.
  unfold handlePineRequest.
  destruct (requestBytesOf t params) as [[code msg|bs]|reason] eqn:ER; try discriminate.
  destruct (Send bs) as [f [e|]] eqn:ES; [discriminate|].
  destruct (answerType t) as [k|]; [|discriminate].
  destruct (decode k f) as [[[answer [e|]] log]|reason] eqn:ED; try discriminate.
  intros H. injection H as <- <-.
  destruct (decode_result_code k f answer log ED) as [Hlen Hrc].
  exists bs, f. repeat split; try assumption.
  cbv zeta. rewrite <- Hrc. unfold statusCodeFor.
  destruct (Z.eqb_spec (byte.unsigned (resultCodeOf answer)) 0) as [E0|N0]; [now left|].
  destruct (Z.eqb_spec (byte.unsigned (resultCodeOf answer)) 255) as [E1|N1];
    [right; now left | right; right; auto].
Qed.

Lemma status_follows_result_code_witness :
  let Send := fun _ : list byte =>
    (exact [Byte.x05; Byte.x00; Byte.x00; Byte.x00; Byte.xff], nil_error) in
  exists requestBytes answerBytes,
    requestBytesOf "savestate" [("woodyslot", "1")] = Done (Ready requestBytes) /\
    Send requestBytes = (answerBytes, nil_error) /\
    5 <= List.length (shown answerBytes) /\
    let rc := byte.unsigned (nth 4 (shown answerBytes) Byte.x00) in
    (rc = 0 /\ 500 = 200 \/ rc = 255 /\ 500 = 500 \/
     rc <> 0 /\ rc <> 255 /\ 500 = 501)%Z.
Proof.
  intros Send.
  eapply (status_follows_result_code Send "savestate" [("woodyslot", "1")] 500).
  vm_compute. reflexivity.
Defined.

Lemma refusals (t : string) (params : list (string * string)) (code : Z) (msg : string) :
  requestBytesOf t params = Done (Refused code msg) ->
  msg <> ("unknown request type when creating Answer struct for "
            ++ t ++ " PINE request")%string.
Proof.
  intros H. destruct (in_dec string_dec t request_types) as [Hin|Hout].
  - unfold requestBytesOf in H.
    destruct (parseParameters t params) as [m|v] eqn:EP.
    + injection H as _ <-. unfold request_types in Hin. cbn [In] in Hin.
      repeat (destruct Hin as [<-|Hin];
              [run_switch EP; injection EP as <-; cbn [append]; congruence|]).
      destruct Hin.
    + assert (exists r, createRequest t v = Some r) as [r Hr].
      { unfold request_types in Hin. cbn [In] in Hin.
        repeat (destruct Hin as [<-|Hin]; [eexists; reflexivity|]). destruct Hin. }
      rewrite Hr in H. destruct (encode_fields r) as (bs & E & _).
      rewrite E in H. discriminate H.
  - rewrite (unknown_runs t params Hout) in H. injection H as _ <-.
    cbn [append]. congruence.
Qed.

(** X15. The [default] of the third switch is dead code: whatever the
    request type, the parameters and the behaviour of [pc.Send],
    [handlePineRequest] never sends the unknown-request-type error
    of the answer switch. An unknown type is refused by the second
    switch before anything is sent. *)
Theorem answer_default_unreachable (Send : list byte -> frame * error)
    (t : string) (params : list (string * string)) :
  handlePineRequest Send t params
  <> Done (ReplyError 400 ("unknown request type when creating Answer struct for "
                             ++ t ++ " PINE request")).
Proof.
  unfold handlePineRequest.
  destruct (requestBytesOf t params) as [[code msg|bs]|reason] eqn:ER; try discriminate.
  - intros H. injection H as _ H. exact (refusals t params code msg ER H).
  - destruct (Send bs) as [f [e|]].
    + cbn [append]. congruence.
    + destruct (ready_known t params bs ER) as [k ->].
      destruct (decode k f) as [[[answer [e|]] log]|reason]; discriminate.
Qed.
